(** * Pipeline-parallel resharding: layer segmentation and canonical naming

    A shallow embedding of [paddlenlp/trainer/utils/reshard/pp_reshard.py]
    and the verification of its segmentation planner, its name-scope tree
    and the segment context built from them.

    Conventions of the embedding.
    - Python exceptions are values of [exn]; a computation that may raise
      has type [outcome A].
    - A Python [list] is a Rocq [list]; [l[i]] and [l[i] = x] are
      [list_get] and [list_set], which raise [IndexError] out of range.
    - An [OrderedDict] whose iteration order is observed is an association
      list with the insertion discipline of [od_set]; a dictionary that is
      only looked up is a [gmap].
    - [str] is [string]; names are taken to be ASCII, so that the code-point
      order of Python is the byte order of [String.leb] and [\d] is the class
      of the ten ASCII digits.
    - Counts ([layer_num], [stage_num], [pp_degree], [vpp_degree], list
      positions) are natural numbers; a transformer-layer count and the
      ordinal of a layer are integers, since the code computes them by
      subtraction. *)

From stdpp Require Import gmap strings list fin_maps sorting.
From Stdlib Require Import ZArith DecimalString DecimalZ DecimalNat DecimalPos Ascii.

Open Scope string_scope.
Open Scope list_scope.
Open Scope nat_scope.
Open Scope stdpp_scope.

Set Warnings "-register-all".

(** ** Exceptions *)

Inductive exn : Type :=
  | AssertionError (msg : string)
  | IndexError
  | KeyError
  | ZeroDivisionError.

Inductive outcome (A : Type) : Type :=
  | Ok (a : A)
  | Raise (e : exn).

Arguments Ok {A} a.
Arguments Raise {A} e.

Definition bind {A B : Type} (m : outcome A) (k : A → outcome B) : outcome B :=
  match m with
  | Ok a => k a
  | Raise e => Raise e
  end.

Notation "x <- m ;; k" := (bind m (fun x => k))
  (at level 100, m at next level, right associativity).

(** [assert c] with no message. *)
Definition assert (c : bool) : outcome unit :=
  if c then Ok tt else Raise (AssertionError "").

(** A [for] loop whose body may raise: the state is threaded from left to
    right and the first exception ends the loop. *)
Fixpoint for_each {A St : Type} (body : St → A → outcome St) (xs : list A) (s : St)
  : outcome St :=
  match xs with
  | [] => Ok s
  | x :: xs' => s' <- body s x ;; for_each body xs' s'
  end.

Definition is_ok {A : Type} (r : outcome A) : Prop := ∃ a, r = Ok a.

(** ** Python lists *)

Definition list_get {A : Type} (l : list A) (i : nat) : outcome A :=
  match l !! i with
  | Some x => Ok x
  | None => Raise IndexError
  end.

Definition list_set {A : Type} (l : list A) (i : nat) (x : A) : outcome (list A) :=
  if decide (i < length l) then Ok (<[i := x]> l) else Raise IndexError.

(** [enumerate(l)], counting from [n]. *)
Fixpoint enumerate_from {A : Type} (n : nat) (l : list A) : list (nat * A) :=
  match l with
  | [] => []
  | x :: l' => (n, x) :: enumerate_from (S n) l'
  end.

Definition enumerate {A : Type} (l : list A) : list (nat * A) := enumerate_from 0 l.

(** [range(a, b)] *)
Definition range (a b : nat) : list nat := seq a (b - a).

(** ** The segmentation planner ([PipeLineSegmentContext._segment]) *)

Section Planner.
Variables (layer_num stage_num : nat).

(** [segment_uniform], lines 337-345.  [math.floor(layer_num / stage_num)]
    is the integer quotient (the float quotient is exact far beyond any
    layer count). *)
Definition segment_uniform : outcome (list nat) :=
  let result := replicate (stage_num + 1) 0 in
  if stage_num =? 0 then Raise ZeroDivisionError else
  let part_size := layer_num / stage_num in
  let extra_layers := layer_num mod stage_num in
  result <- for_each (fun result i =>
              let offset := if stage_num - extra_layers <? i then 1 else 0 in
              prev <- list_get result (i - 1) ;;
              list_set result i (Nat.min (prev + part_size + offset) layer_num))
            (range 1 stage_num) result ;;
  list_set result stage_num layer_num.

(** The weights of [segment_by_layer], lines 319-322. *)
Definition layer_weights : outcome (list nat) :=
  for_each (fun weights i => list_set weights i 1)
           (range 1 (layer_num - 2)) (replicate layer_num 0).

(** One iteration of the loop of lines 328-333; the state is
    [(result, memory_counter, result_idx)]. *)
Definition by_layer_step (part_size : nat) (st : list nat * nat * nat)
    (iw : nat * nat) : outcome (list nat * nat * nat) :=
  let '(result, memory_counter, result_idx) := st in
  let '(idx, weight) := iw in
  let memory_counter := memory_counter + weight in
  if memory_counter =? part_size then
    result <- list_set result result_idx (idx + 1) ;;
    Ok (result, 0, result_idx + 1)
  else Ok (result, memory_counter, result_idx).

(** [segment_by_layer], lines 315-335. *)
Definition segment_by_layer : outcome (list nat) :=
  weights <- layer_weights ;;
  if stage_num =? 0 then Raise ZeroDivisionError else
  let part_size := sum_list weights / stage_num in
  let result := replicate (stage_num + 1) 0 in
  st <- for_each (by_layer_step part_size) (enumerate weights) (result, 0, 1) ;;
  list_set st.1.1 stage_num layer_num.
End Planner.

(** Lines 347-352: the ranges are dealt to the stages round-robin. *)
Definition deal_segments (pp_degree stage_num : nat) (result : list nat)
  : outcome (list (list (nat * nat))) :=
  for_each (fun index_segments i =>
      if pp_degree =? 0 then Raise ZeroDivisionError else
      bucket <- list_get index_segments (i mod pp_degree) ;;
      lo <- list_get result i ;;
      hi <- list_get result (i + 1) ;;
      list_set index_segments (i mod pp_degree) (bucket ++ [(lo, hi)]))
    (range 0 stage_num) (replicate pp_degree []).

(** Lines 312-352 of [_segment], for a given [layer_num]. *)
Definition plan_segments (layer_num pp_degree vpp_degree : nat) (segment_method : string)
  : outcome (list (list (nat * nat))) :=
  let stage_num := pp_degree * vpp_degree in
  result <- (if String.eqb segment_method "uniform"
             then segment_uniform layer_num stage_num
             else segment_by_layer layer_num stage_num) ;;
  deal_segments pp_degree stage_num result.

(** ** Ordered dictionaries *)

(** [d[k]] on an [OrderedDict]. *)
Fixpoint od_get `{EqDecision K} {V : Type} (d : list (K * V)) (k : K) : option V :=
  match d with
  | [] => None
  | (k', v) :: d' => if decide (k = k') then Some v else od_get d' k
  end.

(** [d[k] = v]: an existing key keeps its position, a new key goes last. *)
Fixpoint od_set `{EqDecision K} {V : Type} (d : list (K * V)) (k : K) (v : V)
  : list (K * V) :=
  match d with
  | [] => [(k, v)]
  | (k', v') :: d' =>
      if decide (k = k') then (k, v) :: d' else (k', v') :: od_set d' k v
  end.

(** ** [sorted] *)

(** [sorted(l, key=...)] is the stable ascending sort; insertion from the
    right computes it ([le] is the order of the keys). *)
Section Sorted.
Context {A : Type} (le : A → A → bool).

Fixpoint sorted_insert (x : A) (l : list A) : list A :=
  match l with
  | [] => [x]
  | y :: l' => if le x y then x :: y :: l' else y :: sorted_insert x l'
  end.

Fixpoint sorted (l : list A) : list A :=
  match l with
  | [] => []
  | x :: l' => sorted_insert x (sorted l')
  end.
End Sorted.

(** ** Strings and the regular expressions of the layer classifier *)

Definition startswith (s k : string) : bool := String.prefix k s.

(** [s.split(sep)] for a one-character separator. *)
Fixpoint split (sep : ascii) (s : string) : list string :=
  match s with
  | EmptyString => [EmptyString]
  | String c s' =>
      if Ascii.eqb c sep then EmptyString :: split sep s'
      else match split sep s' with
           | [] => [String c EmptyString]
           | w :: ws => String c w :: ws
           end
  end.

Definition is_digit (c : ascii) : bool :=
  (48 <=? nat_of_ascii c) && (nat_of_ascii c <=? 57).

(** The longest run of digits at the head of [s] (a greedy [\d*]); on the
    ASCII names of the conventions [\d] is the class of [is_digit]. *)
Fixpoint take_digits (s : string) : string :=
  match s with
  | EmptyString => EmptyString
  | String c s' => if is_digit c then String c (take_digits s') else EmptyString
  end.

(** [s] without its prefix [p], if it has it. *)
Fixpoint strip_prefix (p s : string) : option string :=
  match p, s with
  | EmptyString, _ => Some s
  | String a p', String b s' => if Ascii.eqb a b then strip_prefix p' s' else None
  | String _ _, EmptyString => None
  end.

(** [ernie\.layers((\.(\d+)))] matched at the head of [s]: the digits of
    group 3. *)
Definition match_layers_at (s : string) : option string :=
  match strip_prefix "ernie.layers." s with
  | Some rest =>
      match take_digits rest with
      | EmptyString => None
      | ds => Some ds
      end
  | None => None
  end.

(** [re.search(r"ernie\.layers((\.(\d+)))", s)]: the leftmost match. *)
Fixpoint search_layers (s : string) : option string :=
  match match_layers_at s with
  | Some ds => Some ds
  | None =>
      match s with
      | EmptyString => None
      | String _ s' => search_layers s'
      end
  end.

(** [int(ds)] for a string of ASCII digits; Python reads a numeral of at
    most 4300 digits, and the layer numbers of a model are far shorter. *)
Definition digit_value (c : ascii) : nat := nat_of_ascii c - 48.

Fixpoint int_of_digits (acc : nat) (ds : string) : nat :=
  match ds with
  | EmptyString => acc
  | String c ds' => int_of_digits (10 * acc + digit_value c) ds'
  end.

(** [str(i)] *)
Definition str_int (i : Z) : string := NilZero.string_of_int (Z.to_int i).
Definition str_nat (n : nat) : string := NilEmpty.string_of_uint (Nat.to_uint n).

(** [extract_layer_name], lines 141-157. *)
Definition extract_layer_name (param_name : string) : option string :=
  match match_layers_at param_name with
  | Some ds => Some ("ernie.layers." +:+ ds)
  | None =>
      if startswith param_name "ernie.embed_tokens" then Some "ernie.embed_tokens"
      else if startswith param_name "ernie.norm" then Some "ernie.norm"
      else if startswith param_name "lm_head" then Some "lm_head"
      else None
  end.

(** [index_layer], lines 160-173. *)
Definition index_layer (layer_name : string) (transformer_layer_num : option Z)
  : outcome Z :=
  let transformer_layer_num :=
    match transformer_layer_num with None => 1000%Z | Some n => n end in
  if String.eqb layer_name "ernie.embed_tokens" then Ok 0%Z
  else if String.eqb layer_name "ernie.norm" then Ok (transformer_layer_num + 1)%Z
  else if String.eqb layer_name "lm_head" then Ok (transformer_layer_num + 2)%Z
  else
    match search_layers layer_name with
    | None => Raise (AssertionError "")
    | Some ds => Ok (Z.of_nat (int_of_digits 0 ds) + 1)%Z
    end.

(** ** The name-scope tree ([LayerNameScope], [LayerReNamingManager]) *)

Definition prefix_to_template : list (string * string) :=
  [ ("column_sequence_parallel_linear", "column_sequence_parallel_linear_{}");
    ("row_sequence_parallel_linear", "row_sequence_parallel_linear_{}");
    ("linear", "linear_{}");
    ("layer_norm", "layer_norm_{}");
    ("embedding", "embedding_{}");
    ("create_parameter", "create_parameter_{}");
    ("ernie_lm_head", "ernie_lm_head_{}") ].

Inductive LayerNameScope : Type := mkScope {
  sc_prefix : option string;
  sc_last_layer_id : string;
  sc_last_old_layer_name : string;
  sc_template : option string;
  sc_index : Z;
  sc_sub_scopes : list (string * LayerNameScope) }.

(** [LayerNameScope.__init__] *)
Definition new_scope (prefix template : option string) : LayerNameScope :=
  {| sc_prefix := prefix; sc_last_layer_id := ""; sc_last_old_layer_name := "";
     sc_template := template; sc_index := (-1)%Z; sc_sub_scopes := [] |}.

(** [get_layer_prefix], lines 86-90. *)
Definition get_layer_prefix (old_layer_name : string) : option string :=
  fst <$> List.find (fun kv => startswith old_layer_name kv.1) prefix_to_template.

(** [get_next_scope], lines 92-98. *)
Definition get_next_scope (self : LayerNameScope) (layer_id old_layer_name : string)
  : LayerNameScope :=
  if negb (String.eqb old_layer_name (sc_last_old_layer_name self))
     || negb (String.eqb layer_id (sc_last_layer_id self))
  then {| sc_prefix := sc_prefix self;
          sc_last_layer_id := layer_id;
          sc_last_old_layer_name := old_layer_name;
          sc_template := sc_template self;
          sc_index := (sc_index self + 1)%Z;
          sc_sub_scopes := [] |}
  else self.

(** [template.format(index)] for a template with one [{}] field. *)
Fixpoint format (template : string) (index : Z) : string :=
  match template with
  | String "{" (String "}" rest) => str_int index +:+ rest
  | String c rest => String c (format rest index)
  | EmptyString => EmptyString
  end.

(** A string or [None] used as a condition. *)
Definition truthy (s : option string) : option string :=
  match s with
  | Some EmptyString | None => None
  | Some s => Some s
  end.

(** [get_layer_name], lines 100-106. *)
Definition get_layer_name (self : LayerNameScope) : string :=
  let name := match truthy (sc_template self) with
              | Some t => format t (sc_index self)
              | None => ""
              end in
  match truthy (sc_prefix self) with
  | Some p => p +:+ "_" +:+ name
  | None => name
  end.

Definition show_prefix (p : option string) : string :=
  match p with Some s => s | None => "None" end.

(** The message of the assertion of [get_sub_scope], line 110. *)
Definition invalid_msg (sub_layer_name : string) (prefix : option string) : string :=
  sub_layer_name +:+ " invalid, prefix " +:+ show_prefix prefix.

(** [get_sub_scope], lines 108-117.  The scope returned by the method is a
    child held in [self.sub_scopes]; here it comes with its key and with
    [self], which holds it from now on. *)
Definition get_sub_scope (self : LayerNameScope) (sub_layer_name : string)
  : outcome (LayerNameScope * string * LayerNameScope) :=
  match get_layer_prefix sub_layer_name with
  | None => Raise (AssertionError (invalid_msg sub_layer_name (sc_prefix self)))
  | Some layer_prefix =>
      match od_get (sc_sub_scopes self) layer_prefix with
      | Some scope => Ok (self, layer_prefix, scope)
      | None =>
          let layer_template := od_get prefix_to_template layer_prefix in
          let prefix := get_layer_name self in
          let scope := new_scope (Some prefix) layer_template in
          Ok ({| sc_prefix := sc_prefix self;
                 sc_last_layer_id := sc_last_layer_id self;
                 sc_last_old_layer_name := sc_last_old_layer_name self;
                 sc_template := sc_template self;
                 sc_index := sc_index self;
                 sc_sub_scopes := od_set (sc_sub_scopes self) layer_prefix scope |},
              layer_prefix, scope)
      end
  end.

(** The scope [self] after its child under [key] was changed in place. *)
Definition with_sub_scope (self : LayerNameScope) (key : string)
    (scope : LayerNameScope) : LayerNameScope :=
  {| sc_prefix := sc_prefix self;
     sc_last_layer_id := sc_last_layer_id self;
     sc_last_old_layer_name := sc_last_old_layer_name self;
     sc_template := sc_template self;
     sc_index := sc_index self;
     sc_sub_scopes := od_set (sc_sub_scopes self) key scope |}.

Record LayerReNamingManager : Type := mkManager {
  top_layer_name_scope : LayerNameScope }.

(** [LayerReNamingManager.__init__] *)
Definition new_manager : LayerReNamingManager :=
  {| top_layer_name_scope := new_scope None None |}.

Definition extract_layer_names (full_layer_name : string) : list string :=
  [full_layer_name].

(** The loop of [get_new_layer_name], lines 130-132: [name_scope] walks down
    the tree, and every scope on the way is changed in place. *)
Fixpoint walk_scopes (name_scope : LayerNameScope) (layer_id : string)
    (layers : list string) : outcome (LayerNameScope * string) :=
  match layers with
  | [] => Ok (name_scope, get_layer_name name_scope)
  | l :: layers' =>
      r <- get_sub_scope name_scope l ;;
      let '(self, key, scope) := r in
      let scope := get_next_scope scope layer_id l in
      r' <- walk_scopes scope layer_id layers' ;;
      Ok (with_sub_scope self key r'.1, r'.2)
  end.

(** [get_new_layer_name], lines 127-132. *)
Definition get_new_layer_name (mgr : LayerReNamingManager) (layer_id old_name : string)
  : outcome (LayerReNamingManager * string) :=
  let layers := extract_layer_names old_name in
  r <- walk_scopes (top_layer_name_scope mgr) layer_id layers ;;
  Ok ({| top_layer_name_scope := r.1 |}, r.2).

(** [get_new_param_name], lines 134-138. *)
Definition get_new_param_name (mgr : LayerReNamingManager) (layer_id old_name : string)
  : outcome (LayerReNamingManager * string) :=
  let names := split "." old_name in
  r <- get_new_layer_name mgr layer_id (hd "" names) ;;
  Ok (r.1, String.concat "." (r.2 :: tl names)).


(** ** Layers, segments and stages *)

Record PipeLinelayer : Type := mkLayer {
  layer_name : string;
  layer_params : list (string * string) }.

(** [PipeLinelayer.__init__], lines 177-183. *)
Definition new_layer (layer_name : string) (param_names : list (string * string))
  : PipeLinelayer :=
  let param_names := sorted (fun x y => String.leb x.2 y.2) param_names in
  {| layer_name := layer_name;
     layer_params := fold_left (fun params kv => od_set params kv.1 kv.2)
                               param_names [] |}.

Record PipeLineSegment : Type := mkSegment {
  seg_start_index : nat;
  seg_end_index : nat;
  seg_cur_index : nat;
  seg_layers : list (string * PipeLinelayer) }.

(** [PipeLineSegment.__init__] *)
Definition new_segment (start_index end_index : nat) : PipeLineSegment :=
  {| seg_start_index := start_index; seg_end_index := end_index;
     seg_cur_index := start_index; seg_layers := [] |}.

(** [PipeLineSegment.add_layer], lines 201-205. *)
Definition segment_add_layer (self : PipeLineSegment) (layer_name : string)
    (param_names : list (string * string)) : outcome PipeLineSegment :=
  _ <- assert (seg_cur_index self <? seg_end_index self) ;;
  let layer := new_layer layer_name param_names in
  Ok {| seg_start_index := seg_start_index self;
        seg_end_index := seg_end_index self;
        seg_cur_index := seg_cur_index self + 1;
        seg_layers := od_set (seg_layers self) layer_name layer |}.

(** The property [PipeLineSegment.layers], lines 207-210. *)
Definition segment_layers_of (self : PipeLineSegment)
  : outcome (list (string * PipeLinelayer)) :=
  _ <- assert (seg_cur_index self =? seg_end_index self) ;;
  Ok (seg_layers self).

(** A stage holds its segment objects in [st_objects]; [_segments] and
    [_layer_to_segment] refer to them by position, so that a layer added
    through [_layer_to_segment] is seen through [_segments]. *)
Record PipeLineStage : Type := mkStage {
  st_rename_mgr : LayerReNamingManager;
  st_objects : list PipeLineSegment;
  st_segments : list (nat * nat);
  st_layer_to_segment : gmap Z nat;
  st_param_to_tname : gmap string (string * string) }.

(** [PipeLineStage.__init__] *)
Definition new_stage : PipeLineStage :=
  {| st_rename_mgr := new_manager; st_objects := []; st_segments := [];
     st_layer_to_segment := ∅; st_param_to_tname := ∅ |}.

(** [PipeLineStage.add_segment], lines 221-225. *)
Definition add_segment (self : PipeLineStage) (start_index end_index : nat)
  : PipeLineStage :=
  let segment := length (st_objects self) in
  {| st_rename_mgr := st_rename_mgr self;
     st_objects := st_objects self ++ [new_segment start_index end_index];
     st_segments := od_set (st_segments self) start_index segment;
     st_layer_to_segment :=
       fold_left (fun m i => <[Z.of_nat i := segment]> m)
                 (range start_index end_index) (st_layer_to_segment self);
     st_param_to_tname := st_param_to_tname self |}.

(** [PipeLineStage.add_layer], lines 227-230. *)
Definition add_layer (self : PipeLineStage) (layer_index : Z) (layer_name : string)
    (param_names : list (string * string)) : outcome PipeLineStage :=
  match st_layer_to_segment self !! layer_index with
  | None => Raise (AssertionError "")
  | Some segment =>
      object <- list_get (st_objects self) segment ;;
      object <- segment_add_layer object layer_name param_names ;;
      objects <- list_set (st_objects self) segment object ;;
      Ok {| st_rename_mgr := st_rename_mgr self;
            st_objects := objects;
            st_segments := st_segments self;
            st_layer_to_segment := st_layer_to_segment self;
            st_param_to_tname := st_param_to_tname self |}
  end.

(** The body of the innermost loop of [build_name_mapping], lines 235-240;
    the state is the renaming manager and [_param_to_tname]. *)
Definition name_param (layer_name : string)
    (s : LayerReNamingManager * gmap string (string * string))
    (param : string * string)
  : outcome (LayerReNamingManager * gmap string (string * string)) :=
  let '(param_name, tensor_name) := param in
  r <- get_new_param_name s.1 layer_name tensor_name ;;
  Ok (r.1, <[param_name := (tensor_name, r.2)]> s.2).

Definition name_layer
    (s : LayerReNamingManager * gmap string (string * string))
    (item : string * PipeLinelayer)
  : outcome (LayerReNamingManager * gmap string (string * string)) :=
  for_each (name_param (layer_name item.2)) (layer_params item.2) s.

Definition name_segment (objects : list PipeLineSegment)
    (s : LayerReNamingManager * gmap string (string * string))
    (item : nat * nat)
  : outcome (LayerReNamingManager * gmap string (string * string)) :=
  segment <- list_get objects item.2 ;;
  layers <- segment_layers_of segment ;;
  for_each name_layer layers s.

(** [PipeLineStage.build_name_mapping], lines 232-240. *)
Definition build_name_mapping (self : PipeLineStage) : outcome PipeLineStage :=
  s <- for_each (name_segment (st_objects self)) (st_segments self)
                (st_rename_mgr self, st_param_to_tname self) ;;
  Ok {| st_rename_mgr := s.1;
        st_objects := st_objects self;
        st_segments := st_segments self;
        st_layer_to_segment := st_layer_to_segment self;
        st_param_to_tname := s.2 |}.

(** [PipeLineStage.map_name], lines 242-246.  The stage is returned with the
    result: the call leaves it as it was. *)
Definition stage_map_name (self : PipeLineStage) (param_name t_name : string)
  : outcome string * PipeLineStage :=
  (match st_param_to_tname self !! param_name with
   | None => Raise (AssertionError "")
   | Some (tensor_name, n_name) =>
       _ <- assert (String.eqb tensor_name t_name) ;;
       Ok n_name
   end, self).

(** ** The segment context ([PipeLineSegmentContext]) *)

Record PipeLineSegmentContext : Type := mkContext {
  ctx_transformer_layer_num : option Z;
  ctx_pp_degree : nat;
  ctx_vpp_degree : nat;
  ctx_segment_method : string;
  ctx_layers : list string;
  ctx_stages : list PipeLineStage;
  ctx_layer_index_to_stage : gmap Z nat;
  ctx_layer_name_to_index : gmap string Z;
  ctx_layer_index_to_name : gmap Z string;
  ctx_layer_name_to_stage : gmap string nat;
  ctx_param_names_by_layer : list (string * list (string * string)) }.

(** The property [transformer_layer_num], lines 300-308. *)
Definition transformer_layer_num (_transformer_layer_num : option Z)
    (param_names_by_layer : list (string * list (string * string))) : outcome Z :=
  let len := Z.of_nat (length param_names_by_layer) in
  match _transformer_layer_num with
  | Some n =>
      if negb (n =? 0)%Z && (0 <? n)%Z then
        _ <- assert (len =? n + 3)%Z ;; Ok n
      else Ok (len - 3)%Z
  | None => Ok (len - 3)%Z
  end.

(** [_index_layers], lines 294-298; the state is
    [(_layer_name_to_index, _layer_index_to_name)]. *)
Definition _index_layers (_transformer_layer_num : option Z)
    (param_names_by_layer : list (string * list (string * string)))
  : outcome (gmap string Z * gmap Z string) :=
  for_each (fun maps layer_name =>
      n <- transformer_layer_num _transformer_layer_num param_names_by_layer ;;
      index <- index_layer layer_name (Some n) ;;
      Ok (<[layer_name := index]> maps.1, <[index := layer_name]> maps.2))
    (map fst param_names_by_layer) (∅, ∅).

(** [_segment], lines 310-352.  [layer_num] is the number of layers of the
    catalogue or a declared count plus three, never negative. *)
Definition _segment (_transformer_layer_num : option Z)
    (pp_degree vpp_degree : nat) (segment_method : string)
    (param_names_by_layer : list (string * list (string * string)))
  : outcome (list (list (nat * nat))) :=
  n <- transformer_layer_num _transformer_layer_num param_names_by_layer ;;
  let layer_num := Z.to_nat (n + 3) in
  plan_segments layer_num pp_degree vpp_degree segment_method.

(** The part of the context that the loop of lines 278-289 changes while it
    fills one stage. *)
Record filling : Type := mkFilling {
  fl_stage : PipeLineStage;
  fl_layer_index_to_stage : gmap Z nat;
  fl_layer_name_to_stage : gmap string nat }.

(** Lines 283-289, for one ordinal [j] of a segment of stage [i]. *)
Definition place_layer (layer_index_to_name : gmap Z string)
    (param_names_by_layer : list (string * list (string * string)))
    (i : nat) (f : filling) (j : nat) : outcome filling :=
  match layer_index_to_name !! Z.of_nat j with
  | None => Raise (AssertionError "")
  | Some layer_name =>
      match od_get param_names_by_layer layer_name with
      | None => Raise (AssertionError "")
      | Some param_names =>
          pipe_stage <- add_layer (fl_stage f) (Z.of_nat j) layer_name param_names ;;
          Ok {| fl_stage := pipe_stage;
                fl_layer_index_to_stage :=
                  <[Z.of_nat j := i]> (fl_layer_index_to_stage f);
                fl_layer_name_to_stage :=
                  <[layer_name := i]> (fl_layer_name_to_stage f) |}
      end
  end.

(** Lines 281-289, for one segment of stage [i]. *)
Definition place_segment (layer_index_to_name : gmap Z string)
    (param_names_by_layer : list (string * list (string * string)))
    (i : nat) (f : filling) (seg : nat * nat) : outcome filling :=
  let f := {| fl_stage := add_segment (fl_stage f) seg.1 seg.2;
              fl_layer_index_to_stage := fl_layer_index_to_stage f;
              fl_layer_name_to_stage := fl_layer_name_to_stage f |} in
  for_each (place_layer layer_index_to_name param_names_by_layer i)
           (range seg.1 seg.2) f.

(** Lines 278-289, for stage [i]: the state is the list of stages built so
    far with the two stage tables.  The new stage joins the list when it is
    filled; an exception on the way leaves no context at all. *)
Definition place_stage (layer_index_to_name : gmap Z string)
    (param_names_by_layer : list (string * list (string * string)))
    (s : list PipeLineStage * gmap Z nat * gmap string nat)
    (item : nat * list (nat * nat))
  : outcome (list PipeLineStage * gmap Z nat * gmap string nat) :=
  let '(stages, layer_index_to_stage, layer_name_to_stage) := s in
  let '(i, stage_seg) := item in
  f <- for_each (place_segment layer_index_to_name param_names_by_layer i) stage_seg
         {| fl_stage := new_stage;
            fl_layer_index_to_stage := layer_index_to_stage;
            fl_layer_name_to_stage := layer_name_to_stage |} ;;
  Ok (stages ++ [fl_stage f], fl_layer_index_to_stage f, fl_layer_name_to_stage f).

(** [for stage in self._stages: stage.build_name_mapping()] *)
Fixpoint build_all (stages : list PipeLineStage) : outcome (list PipeLineStage) :=
  match stages with
  | [] => Ok []
  | stage :: stages' =>
      stage <- build_name_mapping stage ;;
      stages' <- build_all stages' ;;
      Ok (stage :: stages')
  end.

(** [PipeLineSegmentContext.__init__], lines 255-292. *)
Definition new_context (_transformer_layer_num : option Z)
    (pp_degree vpp_degree : nat) (segment_method : string)
    (param_names_by_layer : list (string * list (string * string)))
  : outcome PipeLineSegmentContext :=
  maps <- _index_layers _transformer_layer_num param_names_by_layer ;;
  stage_segments <- _segment _transformer_layer_num pp_degree vpp_degree
                             segment_method param_names_by_layer ;;
  s <- for_each (place_stage maps.2 param_names_by_layer)
                (enumerate stage_segments) ([], ∅, ∅) ;;
  stages <- build_all s.1.1 ;;
  Ok {| ctx_transformer_layer_num := _transformer_layer_num;
        ctx_pp_degree := pp_degree;
        ctx_vpp_degree := vpp_degree;
        ctx_segment_method := segment_method;
        ctx_layers := map fst param_names_by_layer;
        ctx_stages := stages;
        ctx_layer_index_to_stage := s.1.2;
        ctx_layer_name_to_index := maps.1;
        ctx_layer_index_to_name := maps.2;
        ctx_layer_name_to_stage := s.2;
        ctx_param_names_by_layer := param_names_by_layer |}.

(** The lookup shared by [map_name], [map_name_to_stage] and
    [segment_layers]: the ordinal of a layer name and the stage that owns it. *)
Definition lookup_stage (self : PipeLineSegmentContext) (layer_name : option string)
  : outcome (Z * nat) :=
  match layer_name ≫= (ctx_layer_name_to_index self !!.) with
  | None => Raise (AssertionError "")
  | Some layer_index =>
      match ctx_layer_index_to_stage self !! layer_index with
      | None => Raise KeyError
      | Some stage_index => Ok (layer_index, stage_index)
      end
  end.

(** [PipeLineSegmentContext.map_name], lines 354-360. *)
Definition map_name (self : PipeLineSegmentContext) (param_name t_name : string)
  : outcome string :=
  let layer_name := extract_layer_name param_name in
  r <- lookup_stage self layer_name ;;
  stage <- list_get (ctx_stages self) r.2 ;;
  (stage_map_name stage param_name t_name).1.

(** [map_name_to_stage], lines 362-367. *)
Definition map_name_to_stage (self : PipeLineSegmentContext) (name : string)
  : outcome nat :=
  let layer_name := extract_layer_name name in
  r <- lookup_stage self layer_name ;;
  Ok r.2.

(** The order of the tuples [(layer_index, layer_name)]. *)
Definition tuple_le (x y : Z * string) : bool :=
  (x.1 <? y.1)%Z || ((x.1 =? y.1)%Z && String.leb x.2 y.2).

(** [segment_layers], lines 377-385. *)
Definition segment_layers (self : PipeLineSegmentContext) (layer_names : list string)
  : outcome (list (list string)) :=
  layer_segments <-
    for_each (fun layer_segments layer_name =>
        r <- lookup_stage self (Some layer_name) ;;
        bucket <- list_get layer_segments r.2 ;;
        list_set layer_segments r.2 (bucket ++ [(r.1, layer_name)]))
      layer_names (replicate (ctx_pp_degree self) []) ;;
  Ok (map (fun e => map snd (sorted tuple_le e)) layer_segments).


(** ** Notions used in the statements *)

(** The boundary that the uniform policy gives to position [i]: [i] parts of
    the base size, and one more unit for every part beyond the first
    [stage_num - layer_num mod stage_num]. *)
Definition uniform_bound (layer_num stage_num i : nat) : nat :=
  i * (layer_num / stage_num) + (i - (stage_num - layer_num mod stage_num)).

(** The ordinals of a list of ranges, and of the segments of all stages. *)
Definition ordinals_of (segs : list (nat * nat)) : list nat :=
  concat (map (fun seg => range seg.1 seg.2) segs).

Definition all_ordinals (stage_segments : list (list (nat * nat))) : list nat :=
  ordinals_of (concat stage_segments).

(** The range with index [i] of a list of boundaries. *)
Definition nth_range (result : list nat) (i : nat) : nat * nat :=
  (nth i result 0, nth (i + 1) result 0).

(** The indices of the ranges dealt to stage [k]. *)
Definition dealt_to (pp_degree stage_num k : nat) : list nat :=
  filter (fun i => i mod pp_degree = k) (seq 0 stage_num).

(** The weight of ordinal [i] under the by-layer-weight policy: nothing for
    the first ordinal and for the last two, one for the ordinals between. *)
Definition ordinal_weight (layer_num i : nat) : nat :=
  if decide (i = 0 ∨ i = layer_num - 2 ∨ i = layer_num - 1) then 0 else 1.

(** The boundaries cut by a walk over the weights: the weight accumulates
    from [memory_counter]; each time it equals [part_size] the boundary
    after the current ordinal is cut and the accumulation starts again. *)
Fixpoint cut_points (part_size memory_counter idx : nat) (weights : list nat)
  : list nat :=
  match weights with
  | [] => []
  | weight :: weights' =>
      if memory_counter + weight =? part_size
      then (idx + 1) :: cut_points part_size 0 (idx + 1) weights'
      else cut_points part_size (memory_counter + weight) (idx + 1) weights'
  end.

(** The boundaries of the by-layer-weight policy when the cuts fit: [0], the
    cuts, zeros up to position [stage_num], and [layer_num] forced at
    position [stage_num]. *)
Definition by_layer_bounds (layer_num stage_num : nat) : list nat :=
  let weights := map (ordinal_weight layer_num) (seq 0 layer_num) in
  let cuts := cut_points (sum_list weights / stage_num) 0 0 weights in
  <[stage_num := layer_num]> (0 :: cuts ++ replicate (stage_num - length cuts) 0).

(** The number of cuts of the by-layer-weight policy. *)
Definition by_layer_cuts (layer_num stage_num : nat) : nat :=
  let weights := map (ordinal_weight layer_num) (seq 0 layer_num) in
  length (cut_points (sum_list weights / stage_num) 0 0 weights).

(** The accumulated weight at the end of the walk of [cut_points]. *)
Fixpoint final_counter (part_size memory_counter : nat) (weights : list nat) : nat :=
  match weights with
  | [] => memory_counter
  | weight :: weights' =>
      if memory_counter + weight =? part_size
      then final_counter part_size 0 weights'
      else final_counter part_size (memory_counter + weight) weights'
  end.

(** A renaming pass: the names of the list are presented one after the
    other, as [(layer_id, old_name)], to [get_new_param_name]; the result is
    the manager at the end and the new names in order. *)
Fixpoint rename_pass (mgr : LayerReNamingManager) (pass : list (string * string))
  : outcome (LayerReNamingManager * list string) :=
  match pass with
  | [] => Ok (mgr, [])
  | (layer_id, old_name) :: pass' =>
      r <- get_new_param_name mgr layer_id old_name ;;
      r' <- rename_pass r.1 pass' ;;
      Ok (r'.1, r.2 :: r'.2)
  end.

(** The first component of a dotted name, and the others. *)
Definition first_component (name : string) : string := hd "" (split "." name).
Definition sub_path (name : string) : list string := tl (split "." name).

(** The scope that holds the counter of a structural role. *)
Definition role_scope (mgr : LayerReNamingManager) (role : string)
  : option LayerNameScope :=
  od_get (sc_sub_scopes (top_layer_name_scope mgr)) role.

(** The parameters of a stage in the order in which [build_name_mapping]
    names them, as [(layer_name, param_name, tensor_name)]. *)
Definition presented_by_layer (layer : PipeLinelayer) : list (string * string * string) :=
  map (fun param => (layer_name layer, param.1, param.2)) (layer_params layer).

Definition presented_by_segment (segment : PipeLineSegment)
  : list (string * string * string) :=
  concat (map (fun item => presented_by_layer item.2) (seg_layers segment)).

Definition presented (stage : PipeLineStage) : list (string * string * string) :=
  concat (map (fun item =>
                 match st_objects stage !! item.2 with
                 | Some segment => presented_by_segment segment
                 | None => []
                 end) (st_segments stage)).

(** Every segment of the stage has received as many layers as it is wide. *)
Definition stage_ready (stage : PipeLineStage) : Prop :=
  Forall (fun item => ∃ segment, st_objects stage !! item.2 = Some segment ∧
                                 seg_cur_index segment = seg_end_index segment)
         (st_segments stage).

(** The table that a renaming pass records. *)
Definition record_names (table : gmap string (string * string))
    (params : list (string * string * string)) (names : list string)
  : gmap string (string * string) :=
  fold_left (fun table pn => <[pn.1.1.2 := (pn.1.2, pn.2)]> table)
            (zip params names) table.

(** The layer names of a model of [n] transformer blocks. *)
Definition block_name (k : nat) : string := "ernie.layers." +:+ str_nat k.

Definition layer_names (n : nat) : list string :=
  "ernie.embed_tokens" :: map block_name (seq 0 n) ++ ["ernie.norm"; "lm_head"].

(** The roles of the table [prefix_to_template]. *)
Definition known_role (role : string) : Prop := In role (map fst prefix_to_template).

(** The scopes of a manager reached from [new_manager]: the root has
    neither prefix nor template, and the scope of a role carries the
    template of the role below the empty name of the root. *)
Definition scope_wf (role : string) (scope : LayerNameScope) : Prop :=
  sc_prefix scope = Some "" ∧
  sc_template scope = od_get prefix_to_template role.

Definition manager_wf (mgr : LayerReNamingManager) : Prop :=
  sc_prefix (top_layer_name_scope mgr) = None ∧
  sc_template (top_layer_name_scope mgr) = None ∧
  ∀ role scope, role_scope mgr role = Some scope → known_role role ∧ scope_wf role scope.

(** The scope that receives the call for a role: the one the manager holds,
    or a fresh one. *)
Definition scope_for (mgr : LayerReNamingManager) (role : string) : LayerNameScope :=
  match role_scope mgr role with
  | Some scope => scope
  | None => new_scope (Some (get_layer_name (top_layer_name_scope mgr)))
                      (od_get prefix_to_template role)
  end.

(** One step of [build_name_mapping] on a parameter given with the name of
    its layer. *)
Definition name_presented
    (s : LayerReNamingManager * gmap string (string * string))
    (x : string * string * string)
  : outcome (LayerReNamingManager * gmap string (string * string)) :=
  name_param x.1.1 s (x.1.2, x.2).

(** What a renaming pass is given of a parameter: the name of its layer and
    its tensor name. *)
Definition renamer_input (x : string * string * string) : string * string :=
  (x.1.1, x.2).

(** The references of a stage to its segment objects are in range. *)
Definition stage_linked (stage : PipeLineStage) : Prop :=
  Forall (fun item => is_Some (st_objects stage !! item.2)) (st_segments stage).

(** The exceptions raised by the assertion of [get_sub_scope]. *)
Definition invalid_prefix_error (e : exn) : Prop :=
  ∃ sub_layer_name prefix, e = AssertionError (invalid_msg sub_layer_name prefix).

(** A catalogue with the layers of a model of [n] transformer blocks and no
    parameters. *)
Definition bare_catalogue (n : nat) : list (string * list (string * string)) :=
  map (fun name => (name, [])) (layer_names n).

(** ** Examples *)

(** A stage with one segment holding the embedding layer, before and after
    [build_name_mapping]. *)
Definition example_stage : PipeLineStage :=
  match add_layer (add_segment new_stage 0 1) 0 "ernie.embed_tokens"
                  [("ernie.embed_tokens.weight", "embedding_0.w_0")] with
  | Ok stage => stage
  | Raise _ => new_stage
  end.

Definition example_stage_named : PipeLineStage :=
  match build_name_mapping example_stage with
  | Ok stage => stage
  | Raise _ => example_stage
  end.

(** A pass that comes back to a linear layer after another one. *)
Definition example_pass : list (string * string) :=
  [ ("ernie.layers.0", "linear_1.w_0");
    ("ernie.layers.0", "linear_2.w_0");
    ("ernie.layers.0", "linear_1.b_0") ].

(** A model without transformer blocks whose embedding layer has a tensor
    name without sub-path. *)
Definition example_undotted_catalogue : list (string * list (string * string)) :=
  [ ("ernie.embed_tokens",
     [ ("ernie.embed_tokens.a", "linear_1");
       ("ernie.embed_tokens.b", "linear_1-x.w_0");
       ("ernie.embed_tokens.c", "linear_1.w_0") ]);
    ("ernie.norm", [("ernie.norm.weight", "layer_norm_0.w_0")]);
    ("lm_head", [("lm_head.weight", "linear_9.w_0")]) ].

(** The ordinal that [index_layer] gives to a layer name in a model of [n]
    transformer layers ([0] where [index_layer] raises). *)
Definition ordinal (n : Z) (layer_name : string) : Z :=
  match index_layer layer_name (Some n) with
  | Ok index => index
  | Raise _ => 0%Z
  end.

(** The two tables that [_index_layers] fills from the layer names [keys]. *)
Definition name_to_index_of (n : Z) (keys : list string) : gmap string Z :=
  fold_left (fun m layer_name => <[layer_name := ordinal n layer_name]> m) keys ∅.

Definition index_to_name_of (n : Z) (keys : list string) : gmap Z string :=
  fold_left (fun m layer_name => <[ordinal n layer_name := layer_name]> m) keys ∅.

(** The stages of a table from ordinals to stages are below [bound]. *)
Definition owners_below (bound : nat) (m : gmap Z nat) : Prop :=
  ∀ z i, m !! z = Some i → i < bound.

(** The tuple that [segment_layers] files for a layer name. *)
Definition layer_tuple (self : PipeLineSegmentContext) (layer_name : string)
  : Z * string :=
  match lookup_stage self (Some layer_name) with
  | Ok r => (r.1, layer_name)
  | Raise _ => (0%Z, layer_name)
  end.

(** The boundaries computed by the policy of the context. *)
Definition policy_bounds (layer_num stage_num : nat) (segment_method : string)
  : outcome (list nat) :=
  if String.eqb segment_method "uniform"
  then segment_uniform layer_num stage_num
  else segment_by_layer layer_num stage_num.

(** A model of two transformer blocks. *)
Definition example_catalogue : list (string * list (string * string)) :=
  [ ("ernie.embed_tokens", [("ernie.embed_tokens.weight", "embedding_0.w_0")]);
    ("ernie.layers.0",
     [ ("ernie.layers.0.self_attn.q_proj.weight", "linear_0.w_0");
       ("ernie.layers.0.self_attn.q_proj.bias", "linear_0.b_0");
       ("ernie.layers.0.input_layernorm.weight", "layer_norm_0.w_0") ]);
    ("ernie.layers.1",
     [ ("ernie.layers.1.self_attn.q_proj.weight", "linear_1.w_0");
       ("ernie.layers.1.self_attn.q_proj.bias", "linear_1.b_0");
       ("ernie.layers.1.input_layernorm.weight", "layer_norm_1.w_0") ]);
    ("ernie.norm", [("ernie.norm.weight", "layer_norm_2.w_0")]);
    ("lm_head", [("lm_head.weight", "ernie_lm_head_0.w_0")]) ].

(** The same model as another source sharding lists it. *)
Definition example_catalogue_reordered : list (string * list (string * string)) :=
  [ ("lm_head", [("lm_head.weight", "ernie_lm_head_0.w_0")]);
    ("ernie.layers.1",
     [ ("ernie.layers.1.input_layernorm.weight", "layer_norm_1.w_0");
       ("ernie.layers.1.self_attn.q_proj.bias", "linear_1.b_0");
       ("ernie.layers.1.self_attn.q_proj.weight", "linear_1.w_0") ]);
    ("ernie.embed_tokens", [("ernie.embed_tokens.weight", "embedding_0.w_0")]);
    ("ernie.norm", [("ernie.norm.weight", "layer_norm_2.w_0")]);
    ("ernie.layers.0",
     [ ("ernie.layers.0.input_layernorm.weight", "layer_norm_0.w_0");
       ("ernie.layers.0.self_attn.q_proj.weight", "linear_0.w_0");
       ("ernie.layers.0.self_attn.q_proj.bias", "linear_0.b_0") ]) ].

(** ** Comparing the contexts built from two catalogues *)

Definition outcome_map {A B : Type} (f : A → B) (o : outcome A) : outcome B :=
  match o with
  | Ok a => Ok (f a)
  | Raise e => Raise e
  end.

(** The layer that a catalogue gives for the name of a layer. *)
Definition relayer (param_names_by_layer : list (string * list (string * string)))
    (layer : PipeLinelayer) : PipeLinelayer :=
  match od_get param_names_by_layer (layer_name layer) with
  | Some param_names => new_layer (layer_name layer) param_names
  | None => layer
  end.

(** A segment, a stage and a stage under construction with their layers
    replaced. *)
Definition segment_map (g : PipeLinelayer → PipeLinelayer) (segment : PipeLineSegment)
  : PipeLineSegment :=
  {| seg_start_index := seg_start_index segment;
     seg_end_index := seg_end_index segment;
     seg_cur_index := seg_cur_index segment;
     seg_layers := map (fun item => (item.1, g item.2)) (seg_layers segment) |}.

Definition stage_map (g : PipeLinelayer → PipeLinelayer) (stage : PipeLineStage)
  : PipeLineStage :=
  {| st_rename_mgr := st_rename_mgr stage;
     st_objects := map (segment_map g) (st_objects stage);
     st_segments := st_segments stage;
     st_layer_to_segment := st_layer_to_segment stage;
     st_param_to_tname := st_param_to_tname stage |}.

Definition filling_map (g : PipeLinelayer → PipeLinelayer) (f : filling) : filling :=
  {| fl_stage := stage_map g (fl_stage f);
     fl_layer_index_to_stage := fl_layer_index_to_stage f;
     fl_layer_name_to_stage := fl_layer_name_to_stage f |}.

(** The layers of a stage were made from the entries of a catalogue. *)
Definition layer_from (param_names_by_layer : list (string * list (string * string)))
    (layer : PipeLinelayer) : Prop :=
  ∃ param_names,
    od_get param_names_by_layer (layer_name layer) = Some param_names ∧
    layer = new_layer (layer_name layer) param_names.

Definition stage_from (param_names_by_layer : list (string * list (string * string)))
    (stage : PipeLineStage) : Prop :=
  Forall (fun segment =>
            Forall (fun item => layer_from param_names_by_layer item.2)
                   (seg_layers segment))
         (st_objects stage).

(** Two catalogues list the same parameters: the same layers, and in each
    layer the same pairs of raw name and tensor name, each raw name once. *)
Definition same_parameters
    (cat1 cat2 : list (string * list (string * string))) : Prop :=
  map fst cat1 ≡ₚ map fst cat2 ∧
  ∀ layer param_names1 param_names2,
    od_get cat1 layer = Some param_names1 →
    od_get cat2 layer = Some param_names2 →
    param_names1 ≡ₚ param_names2 ∧ NoDup (map fst param_names1).

(** A model without transformer blocks in which the raw name
    [ernie.embed_tokens.weight] is listed with two tensor names, as two
    source shardings list it. *)
Definition example_shared_catalogue : list (string * list (string * string)) :=
  [ ("ernie.embed_tokens",
     [ ("ernie.embed_tokens.weight", "linear_5.w_0");
       ("ernie.embed_tokens.bias", "linear_5.w_0");
       ("ernie.embed_tokens.weight", "linear_7.w_0") ]);
    ("ernie.norm", [("ernie.norm.weight", "layer_norm_0.w_0")]);
    ("lm_head", [("lm_head.weight", "ernie_lm_head_0.w_0")]) ].

Definition example_shared_catalogue_reordered
  : list (string * list (string * string)) :=
  [ ("ernie.embed_tokens",
     [ ("ernie.embed_tokens.bias", "linear_5.w_0");
       ("ernie.embed_tokens.weight", "linear_5.w_0");
       ("ernie.embed_tokens.weight", "linear_7.w_0") ]);
    ("ernie.norm", [("ernie.norm.weight", "layer_norm_0.w_0")]);
    ("lm_head", [("lm_head.weight", "ernie_lm_head_0.w_0")]) ].

(** ** The other entry points of the module *)

(** [LayerNameScope.create_sub_scope], lines 78-83. *)
Definition create_sub_scope (prefix : option string) (old_layer_name : string)
  : option LayerNameScope :=
  (fun kv => new_scope prefix (Some kv.2))
    <$> List.find (fun kv => startswith old_layer_name kv.1) prefix_to_template.

(** The metadata of a checkpoint, as far as [extract_param_names_groupby_layer]
    reads it: a field is [None] when the dictionary has no such key.
    [structure_name_mapping] is read in its insertion order. *)
Record ShardingMeta : Type := mkShardingMeta {
  structure_name_mapping : option (list (string * string)) }.

Record ParallelConfig : Type := mkParallelConfig {
  pc_pp_degree : option Z }.

Record Meta : Type := mkMeta {
  parallel_config : option ParallelConfig;
  sharding_metas : option (gmap string ShardingMeta) }.

(** The format [{:0>2d}]: the decimal numeral, filled with zeros on the left
    up to two characters. *)
Definition pad2 (i : Z) : string :=
  let s := str_int i in
  if String.length s <? 2 then "0" +:+ s else s.

(** The key of a rank in [sharding_metas], line 35. *)
Definition rank_suffix (mp_rank : Z) (pp_rank : nat) : string :=
  "tp" +:+ pad2 mp_rank +:+ "_pp" +:+ pad2 (Z.of_nat pp_rank).

(** Lines 40-43, for one item [(k, v)] of a name mapping.  The key of a
    group is the result of [extract_layer_name], [None] included. *)
Definition group_param (param_names_by_layer : list (option string * list (string * string)))
    (kv : string * string) : list (option string * list (string * string)) :=
  let layer_name := extract_layer_name kv.1 in
  let param_names_by_layer :=
    match od_get param_names_by_layer layer_name with
    | None => od_set param_names_by_layer layer_name []
    | Some _ => param_names_by_layer
    end in
  match od_get param_names_by_layer layer_name with
  | Some group => od_set param_names_by_layer layer_name (group ++ [kv])
  | None => param_names_by_layer
  end.

(** [extract_param_names_groupby_layer], lines 24-44. *)
Definition extract_param_names_groupby_layer (meta : Meta) (mp_rank : Z)
  : outcome (list (option string * list (string * string))) :=
  match parallel_config meta with
  | None => Raise (AssertionError "")
  | Some parallel_config =>
      match pc_pp_degree parallel_config with
      | None => Raise (AssertionError "")
      | Some pp_degree =>
          match sharding_metas meta with
          | None => Raise KeyError
          | Some sharding_metas =>
              for_each (fun param_names_by_layer pp_rank =>
                  let suffix := rank_suffix mp_rank pp_rank in
                  match sharding_metas !! suffix with
                  | None => Raise (AssertionError "")
                  | Some sharding_meta =>
                      match structure_name_mapping sharding_meta with
                      | None => Raise (AssertionError "")
                      | Some name_mapping =>
                          Ok (fold_left group_param name_mapping param_names_by_layer)
                      end
                  end)
                (seq 0 (Z.to_nat pp_degree)) []
          end
      end
  end.

(** The name mappings of the ranks [0 .. pp_degree - 1], one after the
    other, when the metadata has them all. *)
Definition all_name_mappings (meta : Meta) (mp_rank : Z) : option (list (string * string)) :=
  parallel_config ← parallel_config meta;
  pp_degree ← pc_pp_degree parallel_config;
  sharding_metas ← sharding_metas meta;
  mappings ← mapM (fun pp_rank =>
                     sharding_metas !! rank_suffix mp_rank pp_rank
                       ≫= structure_name_mapping)
                  (seq 0 (Z.to_nat pp_degree));
  Some (concat mappings).

(** The items of a name mapping whose structure name belongs to a layer. *)
Definition params_of_layer (layer_name : option string) (items : list (string * string))
  : list (string * string) :=
  filter (fun kv => extract_layer_name kv.1 = layer_name) items.

(** The layers added one after the other to a new segment. *)
Definition fill_segment (start_index end_index : nat)
    (layers : list (string * list (string * string))) : outcome PipeLineSegment :=
  for_each (fun segment layer => segment_add_layer segment layer.1 layer.2)
           layers (new_segment start_index end_index).

(** The two stage tables of a context under construction agree: a layer
    name has the stage of its ordinal, and only the names of
    [_layer_index_to_name] have a stage. *)
Definition tables_agree (layer_index_to_name : gmap Z string)
    (layer_index_to_stage : gmap Z nat) (layer_name_to_stage : gmap string nat) : Prop :=
  (∀ z name, layer_index_to_name !! z = Some name →
             layer_name_to_stage !! name = layer_index_to_stage !! z) ∧
  (∀ name, is_Some (layer_name_to_stage !! name) →
           ∃ z, layer_index_to_name !! z = Some name).

(** The layer of a parameter name is a layer of the catalogue. *)
Definition catalogued (param_names_by_layer : list (string * list (string * string)))
    (param_name : string) : bool :=
  match extract_layer_name param_name with
  | Some layer_name => bool_decide (layer_name ∈ map fst param_names_by_layer)
  | None => false
  end.

(** A string without ["."]: splitting it at the dots gives the string. *)
Definition dotless (s : string) : Prop := split "." s = [s].

(** The scopes that two managers hold for a role agree when the second
    manager was given the names made by the first: the counters and the
    layers seen last are the same, and the name seen last by the second is
    the name that the first has made. *)
Definition scopes_agree (role : string) (scope1 scope2 : option LayerNameScope) : Prop :=
  match scope1, scope2 with
  | None, None => True
  | Some scope1, Some scope2 =>
      sc_index scope1 = sc_index scope2 ∧
      sc_last_layer_id scope1 = sc_last_layer_id scope2 ∧
      sc_last_old_layer_name scope2 = role +:+ "_" +:+ str_int (sc_index scope1)
  | _, _ => False
  end.

Definition managers_agree (mgr1 mgr2 : LayerReNamingManager) : Prop :=
  manager_wf mgr1 ∧ manager_wf mgr2 ∧
  ∀ role, scopes_agree role (role_scope mgr1 role) (role_scope mgr2 role).

(** The ranges of a stage come one after the other: every range ends at or
    after its start, and at or before the start of the ranges after it. *)
Definition ascending_ranges (ranges : list (nat * nat)) : Prop :=
  Forall (fun r => r.1 ≤ r.2) ranges ∧
  StronglySorted (fun r r' => r.2 ≤ r'.1) ranges.

(** A stage holds the layer [name] of ordinal [j]: a segment that
    [_segments] refers to, which ends at or before [bound], has the layer as
    [PipeLinelayer] makes it from the entry of the catalogue. *)
Definition stage_holds (param_names_by_layer : list (string * list (string * string)))
    (stage : PipeLineStage) (bound j : nat) (name : string) : Prop :=
  ∃ item segment param_names,
    item ∈ st_segments stage ∧ st_objects stage !! item.2 = Some segment ∧
    item.1 ≤ j < seg_end_index segment ∧ seg_end_index segment ≤ bound ∧
    od_get param_names_by_layer name = Some param_names ∧
    od_get (seg_layers segment) name = Some (new_layer name param_names).

(** The state of the loop of lines 281-289 between two segments of stage
    [i]: the segments are full, the stage holds the layers that the table
    gives to [i], and the other entries of the table are those of [base]. *)
Definition filling_inv (param_names_by_layer : list (string * list (string * string)))
    (layer_index_to_name : gmap Z string) (base : gmap Z nat) (i bound : nat)
    (f : filling) : Prop :=
  stage_ready (fl_stage f) ∧
  (∀ z, fl_layer_index_to_stage f !! z = Some i →
        ∃ j name, z = Z.of_nat j ∧ layer_index_to_name !! z = Some name ∧
                  stage_holds param_names_by_layer (fl_stage f) bound j name) ∧
  (∀ z i', fl_layer_index_to_stage f !! z = Some i' → i' = i ∨ base !! z = Some i').

(** The state of the loop of lines 278-289 between two stages: every stage
    is full and holds the layers that the table gives to it. *)
Definition stages_inv (param_names_by_layer : list (string * list (string * string)))
    (layer_index_to_name : gmap Z string)
    (s : list PipeLineStage * gmap Z nat * gmap string nat) : Prop :=
  Forall stage_ready s.1.1 ∧
  owners_below (length s.1.1) s.1.2 ∧
  ∀ z i, s.1.2 !! z = Some i →
    ∃ stage j name bound,
      s.1.1 !! i = Some stage ∧ z = Z.of_nat j ∧
      layer_index_to_name !! z = Some name ∧
      stage_holds param_names_by_layer stage bound j name.

(** The cases in which the policy cuts [layer_num] ordinals into
    [stage_num] ranges that come one after the other: always for the
    uniform policy; for the other policy, when the transformer blocks are
    [part_size * stage_num] and at most [part_size - 1] more. *)
Definition policy_fits (layer_num stage_num : nat) (segment_method : string) : Prop :=
  segment_method = "uniform" ∨
  (3 ≤ layer_num ∧ 1 ≤ (layer_num - 3) / stage_num ∧
   (layer_num - 3) / ((layer_num - 3) / stage_num) = stage_num).

(** The metadata of a checkpoint of two pipeline ranks for the model of
    [example_catalogue]. *)
Definition example_meta : Meta :=
  {| parallel_config := Some {| pc_pp_degree := Some 2%Z |};
     sharding_metas := Some (list_to_map
       [ ("tp00_pp00",
          {| structure_name_mapping := Some
               [ ("ernie.embed_tokens.weight", "embedding_0.w_0");
                 ("ernie.layers.0.self_attn.q_proj.weight", "linear_0.w_0");
                 ("ernie.layers.0.self_attn.q_proj.bias", "linear_0.b_0");
                 ("ernie.layers.0.input_layernorm.weight", "layer_norm_0.w_0") ] |});
         ("tp00_pp01",
          {| structure_name_mapping := Some
               [ ("ernie.layers.1.self_attn.q_proj.weight", "linear_1.w_0");
                 ("ernie.layers.1.self_attn.q_proj.bias", "linear_1.b_0");
                 ("ernie.layers.1.input_layernorm.weight", "layer_norm_1.w_0");
                 ("ernie.norm.weight", "layer_norm_2.w_0");
                 ("lm_head.weight", "ernie_lm_head_0.w_0") ] |}) ]) |}.

(** Range [i] of a list of boundaries holds the ordinal [o]. *)
Definition range_holds (result : list nat) (i : nat) (o : Z) : Prop :=
  (Z.of_nat (nth i result 0%nat) ≤ o)%Z ∧ (o < Z.of_nat (nth (i + 1)%nat result 0%nat))%Z.

(** A name of ASCII characters only, as the layer classifier is modelled
    for: on such a name [\d] is the class of the ten ASCII digits. *)
Definition is_ascii (s : string) : Prop :=
  Forall (fun c => nat_of_ascii c < 128) (String.list_ascii_of_string s).

(** The longest decimal numeral that [int] reads. *)
Definition int_max_str_digits : nat := 4300.

(** What a presentation [(layer_id, old_name)] gives to the scope of its
    role: the layer and the first component of the name. *)
Definition presented_args (x : string * string) : string * string :=
  (x.1, first_component x.2).

Definition presented_role (x : string * string) : option string :=
  get_layer_prefix (first_component x.2).

(** The counter of a role in a manager, and the presentation that the scope
    of the role has seen last. *)
Definition index_of (mgr : LayerReNamingManager) (role : string) : Z :=
  sc_index (scope_for mgr role).

Definition last_of (mgr : LayerReNamingManager) (role : string) : string * string :=
  (sc_last_layer_id (scope_for mgr role), sc_last_old_layer_name (scope_for mgr role)).

(** A tensor name with a sub-path, such as [linear_1.w_0]. *)
Definition dotted (name : string) : Prop := sub_path name ≠ [].

(** The layers of a stage in the order in which [build_name_mapping] goes
    through them. *)
Definition stage_layers (stage : PipeLineStage) : list PipeLinelayer :=
  concat (map (fun item =>
                 match st_objects stage !! item.2 with
                 | Some segment => map snd (seg_layers segment)
                 | None => []
                 end) (st_segments stage)).

(** Every raw name of the catalogue is listed once in its layer, and under
    the layer that [extract_layer_name] finds in it. *)
Definition grouped (param_names_by_layer : list (string * list (string * string)))
  : Prop :=
  ∀ layer_name param_names,
    (layer_name, param_names) ∈ param_names_by_layer →
    NoDup (map fst param_names) ∧
    Forall (fun p => extract_layer_name p.1 = Some layer_name) param_names.

(** * Verification *)

(** ** Exceptions and loops *)

Lemma bind_ok {A B : Type} (m : outcome A) (k : A → outcome B) (b : B) :
  (x <- m ;; k x) = Ok b ↔ ∃ a, m = Ok a ∧ k a = Ok b.
Proof.
  destruct m as [a|e]; simpl; split.
  - eauto.
  - by intros (a' & [= ->] & ?).
  - done.
  - by intros (a' & ? & _).
Qed.

Lemma assert_ok (c : bool) (u : unit) : assert c = Ok u ↔ c = true.
Proof. destruct c, u; simpl; split; congruence. Qed.

Lemma for_each_app {A St : Type} (body : St → A → outcome St) (xs ys : list A) (s : St) :
  for_each body (xs ++ ys) s = (s' <- for_each body xs s ;; for_each body ys s').
Proof.
  revert s; induction xs as [|x xs IH]; intros s; simpl; [done|].
  destruct (body s x); simpl; auto.
Qed.

(** A loop over [a, a+1, ..., a+n-1] whose body keeps an invariant indexed
    by the loop counter runs to its end and establishes the invariant. *)
Lemma for_each_seq_total {St : Type} (P : nat → St → Prop)
    (body : St → nat → outcome St) (n a : nat) (s : St) :
  P a s →
  (∀ i t, a ≤ i < a + n → P i t → ∃ t', body t i = Ok t' ∧ P (i + 1) t') →
  ∃ s', for_each body (seq a n) s = Ok s' ∧ P (a + n) s'.
Proof.
  revert a s; induction n as [|n IH]; intros a s HP Hstep; simpl.
  - exists s. by rewrite Nat.add_0_r.
  - destruct (Hstep a s) as (t' & -> & HP'); [lia|done|]. simpl.
    destruct (IH (S a) t') as (s' & Hs' & HQ).
    + by replace (S a) with (a + 1) by lia.
    + intros i t Hi. apply Hstep. lia.
    + exists s'. split; [done|]. by replace (a + S n) with (S a + n) by lia.
Qed.

(** A loop whose body keeps an invariant establishes it whenever it ends
    without an exception. *)
Lemma for_each_invariant {A St : Type} (P : St → Prop)
    (body : St → A → outcome St) (xs : list A) (s s' : St) :
  P s →
  (∀ t x t', x ∈ xs → P t → body t x = Ok t' → P t') →
  for_each body xs s = Ok s' → P s'.
Proof.
  revert s; induction xs as [|x xs IH]; intros s HP Hstep; simpl.
  - by intros [= <-].
  - intros (t & Ht & Hrest)%bind_ok.
    eapply IH; [| |exact Hrest].
    + eapply Hstep; [|exact HP|exact Ht]. by left.
    + intros u y u' Hy. apply Hstep. by right.
Qed.

Lemma list_get_ok {A : Type} (l : list A) (i : nat) (x : A) :
  list_get l i = Ok x ↔ l !! i = Some x.
Proof. unfold list_get. destruct (l !! i); split; congruence. Qed.

Lemma list_set_ok {A : Type} (l l' : list A) (i : nat) (x : A) :
  list_set l i x = Ok l' ↔ i < length l ∧ l' = <[i := x]> l.
Proof.
  unfold list_set. case_decide; split.
  - by intros [= <-].
  - by intros [_ ->].
  - done.
  - intros [? _]. lia.
Qed.

Lemma list_set_lt {A : Type} (l : list A) (i : nat) (x : A) :
  i < length l → list_set l i x = Ok (<[i := x]> l).
Proof. intros. unfold list_set. by case_decide. Qed.

Lemma range_0 (n : nat) : range 0 n = seq 0 n.
Proof. unfold range. by rewrite Nat.sub_0_r. Qed.

(** ** The uniform policy *)

Section Uniform.
Variables (layer_num stage_num : nat).
Hypothesis stage_pos : 1 ≤ stage_num.

Let ub := uniform_bound layer_num stage_num.

Lemma uniform_bound_0 : ub 0 = 0.
Proof. unfold ub, uniform_bound. lia. Qed.

Lemma uniform_bound_last : ub stage_num = layer_num.
Proof.
  unfold ub, uniform_bound.
  pose proof (Nat.div_mod_eq layer_num stage_num).
  pose proof (Nat.mod_upper_bound layer_num stage_num). nia.
Qed.

Lemma uniform_bound_step (i : nat) :
  i < stage_num →
  ub (i + 1) =
    ub i + layer_num / stage_num
    + (if stage_num - layer_num mod stage_num <? i + 1 then 1 else 0).
Proof.
  intros Hi. unfold ub, uniform_bound.
  pose proof (Nat.mod_upper_bound layer_num stage_num).
  case_match eqn:E; [apply Nat.ltb_lt in E|apply Nat.ltb_ge in E]; nia.
Qed.

Lemma uniform_bound_mono (i j : nat) : i ≤ j → ub i ≤ ub j.
Proof. intros. unfold ub, uniform_bound. nia. Qed.

Lemma uniform_bound_le (i : nat) : i ≤ stage_num → ub i ≤ layer_num.
Proof. intros. rewrite <- uniform_bound_last. by apply uniform_bound_mono. Qed.

(** The boundaries computed by the code are those of [uniform_bound]. *)
Lemma segment_uniform_closed :
  segment_uniform layer_num stage_num = Ok (map ub (seq 0 (stage_num + 1))).
Proof.
  unfold segment_uniform.
  destruct (stage_num =? 0) eqn:E; [apply Nat.eqb_eq in E; lia|clear E].
  set (body := fun result i => _).
  destruct (for_each_seq_total
    (fun i result => length result = stage_num + 1 ∧
                     ∀ j, j < i → result !! j = Some (ub j))
    body (stage_num - 1) 1 (replicate (stage_num + 1) 0))
    as (r & Hr & Hlen & Hlook).
  - split; [by rewrite length_replicate|].
    intros j Hj. assert (j = 0) as -> by lia.
    rewrite uniform_bound_0. apply lookup_replicate_2. lia.
  - intros i t Hi [Hlen Hlook]. unfold body.
    rewrite (proj2 (list_get_ok t (i - 1) (ub (i - 1)))) by (apply Hlook; lia).
    simpl. rewrite list_set_lt by lia. eexists; split; [done|].
    split; [by rewrite length_insert|].
    intros j Hj. destruct (decide (j = i)) as [->|].
    + rewrite list_lookup_insert_eq by lia. f_equal.
      pose proof (uniform_bound_le i ltac:(lia)) as Hle.
      pose proof (uniform_bound_step (i - 1) ltac:(lia)) as Hs.
      replace (i - 1 + 1) with i in Hs by lia.
      rewrite Hs in Hle |- *. by apply Nat.min_l.
    + rewrite list_lookup_insert_ne by lia. apply Hlook. lia.
  - unfold range. rewrite Hr. simpl. rewrite list_set_lt by lia. f_equal.
    apply list_eq. intros j.
    destruct (decide (j = stage_num)) as [->|].
    + rewrite list_lookup_insert_eq by lia.
      rewrite list_lookup_fmap, lookup_seq_lt by lia. simpl.
      by rewrite uniform_bound_last.
    + rewrite list_lookup_insert_ne by lia.
      destruct (decide (j < stage_num)).
      * rewrite Hlook by lia. rewrite list_lookup_fmap, lookup_seq_lt by lia. done.
      * rewrite !lookup_ge_None_2; [done| |lia].
        rewrite length_map, length_seq. lia.
Qed.
End Uniform.

(** ** Dealing the ranges to the stages *)

Lemma concat_perm {A : Type} (l l' : list (list A)) :
  l ≡ₚ l' → concat l ≡ₚ concat l'.
Proof.
  induction 1 as [|x l l' _ IH|x y l|l l' l'' _ IH1 _ IH2]; simpl.
  - done.
  - by rewrite IH.
  - rewrite !(assoc (++)). f_equiv. apply Permutation_app_comm.
  - by rewrite IH1.
Qed.

Lemma ordinals_of_perm (l l' : list (nat * nat)) :
  l ≡ₚ l' → ordinals_of l ≡ₚ ordinals_of l'.
Proof. intros H. unfold ordinals_of. apply concat_perm. by rewrite H. Qed.

Lemma concat_insert_snoc {A : Type} (segs : list (list A)) (k : nat)
    (bucket : list A) (x : A) :
  segs !! k = Some bucket →
  concat (<[k := bucket ++ [x]]> segs) ≡ₚ concat segs ++ [x].
Proof.
  revert k; induction segs as [|b segs IH]; intros k Hk; [done|].
  destruct k as [|k]; simpl in *.
  - injection Hk as ->. rewrite <- !(assoc (++)). f_equiv. apply Permutation_app_comm.
  - rewrite IH by done. by rewrite (assoc (++)).
Qed.

Lemma dealt_to_S (pp_degree n k : nat) :
  dealt_to pp_degree (S n) k =
  dealt_to pp_degree n k ++ (if decide (n mod pp_degree = k) then [n] else []).
Proof.
  unfold dealt_to. rewrite seq_S, filter_app. by f_equal.
Qed.

(** Range [i] goes to stage [i mod pp_degree]: stage [k] receives, in order,
    the ranges whose index is [k] modulo [pp_degree]; all stages together
    receive every range once. *)
Lemma deal_segments_closed (pp_degree stage_num : nat) (result : list nat) :
  1 ≤ pp_degree → stage_num < length result →
  ∃ segs, deal_segments pp_degree stage_num result = Ok segs ∧
    segs = map (fun k => map (nth_range result) (dealt_to pp_degree stage_num k))
               (seq 0 pp_degree) ∧
    concat segs ≡ₚ map (nth_range result) (seq 0 stage_num).
Proof.
  intros Hpp Hlen. unfold deal_segments. rewrite range_0.
  set (body := fun index_segments i => _).
  destruct (for_each_seq_total
    (fun i segs =>
       segs = map (fun k => map (nth_range result) (dealt_to pp_degree i k))
                  (seq 0 pp_degree) ∧
       concat segs ≡ₚ map (nth_range result) (seq 0 i))
    body stage_num 0 (replicate pp_degree [])) as (segs & Hrun & Hsegs).
  - split; simpl.
    + apply list_eq. intros k. destruct (decide (k < pp_degree)).
      * rewrite list_lookup_fmap, lookup_seq_lt by done.
        by rewrite lookup_replicate_2 by done.
      * rewrite !lookup_ge_None_2; [done| |].
        -- rewrite length_map, length_seq. lia.
        -- rewrite length_replicate. lia.
    + clear. induction pp_degree; simpl; auto.
  - intros i t Hi [Ht Hperm]. unfold body.
    destruct (pp_degree =? 0) eqn:E; [apply Nat.eqb_eq in E; lia|clear E].
    assert (i mod pp_degree < pp_degree) as Hmod by (apply Nat.mod_upper_bound; lia).
    assert (t !! (i mod pp_degree) =
            Some (map (nth_range result) (dealt_to pp_degree i (i mod pp_degree))))
      as Hbucket.
    { rewrite Ht, list_lookup_fmap, lookup_seq_lt by done. done. }
    rewrite (proj2 (list_get_ok _ _ _) Hbucket). simpl.
    destruct (nth_lookup_or_length result i 0) as [Hlo|]; [|lia].
    destruct (nth_lookup_or_length result (i + 1) 0) as [Hhi|]; [|lia].
    rewrite (proj2 (list_get_ok _ _ _) Hlo). simpl.
    rewrite (proj2 (list_get_ok _ _ _) Hhi). simpl.
    rewrite list_set_lt
      by (rewrite Ht, length_map, length_seq; done).
    eexists; split; [done|]. split.
    + apply list_eq. intros k.
      destruct (decide (k < pp_degree)).
      * rewrite list_lookup_fmap, lookup_seq_lt by done. simpl.
        replace (i + 1) with (S i) by lia. rewrite dealt_to_S.
        destruct (decide (k = i mod pp_degree)) as [->|].
        -- rewrite list_lookup_insert_eq
             by (rewrite Ht, length_map, length_seq; done).
           case_decide; [|done]. rewrite map_app. simpl. unfold nth_range.
           by replace (i + 1) with (S i) by lia.
        -- rewrite list_lookup_insert_ne by done.
           case_decide; [done|]. rewrite app_nil_r.
           rewrite Ht, list_lookup_fmap, lookup_seq_lt by done. done.
      * rewrite !lookup_ge_None_2; [done| |].
        -- rewrite length_map, length_seq. lia.
        -- rewrite length_insert, Ht, length_map, length_seq. lia.
    + rewrite concat_insert_snoc by done. rewrite Hperm.
      replace (seq 0 (i + 1)) with (seq 0 i ++ [i])
        by (by rewrite Nat.add_1_r, seq_S).
      by rewrite map_app.
  - exists segs. simpl in Hsegs. destruct Hsegs as [? ?]. done.
Qed.

(** Ranges that follow one another from [0] enumerate an initial segment of
    the ordinals. *)
Lemma ordinals_of_chain (result : list nat) (k : nat) :
  nth 0 result 0 = 0 →
  (∀ i, i < k → nth i result 0 ≤ nth (i + 1) result 0) →
  ordinals_of (map (nth_range result) (seq 0 k)) = seq 0 (nth k result 0).
Proof.
  intros H0 Hmono. induction k as [|k IH].
  - by rewrite H0.
  - rewrite seq_S, map_app. unfold ordinals_of in *.
    rewrite map_app, concat_app, IH by (intros; apply Hmono; lia).
    simpl. rewrite app_nil_r. unfold range.
    specialize (Hmono k ltac:(lia)).
    replace (k + 1) with (S k) in * by lia.
    replace (nth (S k) result 0)
      with (nth k result 0 + (nth (S k) result 0 - nth k result 0)) at 2 by lia.
    by rewrite seq_app.
Qed.

(** Boundaries that do not decrease from [0] to [layer_num] make the
    segments of all stages cover every ordinal below [layer_num] once. *)
Lemma deal_segments_partition (layer_num pp_degree stage_num : nat)
    (result : list nat) (segs : list (list (nat * nat))) :
  1 ≤ pp_degree → stage_num < length result →
  nth 0 result 0 = 0 → nth stage_num result 0 = layer_num →
  (∀ i, i < stage_num → nth i result 0 ≤ nth (i + 1) result 0) →
  deal_segments pp_degree stage_num result = Ok segs →
  all_ordinals segs ≡ₚ seq 0 layer_num.
Proof.
  intros Hpp Hlen H0 Hlast Hmono Hdeal.
  destruct (deal_segments_closed pp_degree stage_num result Hpp Hlen)
    as (segs' & Hrun & _ & Hperm).
  rewrite Hrun in Hdeal. injection Hdeal as <-.
  unfold all_ordinals. rewrite (ordinals_of_perm _ _ Hperm).
  rewrite ordinals_of_chain by done. by rewrite Hlast.
Qed.

Lemma nth_uniform_bound (layer_num stage_num i : nat) :
  i ≤ stage_num →
  nth i (map (uniform_bound layer_num stage_num) (seq 0 (stage_num + 1))) 0
  = uniform_bound layer_num stage_num i.
Proof.
  intros Hi. apply nth_lookup_Some.
  rewrite list_lookup_fmap, lookup_seq_lt by lia. done.
Qed.

Lemma plan_uniform_partition (layer_num pp_degree vpp_degree : nat) :
  1 ≤ pp_degree → 1 ≤ vpp_degree →
  ∃ segs, plan_segments layer_num pp_degree vpp_degree "uniform" = Ok segs ∧
          length segs = pp_degree ∧
          all_ordinals segs ≡ₚ seq 0 layer_num.
Proof.
  intros Hpp Hvpp. unfold plan_segments. simpl.
  assert (1 ≤ pp_degree * vpp_degree) as Hs by nia.
  rewrite segment_uniform_closed by done. simpl.
  set (b := map _ _).
  assert (pp_degree * vpp_degree < length b) as Hlen
    by (unfold b; rewrite length_map, length_seq; lia).
  destruct (deal_segments_closed pp_degree _ b Hpp Hlen) as (segs & Hrun & Hcl & _).
  exists segs. split; [done|]. split.
  - by rewrite Hcl, length_map, length_seq.
  - eapply (deal_segments_partition layer_num pp_degree (pp_degree * vpp_degree) b);
      [done|exact Hlen| | | |exact Hrun].
    + unfold b. rewrite nth_uniform_bound by lia. by apply uniform_bound_0.
    + unfold b. rewrite nth_uniform_bound by lia. by apply uniform_bound_last.
    + intros i Hi. unfold b. rewrite !nth_uniform_bound by lia.
      apply uniform_bound_mono; lia.
Qed.

(** ** The by-layer-weight policy *)

Lemma layer_weights_closed (layer_num : nat) :
  layer_weights layer_num = Ok (map (ordinal_weight layer_num) (seq 0 layer_num)).
Proof.
  unfold layer_weights, range.
  destruct (for_each_seq_total
    (fun i weights => length weights = layer_num ∧
       ∀ j, j < layer_num →
            weights !! j = Some (if decide (1 ≤ j < i) then 1 else 0))
    (fun weights i => list_set weights i 1)
    (layer_num - 2 - 1) 1 (replicate layer_num 0)) as (w & Hrun & Hlen & Hw).
  - split; [by rewrite length_replicate|].
    intros j Hj. rewrite lookup_replicate_2 by done.
    case_decide; [lia|done].
  - intros i t Hi [Hlen Ht]. rewrite list_set_lt by lia.
    eexists; split; [done|]. split; [by rewrite length_insert|].
    intros j Hj. destruct (decide (j = i)) as [->|].
    + rewrite list_lookup_insert_eq by lia. case_decide; [done|lia].
    + rewrite list_lookup_insert_ne, Ht by done.
      repeat case_decide; done || lia.
  - rewrite Hrun. f_equal. apply list_eq. intros j.
    destruct (decide (j < layer_num)).
    + rewrite Hw, list_lookup_fmap, lookup_seq_lt by done. simpl. f_equal.
      unfold ordinal_weight. repeat case_decide; done || lia.
    + rewrite !lookup_ge_None_2; [done| |lia].
      rewrite length_map, length_seq. lia.
Qed.

Lemma ordinal_weights_shape (n : nat) :
  map (ordinal_weight (n + 3)) (seq 0 (n + 3)) = 0 :: replicate n 1 ++ [0; 0].
Proof.
  apply list_eq. intros j. destruct (decide (j < n + 3)).
  - rewrite list_lookup_fmap, lookup_seq_lt by done. simpl.
    unfold ordinal_weight. destruct j as [|j]; simpl.
    + done.
    + destruct (decide (j < n)).
      * rewrite lookup_app_l by (rewrite length_replicate; lia).
        rewrite lookup_replicate_2 by done. try case_decide; done || lia.
      * rewrite lookup_app_r by (rewrite length_replicate; lia).
        rewrite length_replicate.
        destruct (j - n) as [|[|?]] eqn:E; simpl; try lia;
          (try case_decide; done || lia).
  - rewrite !lookup_ge_None_2; [done| |].
    + simpl. rewrite length_app, length_replicate. simpl. lia.
    + rewrite length_map, length_seq. lia.
Qed.

Lemma sum_ordinal_weights (layer_num : nat) :
  sum_list (map (ordinal_weight layer_num) (seq 0 layer_num)) = layer_num - 3.
Proof.
  destruct (decide (3 ≤ layer_num)) as [H|H].
  - replace layer_num with (layer_num - 3 + 3) at 1 2 by lia.
    rewrite ordinal_weights_shape. simpl.
    rewrite sum_list_with_app, sum_list_replicate. simpl. lia.
  - destruct layer_num as [|[|[|?]]]; try lia; reflexivity.
Qed.

Lemma length_enumerate_from {A : Type} (n : nat) (l : list A) :
  length (enumerate_from n l) = length l.
Proof. revert n; induction l; intros; simpl; auto. Qed.

(** The loop of lines 328-333 writes the cut points of the walk into
    [result] from position [result_idx] on, as long as they fit. *)
Lemma by_layer_loop_ok (part_size : nat) (weights : list nat) :
  ∀ idx result memory_counter result_idx,
    result_idx + length (cut_points part_size memory_counter idx weights)
      ≤ length result →
    ∃ memory_counter',
      for_each (by_layer_step part_size) (enumerate_from idx weights)
               (result, memory_counter, result_idx)
      = Ok (take result_idx result
              ++ cut_points part_size memory_counter idx weights
              ++ drop (result_idx
                       + length (cut_points part_size memory_counter idx weights))
                      result,
            memory_counter',
            result_idx + length (cut_points part_size memory_counter idx weights)).
Proof.
  induction weights as [|w ws IH]; intros idx res mc ridx Hfit; simpl in *.
  - exists mc. by rewrite Nat.add_0_r, take_drop.
  - destruct (mc + w =? part_size) eqn:E; simpl in *.
    + rewrite list_set_lt by lia. simpl.
      replace (S idx) with (idx + 1) by lia.
      destruct (IH (idx + 1) (<[ridx := idx + 1]> res) 0 (ridx + 1))
        as (mc' & ->); [rewrite length_insert; lia|].
      exists mc'.
      replace (ridx + 1 + length (cut_points part_size 0 (idx + 1) ws))
        with (ridx + S (length (cut_points part_size 0 (idx + 1) ws))) by lia.
      do 3 f_equal.
      rewrite drop_insert_lt by lia.
      replace (ridx + 1) with (S ridx) by lia.
      rewrite (take_S_r _ _ (idx + 1))
        by (apply list_lookup_insert_eq; lia).
      rewrite take_insert_ge by lia.
      by rewrite <- (assoc (++)).
    + replace (S idx) with (idx + 1) by lia.
      destruct (IH (idx + 1) res (mc + w) ridx) as (mc' & ->); [done|].
      by exists mc'.
Qed.

(** When the walk cuts more boundaries than [result] can take, the
    assignment of line 331 raises [IndexError]. *)
Lemma by_layer_loop_overflow (part_size : nat) (weights : list nat) :
  ∀ idx result memory_counter result_idx,
    length result
      < result_idx + length (cut_points part_size memory_counter idx weights) →
    result_idx ≤ length result →
    for_each (by_layer_step part_size) (enumerate_from idx weights)
             (result, memory_counter, result_idx)
    = Raise IndexError.
Proof.
  induction weights as [|w ws IH]; intros idx res mc ridx Hover Hle; simpl in *.
  - lia.
  - destruct (mc + w =? part_size) eqn:E; simpl in *.
    + unfold list_set. case_decide; simpl; [|done].
      replace (S idx) with (idx + 1) by lia.
      apply IH; rewrite length_insert; lia.
    + replace (S idx) with (idx + 1) by lia. by apply IH.
Qed.

(** The code against the walk described by the specification: the
    boundaries are those of [by_layer_bounds] when at most [stage_num]
    boundaries are cut, and the code raises [IndexError] otherwise. *)
Lemma segment_by_layer_closed (layer_num stage_num : nat) :
  1 ≤ stage_num →
  segment_by_layer layer_num stage_num =
    if decide (by_layer_cuts layer_num stage_num ≤ stage_num)
    then Ok (by_layer_bounds layer_num stage_num)
    else Raise IndexError.
Proof.
  intros Hs. unfold segment_by_layer, by_layer_cuts, by_layer_bounds.
  rewrite layer_weights_closed. simpl.
  destruct (stage_num =? 0) eqn:E; [apply Nat.eqb_eq in E; lia|clear E].
  set (ws := map _ _). set (p := sum_list ws / stage_num).
  unfold enumerate. case_decide as Hfit.
  - destruct (by_layer_loop_ok p ws 0 (replicate (stage_num + 1) 0) 0 1)
      as (mc & ->); [rewrite length_replicate; lia|]. simpl.
    rewrite list_set_lt; [f_equal|].
    + rewrite take_replicate, drop_replicate.
      replace (1 `min` (stage_num + 1)) with 1 by lia.
      replace (stage_num + 1 - S (length (cut_points p 0 0 ws)))
        with (stage_num - length (cut_points p 0 0 ws)) by lia.
      done.
    + rewrite length_app, length_take, length_app, length_drop, length_replicate.
      lia.
  - rewrite by_layer_loop_overflow; [done| |]; rewrite length_replicate; lia.
Qed.

Lemma cut_points_bounds (part_size : nat) (weights : list nat) :
  ∀ memory_counter idx c,
    c ∈ cut_points part_size memory_counter idx weights →
    idx < c ≤ idx + length weights.
Proof.
  induction weights as [|w ws IH]; intros mc idx c; simpl.
  - by intros ?%elem_of_nil.
  - destruct (mc + w =? part_size).
    + intros [->|Hc%IH]%elem_of_cons; lia.
    + intros Hc%IH. lia.
Qed.

Lemma cut_points_increasing (part_size : nat) (weights : list nat) :
  ∀ memory_counter idx i j,
    i < j < length (cut_points part_size memory_counter idx weights) →
    nth i (cut_points part_size memory_counter idx weights) 0
    < nth j (cut_points part_size memory_counter idx weights) 0.
Proof.
  induction weights as [|w ws IH]; intros mc idx i j; simpl; [lia|].
  destruct (mc + w =? part_size); [|by apply IH].
  simpl. intros Hij. destruct j as [|j]; [lia|].
  destruct i as [|i].
  - assert (nth j (cut_points part_size 0 (idx + 1) ws) 0
            ∈ cut_points part_size 0 (idx + 1) ws) as Hin%cut_points_bounds.
    { apply list_elem_of_In, nth_In. lia. }
    lia.
  - apply IH. lia.
Qed.

Lemma cut_points_app (part_size : nat) (l1 l2 : list nat) :
  ∀ memory_counter idx,
    cut_points part_size memory_counter idx (l1 ++ l2) =
    cut_points part_size memory_counter idx l1
    ++ cut_points part_size (final_counter part_size memory_counter l1)
                  (idx + length l1) l2.
Proof.
  induction l1 as [|w l1 IH]; intros mc idx; simpl.
  - by rewrite Nat.add_0_r.
  - destruct (mc + w =? part_size); rewrite IH; simpl;
      by replace (idx + 1 + length l1) with (idx + S (length l1)) by lia.
Qed.

Lemma cut_points_ones (part_size : nat) (n : nat) :
  1 ≤ part_size →
  ∀ memory_counter idx, memory_counter < part_size →
    length (cut_points part_size memory_counter idx (replicate n 1))
      = (memory_counter + n) / part_size ∧
    final_counter part_size memory_counter (replicate n 1)
      = (memory_counter + n) mod part_size.
Proof.
  intros Hp. induction n as [|n IH]; intros mc idx Hmc; simpl.
  - rewrite Nat.add_0_r, Nat.div_small, Nat.mod_small by done. done.
  - destruct (mc + 1 =? part_size) eqn:E; simpl.
    + apply Nat.eqb_eq in E. destruct (IH 0 (idx + 1)) as [H1 H2]; [lia|].
      rewrite H1, H2.
      simpl. replace (mc + S n) with (n + 1 * part_size) by lia.
      rewrite Nat.div_add, Nat.Div0.mod_add by lia. split; lia.
    + apply Nat.eqb_neq in E. destruct (IH (mc + 1) (idx + 1)) as [H1 H2]; [lia|].
      rewrite H1, H2.
      by replace (mc + 1 + n) with (mc + S n) by lia.
Qed.

(** The number of cuts of the by-layer-weight policy for a model of [n]
    transformer layers whose parts have a positive size. *)
Lemma by_layer_cuts_count (n stage_num : nat) :
  1 ≤ n / stage_num →
  by_layer_cuts (n + 3) stage_num = n / (n / stage_num).
Proof.
  intros Hp. unfold by_layer_cuts.
  rewrite sum_ordinal_weights, ordinal_weights_shape.
  replace (n + 3 - 3) with n by lia.
  set (p := n / stage_num) in *.
  change (0 :: replicate n 1 ++ [0; 0]) with ([0] ++ replicate n 1 ++ [0; 0]).
  rewrite !cut_points_app, !length_app.
  assert ((0 + 0 =? p) = false) as E0 by (apply Nat.eqb_neq; lia).
  assert (final_counter p 0 [0] = 0) as ->
    by (unfold final_counter; by rewrite E0).
  assert (cut_points p 0 0 [0] = []) as ->
    by (unfold cut_points; by rewrite E0).
  destruct (cut_points_ones p n Hp 0 (0 + length [0])) as [-> ->]; [lia|].
  pose proof (Nat.mod_upper_bound n p ltac:(lia)) as Hmod.
  assert (((0 + n) mod p + 0 =? p) = false) as E1
    by (apply Nat.eqb_neq; simpl; lia).
  assert (((0 + n) mod p + 0 + 0 =? p) = false) as E2
    by (apply Nat.eqb_neq; simpl; lia).
  unfold cut_points. rewrite E1, E2. simpl. lia.
Qed.

(** The shape of the boundaries of the by-layer-weight policy. *)
Lemma by_layer_bounds_shape (layer_num stage_num : nat) :
  1 ≤ stage_num →
  by_layer_cuts layer_num stage_num ≤ stage_num →
  let b := by_layer_bounds layer_num stage_num in
  length b = stage_num + 1 ∧ nth 0 b 0 = 0 ∧ nth stage_num b 0 = layer_num ∧
  (stage_num ≤ by_layer_cuts layer_num stage_num + 1 →
   ∀ i, i < stage_num → nth i b 0 ≤ nth (i + 1) b 0) ∧
  (by_layer_cuts layer_num stage_num + 1 < stage_num →
   nth (stage_num - 1) b 0 = 0).
Proof.
  intros Hs Hfit. unfold by_layer_bounds, by_layer_cuts in *.
  set (ws := map _ _) in *. set (p := sum_list ws / stage_num) in *.
  set (cp := cut_points p 0 0 ws) in *. simpl.
  assert (length (0 :: cp ++ replicate (stage_num - length cp) 0) = stage_num + 1)
    as Hlen by (simpl; rewrite length_app, length_replicate; lia).
  assert (∀ i, i < stage_num →
    nth i (<[stage_num := layer_num]>
             (0 :: cp ++ replicate (stage_num - length cp) 0)) 0
    = match i with
      | 0 => 0
      | S i' => if decide (i' < length cp) then nth i' cp 0 else 0
      end) as Hnth.
  { intros i Hi. apply nth_lookup_Some. rewrite list_lookup_insert_ne by lia.
    destruct i as [|i]; simpl; [done|]. case_decide.
    - rewrite lookup_app_l by done.
      destruct (nth_lookup_or_length cp i 0); [done|lia].
    - rewrite lookup_app_r by lia. apply lookup_replicate_2. lia. }
  assert (nth stage_num (<[stage_num := layer_num]>
             (0 :: cp ++ replicate (stage_num - length cp) 0)) 0 = layer_num)
    as Hlast.
  { apply nth_lookup_Some. apply list_lookup_insert_eq. lia. }
  assert (∀ i, i < length cp → 0 < nth i cp 0 ≤ layer_num) as Hcp.
  { intros i Hi.
    assert (nth i cp 0 ∈ cp) as Hin%cut_points_bounds
      by (apply list_elem_of_In, nth_In; lia).
    unfold ws in Hin. rewrite length_map, length_seq in Hin. lia. }
  split; [by rewrite length_insert|]. split; [by apply Hnth|].
  split; [done|]. split.
  - intros Hmany i Hi.
    destruct (decide (i + 1 = stage_num)) as [Heq|Hne].
    + rewrite Heq, Hlast, Hnth by done.
      destruct i as [|i]; [lia|]. case_decide; [|lia].
      apply Hcp. lia.
    + rewrite !Hnth by lia. replace (i + 1) with (S i) by lia.
      destruct i as [|i].
      * case_decide; lia.
      * rewrite !decide_True by lia.
        apply Nat.lt_le_incl, cut_points_increasing. fold cp. lia.
  - intros Hfew. rewrite Hnth by lia.
    destruct (stage_num - 1) as [|i] eqn:E; [done|].
    case_decide; [lia|done].
Qed.

(** Whenever the planner returns, the segments of all stages cover every
    ordinal below [layer_num], and there are [pp_degree] stages. *)
Lemma plan_segments_cover (layer_num pp_degree vpp_degree : nat)
    (segment_method : string) (segs : list (list (nat * nat))) :
  plan_segments layer_num pp_degree vpp_degree segment_method = Ok segs →
  1 ≤ pp_degree ∧ length segs = pp_degree ∧
  ∀ j, j < layer_num → j ∈ all_ordinals segs.
Proof.
  unfold plan_segments. intros (b & Hb & Hdeal)%bind_ok.
  set (s := pp_degree * vpp_degree) in *.
  assert (1 ≤ s) as Hs.
  { destruct (decide (s = 0)) as [E|]; [|lia]. rewrite E in Hb.
    destruct (String.eqb _ _); [done|].
    unfold segment_by_layer in Hb. by destruct (layer_weights layer_num). }
  assert (1 ≤ pp_degree) as Hpp by (unfold s in Hs; nia).
  assert (length b = s + 1 ∧ nth 0 b 0 = 0 ∧ nth s b 0 = layer_num ∧
          ((∀ i, i < s → nth i b 0 ≤ nth (i + 1) b 0) ∨ nth (s - 1) b 0 = 0))
    as (Hlen & H0 & Hlast & Hshape).
  { destruct (String.eqb _ _).
    - rewrite segment_uniform_closed in Hb by done. injection Hb as <-.
      rewrite length_map, length_seq, !nth_uniform_bound by lia.
      rewrite uniform_bound_0, uniform_bound_last by done.
      repeat split; try done. left. intros i Hi.
      rewrite !nth_uniform_bound by lia. apply uniform_bound_mono; lia.
    - rewrite segment_by_layer_closed in Hb by done.
      case_decide as Hfit; [|done]. injection Hb as <-.
      destruct (by_layer_bounds_shape layer_num s Hs Hfit)
        as (? & ? & ? & Hmono & Hzero).
      repeat split; try done.
      destruct (decide (s ≤ by_layer_cuts layer_num s + 1)); [left|right]; auto.
      apply Hzero. lia. }
  destruct (deal_segments_closed pp_degree s b Hpp ltac:(lia))
    as (segs' & Hrun & Hcl & Hperm).
  rewrite Hrun in Hdeal. injection Hdeal as <-.
  split; [done|]. split; [by rewrite Hcl, length_map, length_seq|].
  intros j Hj. unfold all_ordinals.
  rewrite (ordinals_of_perm _ _ Hperm).
  destruct Hshape as [Hmono|Hzero].
  - rewrite ordinals_of_chain by done. rewrite Hlast.
    apply list_elem_of_In, in_seq. lia.
  - replace s with (S (s - 1)) at 1 by lia.
    rewrite seq_S, map_app. unfold ordinals_of.
    rewrite map_app, concat_app. apply elem_of_app. right. simpl.
    replace (s - 1 + 1) with s by lia.
    rewrite Hzero, Hlast, app_nil_r.
    apply list_elem_of_In, in_seq. lia.
Qed.

Lemma plan_by_layer_partition (layer_num pp_degree vpp_degree : nat)
    (segment_method : string) :
  1 ≤ pp_degree → 1 ≤ vpp_degree → segment_method ≠ "uniform" →
  3 ≤ layer_num →
  1 ≤ (layer_num - 3) / (pp_degree * vpp_degree) →
  (layer_num - 3) / ((layer_num - 3) / (pp_degree * vpp_degree))
    = pp_degree * vpp_degree →
  ∃ segs, plan_segments layer_num pp_degree vpp_degree segment_method = Ok segs ∧
          length segs = pp_degree ∧
          all_ordinals segs ≡ₚ seq 0 layer_num.
Proof.
  intros Hpp Hvpp Hm HL Hp Hcuts. unfold plan_segments.
  set (s := pp_degree * vpp_degree) in *.
  assert (1 ≤ s) as Hs by (unfold s; nia).
  apply String.eqb_neq in Hm. rewrite Hm.
  assert (by_layer_cuts layer_num s = s) as Hc.
  { replace layer_num with (layer_num - 3 + 3) by lia.
    by rewrite by_layer_cuts_count. }
  rewrite segment_by_layer_closed by done.
  rewrite decide_True by lia. simpl.
  destruct (by_layer_bounds_shape layer_num s Hs ltac:(lia))
    as (Hlen & H0 & Hlast & Hmono & _).
  destruct (deal_segments_closed pp_degree s (by_layer_bounds layer_num s) Hpp
              ltac:(lia)) as (segs & Hrun & Hcl & _).
  exists segs. split; [done|]. split.
  - by rewrite Hcl, length_map, length_seq.
  - eapply (deal_segments_partition layer_num pp_degree s
              (by_layer_bounds layer_num s)); try done; try lia.
    apply Hmono. lia.
Qed.

(** ** Strings *)

#[local] Arguments String.append !s1 s2 : assert.

Lemma append_nil_r (s : string) : s +:+ "" = s.
Proof. induction s; simpl; congruence. Qed.

Lemma append_assoc (s1 s2 s3 : string) : (s1 +:+ s2) +:+ s3 = s1 +:+ (s2 +:+ s3).
Proof. induction s1; simpl; congruence. Qed.

Lemma append_inj_l (p s1 s2 : string) : p +:+ s1 = p +:+ s2 → s1 = s2.
Proof. induction p; simpl; [done|]. intros [= ?]. auto. Qed.

Lemma str_int_inj (i j : Z) : str_int i = str_int j → i = j.
Proof.
  unfold str_int. intros H. apply DecimalZ.to_int_inj.
  assert (∀ z, Z.to_int z ≠ Decimal.Pos Decimal.Nil ∧
               Z.to_int z ≠ Decimal.Neg Decimal.Nil) as Hnn.
  { intros [|p|p]; simpl; split; try done;
      intros [= E]; by apply DecimalPos.Unsigned.to_uint_nonnil in E. }
  destruct (Hnn i), (Hnn j).
  assert (Some (Z.to_int i) = Some (Z.to_int j)) as [= ?]; [|done].
  rewrite <- (NilZero.isi (Z.to_int i)), <- (NilZero.isi (Z.to_int j)) by done.
  by rewrite H.
Qed.

Lemma take_digits_uint (d : Decimal.uint) :
  take_digits (NilEmpty.string_of_uint d) = NilEmpty.string_of_uint d.
Proof. induction d; simpl; [done|..]; by rewrite IHd. Qed.

Lemma int_of_digits_uint (d : Decimal.uint) (acc : nat) :
  int_of_digits acc (NilEmpty.string_of_uint d) = Nat.of_uint_acc d acc.
Proof.
  revert acc; induction d; intros acc; simpl; [done|..];
    rewrite IHd, Nat.tail_mul_spec; f_equal;
    unfold digit_value; simpl; lia.
Qed.

Lemma str_nat_nonempty (n : nat) : str_nat n ≠ "".
Proof.
  unfold str_nat. pose proof (DecimalNat.Unsigned.of_to n) as H.
  destruct (Nat.to_uint n) eqn:E; simpl; try done.
  simpl in H. subst n. done.
Qed.

Lemma take_digits_str_nat (n : nat) : take_digits (str_nat n) = str_nat n.
Proof. apply take_digits_uint. Qed.

Lemma int_of_digits_str_nat (n : nat) : int_of_digits 0 (str_nat n) = n.
Proof.
  unfold str_nat. rewrite int_of_digits_uint.
  apply DecimalNat.Unsigned.of_to.
Qed.

Lemma str_nat_inj (m n : nat) : str_nat m = str_nat n → m = n.
Proof.
  intros H. rewrite <- (int_of_digits_str_nat m), <- (int_of_digits_str_nat n).
  by rewrite H.
Qed.

(** ** The layer classifier *)

Lemma match_layers_at_block (k : nat) :
  match_layers_at (block_name k) = Some (str_nat k).
Proof.
  unfold match_layers_at, block_name. simpl.
  rewrite take_digits_str_nat.
  pose proof (str_nat_nonempty k). by destruct (str_nat k).
Qed.

Lemma search_layers_here (s ds : string) :
  match_layers_at s = Some ds → search_layers s = Some ds.
Proof. intros H. destruct s; unfold search_layers; by rewrite H. Qed.

Lemma index_layer_block (k : nat) (n : option Z) :
  index_layer (block_name k) n = Ok (Z.of_nat k + 1)%Z.
Proof.
  unfold index_layer.
  change (String.eqb (block_name k) "ernie.embed_tokens") with false.
  change (String.eqb (block_name k) "ernie.norm") with false.
  change (String.eqb (block_name k) "lm_head") with false.
  cbv iota.
  rewrite (search_layers_here _ _ (match_layers_at_block k)).
  by rewrite int_of_digits_str_nat.
Qed.

Lemma extract_layer_name_block (k : nat) :
  extract_layer_name (block_name k) = Some (block_name k).
Proof. unfold extract_layer_name. by rewrite (match_layers_at_block k). Qed.

(** ** Ordered dictionaries *)

Section OrderedDict.
Context `{EqDecision K} {V : Type}.
Implicit Types (d : list (K * V)) (k : K) (v : V).

Lemma od_get_set_eq d k v : od_get (od_set d k v) k = Some v.
Proof.
  induction d as [|[k' v'] d IH]; simpl.
  - by rewrite decide_True.
  - case_decide; simpl; [by rewrite decide_True|]. by rewrite decide_False.
Qed.

Lemma od_get_set_ne d k k' v : k ≠ k' → od_get (od_set d k v) k' = od_get d k'.
Proof.
  intros Hne. induction d as [|[k'' v''] d IH]; simpl.
  - by rewrite decide_False.
  - case_decide; simpl; [subst; by rewrite !decide_False by done|].
    by rewrite IH.
Qed.

Lemma od_set_set d k v v' : od_set (od_set d k v) k v' = od_set d k v'.
Proof.
  induction d as [|[k' v''] d IH]; simpl.
  - by rewrite decide_True.
  - case_decide; simpl; [by rewrite decide_True|].
    by rewrite decide_False, IH.
Qed.

Lemma od_set_id d k v : od_get d k = Some v → od_set d k v = d.
Proof.
  induction d as [|[k' v'] d IH]; simpl; [done|].
  case_decide; [by intros [= ->]; subst|]. intros Hg. by rewrite IH.
Qed.

Lemma od_get_Some_elem d k v : od_get d k = Some v → (k, v) ∈ d.
Proof.
  induction d as [|[k' v'] d IH]; simpl; [done|].
  case_decide; [intros [= ->]; subst; by left|]. intros Hg. right. auto.
Qed.

Lemma od_get_None d k : od_get d k = None ↔ k ∉ map fst d.
Proof.
  induction d as [|[k' v'] d IH]; simpl.
  - split; [intros _ ?%elem_of_nil; done|done].
  - case_decide; subst.
    + split; [done|]. intros Hg. destruct Hg. by left.
    + rewrite IH, not_elem_of_cons. tauto.
Qed.

Lemma od_get_NoDup d k v : NoDup (map fst d) → (k, v) ∈ d → od_get d k = Some v.
Proof.
  induction d as [|[k' v'] d IH]; simpl; [by intros _ ?%elem_of_nil|].
  intros [Hk' Hnd]%NoDup_cons [[= -> ->]|Hin]%elem_of_cons.
  - by rewrite decide_True.
  - case_decide; [|auto]. subst. destruct Hk'.
    apply list_elem_of_fmap. by exists (k', v).
Qed.

Lemma od_set_keys_in d k v : k ∈ map fst d → map fst (od_set d k v) = map fst d.
Proof.
  induction d as [|[k' v'] d IH]; simpl; [by intros ?%elem_of_nil|].
  case_decide; subst; simpl; [done|].
  intros [?|?]%elem_of_cons; [done|]. by rewrite IH.
Qed.

Lemma od_set_keys_new d k v : k ∉ map fst d → map fst (od_set d k v) = map fst d ++ [k].
Proof.
  induction d as [|[k' v'] d IH]; simpl; [done|].
  intros [? ?]%not_elem_of_cons. rewrite decide_False by done. simpl.
  by rewrite IH.
Qed.

Lemma od_set_new d k v : k ∉ map fst d → od_set d k v = d ++ [(k, v)].
Proof.
  induction d as [|[k' v'] d IH]; simpl; [done|].
  intros [? ?]%not_elem_of_cons. rewrite decide_False by done.
  by rewrite IH.
Qed.

Lemma od_set_NoDup d k v : NoDup (map fst d) → NoDup (map fst (od_set d k v)).
Proof.
  intros Hnd. destruct (decide (k ∈ map fst d)).
  - by rewrite od_set_keys_in.
  - rewrite od_set_keys_new by done.
    apply NoDup_app. split; [done|]. split; [|apply NoDup_singleton].
    intros x Hx ->%list_elem_of_singleton. done.
Qed.
End OrderedDict.

(** ** The name-scope tree *)

Lemma get_layer_prefix_known (name role : string) :
  get_layer_prefix name = Some role →
  known_role role ∧ startswith name role = true.
Proof.
  unfold get_layer_prefix, prefix_to_template, known_role. simpl.
  repeat case_match; intros [= <-]; split; auto 10.
Qed.

Lemma known_role_template (role : string) :
  known_role role → od_get prefix_to_template role = Some (role +:+ "_{}").
Proof.
  unfold known_role. simpl. intros H.
  repeat (destruct H as [<-|H]; [reflexivity|]). done.
Qed.

Lemma format_role (role : string) (i : Z) :
  known_role role → format (role +:+ "_{}") i = role +:+ "_" +:+ str_int i.
Proof.
  unfold known_role. simpl. intros H.
  repeat (destruct H as [<-|H]; [simpl; by rewrite append_nil_r|]). done.
Qed.

Lemma role_name_inj (r1 r2 s1 s2 : string) :
  known_role r1 → known_role r2 →
  r1 +:+ "_" +:+ s1 = r2 +:+ "_" +:+ s2 → r1 = r2 ∧ s1 = s2.
Proof.
  unfold known_role. simpl. intros H1 H2.
  repeat (destruct H1 as [<-|H1]; [|]);
  repeat (destruct H2 as [<-|H2]; [|]); try done; simpl;
    intros E; try discriminate; by simplify_eq.
Qed.

(** The name of the scope of a role. *)
Lemma role_scope_name (role : string) (scope : LayerNameScope) :
  known_role role → scope_wf role scope →
  get_layer_name scope = role +:+ "_" +:+ str_int (sc_index scope).
Proof.
  intros Hr [Hp Ht]. unfold get_layer_name. rewrite Hp, Ht.
  revert Hr. unfold known_role. simpl. intros H.
  repeat (destruct H as [<-|H]; [simpl; by rewrite append_nil_r|]). done.
Qed.

Lemma get_next_scope_same (scope : LayerNameScope) (layer_id old_layer_name : string) :
  get_next_scope (get_next_scope scope layer_id old_layer_name)
                 layer_id old_layer_name
  = get_next_scope scope layer_id old_layer_name.
Proof.
  destruct (negb (String.eqb old_layer_name (sc_last_old_layer_name scope))
            || negb (String.eqb layer_id (sc_last_layer_id scope))) eqn:E;
    unfold get_next_scope; rewrite E; simpl.
  - by rewrite !String.eqb_refl.
  - by rewrite E.
Qed.

(** [get_next_scope] advances the counter by one exactly when one of its
    arguments differs from those of the call before. *)
Lemma get_next_scope_spec (scope : LayerNameScope) (layer_id old_layer_name : string) :
  (layer_id = sc_last_layer_id scope ∧
   old_layer_name = sc_last_old_layer_name scope ∧
   get_next_scope scope layer_id old_layer_name = scope) ∨
  ((layer_id ≠ sc_last_layer_id scope ∨
    old_layer_name ≠ sc_last_old_layer_name scope) ∧
   sc_index (get_next_scope scope layer_id old_layer_name) = (sc_index scope + 1)%Z).
Proof.
  unfold get_next_scope.
  destruct (String.eqb_spec old_layer_name (sc_last_old_layer_name scope));
  destruct (String.eqb_spec layer_id (sc_last_layer_id scope)); simpl; auto.
Qed.

Lemma get_next_scope_last (scope : LayerNameScope) (layer_id old_layer_name : string) :
  sc_last_layer_id (get_next_scope scope layer_id old_layer_name) = layer_id ∧
  sc_last_old_layer_name (get_next_scope scope layer_id old_layer_name)
    = old_layer_name ∧
  sc_prefix (get_next_scope scope layer_id old_layer_name) = sc_prefix scope ∧
  sc_template (get_next_scope scope layer_id old_layer_name) = sc_template scope.
Proof.
  unfold get_next_scope.
  destruct (String.eqb_spec old_layer_name (sc_last_old_layer_name scope));
  destruct (String.eqb_spec layer_id (sc_last_layer_id scope)); simpl; auto.
Qed.

Lemma get_new_layer_name_spec (mgr : LayerReNamingManager) (layer_id old_name : string) :
  get_new_layer_name mgr layer_id old_name =
  match get_layer_prefix old_name with
  | None => Raise (AssertionError
                     (invalid_msg old_name (sc_prefix (top_layer_name_scope mgr))))
  | Some role =>
      let scope := get_next_scope (scope_for mgr role) layer_id old_name in
      Ok ({| top_layer_name_scope :=
               with_sub_scope (top_layer_name_scope mgr) role scope |},
          get_layer_name scope)
  end.
Proof.
  unfold get_new_layer_name, extract_layer_names, walk_scopes, get_sub_scope,
    scope_for, role_scope.
  destruct (get_layer_prefix old_name) as [role|]; [|done].
  destruct (od_get (sc_sub_scopes (top_layer_name_scope mgr)) role); simpl; [done|].
  unfold with_sub_scope. simpl. by rewrite od_set_set.
Qed.

Lemma with_sub_scope_id (self : LayerNameScope) (role : string)
    (scope : LayerNameScope) :
  od_get (sc_sub_scopes self) role = Some scope →
  with_sub_scope self role scope = self.
Proof.
  intros H. destruct self. unfold with_sub_scope. simpl in *.
  by rewrite od_set_id.
Qed.

Lemma role_scope_after (mgr mgr' : LayerReNamingManager)
    (layer_id old_name new_name role : string) :
  get_new_layer_name mgr layer_id old_name = Ok (mgr', new_name) →
  get_layer_prefix old_name = Some role →
  role_scope mgr' role
    = Some (get_next_scope (scope_for mgr role) layer_id old_name) ∧
  new_name = get_layer_name (get_next_scope (scope_for mgr role) layer_id old_name) ∧
  ∀ role', role' ≠ role → role_scope mgr' role' = role_scope mgr role'.
Proof.
  rewrite get_new_layer_name_spec. intros H Hrole. rewrite Hrole in H.
  injection H as <- <-. unfold role_scope. simpl.
  split; [apply od_get_set_eq|]. split; [done|].
  intros role' Hne. by apply od_get_set_ne.
Qed.

(** Presenting the same layer and name again changes nothing and gives the
    same new name. *)
Lemma get_new_layer_name_again (mgr mgr' : LayerReNamingManager)
    (layer_id old_name new_name : string) :
  get_new_layer_name mgr layer_id old_name = Ok (mgr', new_name) →
  get_new_layer_name mgr' layer_id old_name = Ok (mgr', new_name).
Proof.
  intros H. pose proof H as H'. rewrite get_new_layer_name_spec in H'.
  destruct (get_layer_prefix old_name) as [role|] eqn:Hrole; [|done].
  destruct (role_scope_after _ _ _ _ _ _ H Hrole) as (Hsc & Hname & _).
  rewrite get_new_layer_name_spec, Hrole.
  unfold scope_for. rewrite Hsc. simpl.
  rewrite get_next_scope_same. rewrite <- Hname.
  rewrite with_sub_scope_id by exact Hsc. by destruct mgr'.
Qed.

Lemma get_new_param_name_spec (mgr : LayerReNamingManager) (layer_id old_name : string) :
  get_new_param_name mgr layer_id old_name =
  (r <- get_new_layer_name mgr layer_id (first_component old_name) ;;
   Ok (r.1, String.concat "." (r.2 :: sub_path old_name))).
Proof. done. Qed.

Lemma get_new_param_name_ok (mgr mgr' : LayerReNamingManager)
    (layer_id old_name new_name : string) :
  get_new_param_name mgr layer_id old_name = Ok (mgr', new_name) ↔
  ∃ new_layer,
    get_new_layer_name mgr layer_id (first_component old_name) = Ok (mgr', new_layer) ∧
    new_name = String.concat "." (new_layer :: sub_path old_name).
Proof.
  rewrite get_new_param_name_spec, bind_ok. split.
  - intros ([m l] & H & [= <- <-]). eauto.
  - intros (l & H & ->). by exists (mgr', l).
Qed.

Lemma get_new_param_name_again (mgr mgr' : LayerReNamingManager)
    (layer_id old_name new_name : string) :
  get_new_param_name mgr layer_id old_name = Ok (mgr', new_name) →
  get_new_param_name mgr' layer_id old_name = Ok (mgr', new_name).
Proof.
  intros (l & H & ->)%get_new_param_name_ok. apply get_new_param_name_ok.
  exists l. split; [|done]. by eapply get_new_layer_name_again.
Qed.

(** Renaming fails exactly on the names whose first component carries no
    known role, and it fails by the assertion of [get_sub_scope]. *)
Lemma get_new_param_name_raise (mgr : LayerReNamingManager) (layer_id old_name : string) :
  get_layer_prefix (first_component old_name) = None →
  get_new_param_name mgr layer_id old_name =
  Raise (AssertionError (invalid_msg (first_component old_name)
                                     (sc_prefix (top_layer_name_scope mgr)))).
Proof.
  intros H. by rewrite get_new_param_name_spec, get_new_layer_name_spec, H.
Qed.

Lemma get_new_param_name_is_ok (mgr : LayerReNamingManager) (layer_id old_name : string) :
  is_Some (get_layer_prefix (first_component old_name)) →
  is_ok (get_new_param_name mgr layer_id old_name).
Proof.
  intros [role H]. rewrite get_new_param_name_spec, get_new_layer_name_spec, H.
  simpl. by eexists.
Qed.

Lemma manager_wf_new : manager_wf new_manager.
Proof. repeat split; done. Qed.

Lemma manager_wf_layer_name (mgr mgr' : LayerReNamingManager)
    (layer_id old_name new_name : string) :
  manager_wf mgr →
  get_new_layer_name mgr layer_id old_name = Ok (mgr', new_name) →
  manager_wf mgr'.
Proof.
  intros (Hp & Ht & Hsub) H. pose proof H as H'.
  rewrite get_new_layer_name_spec in H'.
  destruct (get_layer_prefix old_name) as [role|] eqn:Hrole; [|done].
  destruct (role_scope_after _ _ _ _ _ _ H Hrole) as (Hsc & _ & Hother).
  injection H' as <- _. repeat split; simpl; try done.
  - destruct (decide (role0 = role)) as [->|Hne].
    + by apply get_layer_prefix_known in Hrole as [? _].
    + rewrite Hother in H0 by done. by apply Hsub in H0 as [? _].
  - destruct (decide (role0 = role)) as [->|Hne].
    + rewrite Hsc in H0. injection H0 as <-.
      destruct (get_next_scope_last (scope_for mgr role) layer_id old_name)
        as (_ & _ & -> & _).
      unfold scope_for. destruct (role_scope mgr role) as [sc|] eqn:E.
      * by apply Hsub in E as [_ [? _]].
      * simpl. unfold get_layer_name. by rewrite Hp, Ht.
    + rewrite Hother in H0 by done. by apply Hsub in H0 as [_ [? _]].
  - destruct (decide (role0 = role)) as [->|Hne].
    + rewrite Hsc in H0. injection H0 as <-.
      destruct (get_next_scope_last (scope_for mgr role) layer_id old_name)
        as (_ & _ & _ & ->).
      unfold scope_for. destruct (role_scope mgr role) as [sc|] eqn:E.
      * by apply Hsub in E as [_ [_ ?]].
      * done.
    + rewrite Hother in H0 by done. by apply Hsub in H0 as [_ [_ ?]].
Qed.

Lemma manager_wf_param_name (mgr mgr' : LayerReNamingManager)
    (layer_id old_name new_name : string) :
  manager_wf mgr →
  get_new_param_name mgr layer_id old_name = Ok (mgr', new_name) →
  manager_wf mgr'.
Proof.
  intros Hwf (l & H & _)%get_new_param_name_ok.
  by eapply manager_wf_layer_name.
Qed.

Lemma manager_wf_pass (pass : list (string * string)) :
  ∀ mgr mgr' names,
    manager_wf mgr → rename_pass mgr pass = Ok (mgr', names) → manager_wf mgr'.
Proof.
  induction pass as [|[layer_id old_name] pass IH]; intros mgr mgr' names Hwf; simpl.
  - by intros [= <- _].
  - intros ([m1 n1] & H1 & ([m2 ns] & H2 & [= <- _])%bind_ok)%bind_ok.
    simpl in *. eapply IH; [|exact H2]. by eapply manager_wf_param_name.
Qed.

(** ** Building the name mapping of a stage *)

Lemma for_each_map {A B St : Type} (body : St → B → outcome St) (g : A → B)
    (xs : list A) (s : St) :
  for_each body (map g xs) s = for_each (fun t x => body t (g x)) xs s.
Proof.
  revert s; induction xs as [|x xs IH]; intros s; simpl; [done|].
  destruct (body s (g x)); simpl; auto.
Qed.

Lemma for_each_concat {A St : Type} (body : St → A → outcome St)
    (xss : list (list A)) (s : St) :
  for_each body (concat xss) s = for_each (fun t xs => for_each body xs t) xss s.
Proof.
  revert s; induction xss as [|xs xss IH]; intros s; simpl; [done|].
  rewrite for_each_app. destruct (for_each body xs s); simpl; auto.
Qed.

Lemma for_each_ext {A St : Type} (body body' : St → A → outcome St)
    (xs : list A) (s : St) :
  (∀ t x, x ∈ xs → body t x = body' t x) →
  for_each body xs s = for_each body' xs s.
Proof.
  revert s; induction xs as [|x xs IH]; intros s H; simpl; [done|].
  rewrite H by (by left). destruct (body' s x); simpl; [|done].
  apply IH. intros t y Hy. apply H. by right.
Qed.

(** An exception of a loop is an exception of its body. *)
Lemma for_each_raise {A St : Type} (body : St → A → outcome St)
    (xs : list A) (s : St) (e : exn) :
  for_each body xs s = Raise e → ∃ x t, x ∈ xs ∧ body t x = Raise e.
Proof.
  revert s; induction xs as [|x xs IH]; intros s; simpl; [done|].
  destruct (body s x) as [s'|e'] eqn:E; simpl.
  - intros (y & t & Hy & H)%IH. exists y, t. split; [by right|done].
  - intros [= <-]. exists x, s. split; [by left|done].
Qed.

(** A loop that ends without an exception ran its body on every element. *)
Lemma for_each_ok_elem {A St : Type} (body : St → A → outcome St)
    (xs : list A) (s s' : St) (x : A) :
  for_each body xs s = Ok s' → x ∈ xs → ∃ t t', body t x = Ok t'.
Proof.
  revert s; induction xs as [|y xs IH]; intros s; simpl.
  - by intros _ ?%elem_of_nil.
  - intros (t & Ht & Hrest)%bind_ok. intros [->|Hx]%elem_of_cons; eauto.
Qed.

Lemma name_layer_flat (s : LayerReNamingManager * gmap string (string * string))
    (item : string * PipeLinelayer) :
  name_layer s item = for_each name_presented (presented_by_layer item.2) s.
Proof.
  unfold name_layer, presented_by_layer. rewrite for_each_map.
  apply for_each_ext. by intros t [param_name tensor_name] _.
Qed.

Lemma name_layers_flat (layers : list (string * PipeLinelayer))
    (s : LayerReNamingManager * gmap string (string * string)) :
  for_each name_layer layers s =
  for_each name_presented
           (concat (map (fun item => presented_by_layer item.2) layers)) s.
Proof.
  rewrite for_each_concat, for_each_map. apply for_each_ext.
  intros t x _. apply name_layer_flat.
Qed.

Lemma name_segment_ready (objects : list PipeLineSegment) (item : nat * nat)
    (segment : PipeLineSegment)
    (s : LayerReNamingManager * gmap string (string * string)) :
  objects !! item.2 = Some segment →
  seg_cur_index segment = seg_end_index segment →
  name_segment objects s item
  = for_each name_presented (presented_by_segment segment) s.
Proof.
  intros Hobj Hcur. unfold name_segment, segment_layers_of.
  rewrite (proj2 (list_get_ok _ _ _) Hobj). simpl.
  rewrite Hcur, Nat.eqb_refl. simpl. apply name_layers_flat.
Qed.

(** A segment that has not received all its layers stops the naming. *)
Lemma name_segment_unready (objects : list PipeLineSegment) (item : nat * nat)
    (segment : PipeLineSegment)
    (s : LayerReNamingManager * gmap string (string * string)) :
  objects !! item.2 = Some segment →
  seg_cur_index segment ≠ seg_end_index segment →
  name_segment objects s item = Raise (AssertionError "").
Proof.
  intros Hobj Hcur. unfold name_segment, segment_layers_of.
  rewrite (proj2 (list_get_ok _ _ _) Hobj). simpl.
  apply Nat.eqb_neq in Hcur. by rewrite Hcur.
Qed.

Lemma name_segments_ready (objects : list PipeLineSegment)
    (segments : list (nat * nat))
    (s : LayerReNamingManager * gmap string (string * string)) :
  Forall (fun item => ∃ segment, objects !! item.2 = Some segment ∧
                                 seg_cur_index segment = seg_end_index segment)
         segments →
  for_each (name_segment objects) segments s
  = for_each name_presented
      (concat (map (fun item => match objects !! item.2 with
                                | Some segment => presented_by_segment segment
                                | None => []
                                end) segments)) s.
Proof.
  intros Hready. rewrite for_each_concat, for_each_map.
  apply for_each_ext. intros t x Hx.
  rewrite Forall_forall in Hready.
  destruct (Hready x Hx) as (segment & Hobj & Hcur).
  rewrite Hobj. by apply name_segment_ready.
Qed.

(** On a stage whose segments are full, [build_name_mapping] is one pass
    over the parameters of the stage. *)
Lemma build_name_mapping_ready (stage : PipeLineStage) :
  stage_ready stage →
  build_name_mapping stage =
  (s <- for_each name_presented (presented stage)
                 (st_rename_mgr stage, st_param_to_tname stage) ;;
   Ok {| st_rename_mgr := s.1;
         st_objects := st_objects stage;
         st_segments := st_segments stage;
         st_layer_to_segment := st_layer_to_segment stage;
         st_param_to_tname := s.2 |}).
Proof.
  intros Hready. unfold build_name_mapping, presented.
  by rewrite name_segments_ready.
Qed.

(** [build_name_mapping] returns only on a stage whose segments are full. *)
Lemma build_name_mapping_ok_ready (stage stage' : PipeLineStage) :
  build_name_mapping stage = Ok stage' → stage_ready stage.
Proof.
  unfold build_name_mapping. intros (s & Hs & _)%bind_ok.
  apply Forall_forall. intros item Hitem.
  destruct (for_each_ok_elem _ _ _ _ _ Hs Hitem) as (t & t' & Ht).
  unfold name_segment in Ht.
  apply bind_ok in Ht as (segment & Hobj%list_get_ok & Ht).
  apply bind_ok in Ht as (layers & Hlayers & _).
  unfold segment_layers_of in Hlayers.
  apply bind_ok in Hlayers as (u & Hcur%assert_ok%Nat.eqb_eq & _).
  eauto.
Qed.

(** The pass in terms of the renamer: the raw name of a parameter is the key
    under which its tensor name and its new name are recorded, and nothing
    else. *)
Lemma name_presented_pass (params : list (string * string * string)) :
  ∀ mgr table,
    for_each name_presented params (mgr, table) =
    (r <- rename_pass mgr (map renamer_input params) ;;
     Ok (r.1, record_names table params r.2)).
Proof.
  induction params as [|[[layer param_name] tensor_name] params IH];
    intros mgr table; simpl; [done|].
  unfold name_presented at 1, name_param. simpl.
  destruct (get_new_param_name mgr layer tensor_name) as [[mgr1 n1]|e]; simpl; [|done].
  rewrite IH.
  destruct (rename_pass mgr1 (map renamer_input params)) as [[mgr2 ns]|e]; simpl; done.
Qed.

Lemma rename_pass_length (pass : list (string * string)) :
  ∀ mgr mgr' names,
    rename_pass mgr pass = Ok (mgr', names) → length names = length pass.
Proof.
  induction pass as [|[layer_id old_name] pass IH]; intros mgr mgr' names; simpl.
  - by intros [= _ <-].
  - intros ([m1 n1] & H1 & ([m2 ns] & H2 & [= _ <-])%bind_ok)%bind_ok.
    simpl. f_equal. by eapply IH.
Qed.

(** A pass over names with known roles ends without an exception. *)
Lemma rename_pass_is_ok (pass : list (string * string)) :
  ∀ mgr,
    Forall (fun x => is_Some (get_layer_prefix (first_component x.2))) pass →
    is_ok (rename_pass mgr pass).
Proof.
  induction pass as [|[layer_id old_name] pass IH]; intros mgr Hall; simpl.
  - by eexists.
  - apply Forall_cons in Hall as [Hx Hall]. simpl in Hx.
    destruct (get_new_param_name_is_ok mgr layer_id old_name Hx) as [[m1 n1] ->].
    simpl. destruct (IH m1 Hall) as [[m2 ns] ->]. simpl. by eexists.
Qed.

(** A pass that meets a name without a known role raises the assertion of
    [get_sub_scope]. *)
Lemma rename_pass_raise (pass : list (string * string)) :
  ∀ mgr,
    Exists (fun x => get_layer_prefix (first_component x.2) = None) pass →
    ∃ e, rename_pass mgr pass = Raise e ∧ invalid_prefix_error e.
Proof.
  induction pass as [|[layer_id old_name] pass IH]; intros mgr Hex; simpl.
  - by apply Exists_nil in Hex.
  - destruct (get_layer_prefix (first_component old_name)) as [role|] eqn:Hrole.
    + apply Exists_cons in Hex as [Hx|Hex]; [simpl in Hx; congruence|].
      destruct (get_new_param_name_is_ok mgr layer_id old_name) as [[m1 n1] ->];
        [by rewrite Hrole|].
      simpl. destruct (IH m1 Hex) as (e & -> & He). eauto.
    + rewrite get_new_param_name_raise by done. simpl.
      eexists; split; [done|]. by eexists _, _.
Qed.

Lemma rename_pass_raise_inv (pass : list (string * string)) :
  ∀ mgr e,
    rename_pass mgr pass = Raise e →
    invalid_prefix_error e ∧
    Exists (fun x => get_layer_prefix (first_component x.2) = None) pass.
Proof.
  induction pass as [|[layer_id old_name] pass IH]; intros mgr e; simpl; [done|].
  destruct (get_layer_prefix (first_component old_name)) as [role|] eqn:Hrole.
  - destruct (get_new_param_name_is_ok mgr layer_id old_name) as [[m1 n1] ->];
      [by rewrite Hrole|].
    simpl. destruct (rename_pass m1 pass) as [[m2 ns]|e'] eqn:E; simpl; [done|].
    intros [= <-]. destruct (IH _ _ E) as [? ?]. split; [done|].
    by apply Exists_cons_tl.
  - rewrite get_new_param_name_raise by done. simpl. intros [= <-].
    split; [by eexists _, _|]. by apply Exists_cons_hd.
Qed.

Lemma invalid_msg_nonempty (sub_layer_name : string) (prefix : option string) :
  invalid_msg sub_layer_name prefix ≠ "".
Proof. unfold invalid_msg. by destruct sub_layer_name. Qed.

Lemma invalid_prefix_error_not_plain : ¬ invalid_prefix_error (AssertionError "").
Proof.
  intros (n & p & [= H]). symmetry in H. by apply invalid_msg_nonempty in H.
Qed.

Lemma presented_segment_in (stage : PipeLineStage) (item : nat * nat)
    (segment : PipeLineSegment) (x : string * string * string) :
  item ∈ st_segments stage → st_objects stage !! item.2 = Some segment →
  x ∈ presented_by_segment segment → x ∈ presented stage.
Proof.
  intros Hitem Hobj Hx. unfold presented.
  apply list_elem_of_In, in_concat.
  exists (presented_by_segment segment). split; [|by apply list_elem_of_In].
  apply in_map_iff. exists item. rewrite Hobj. split; [done|].
  by apply list_elem_of_In.
Qed.

(** When every tensor name of the stage carries a known role, the assertion
    of [get_sub_scope] does not fire in [build_name_mapping]. *)
Lemma build_name_mapping_valid (stage : PipeLineStage) (e : exn) :
  Forall (fun x => is_Some (get_layer_prefix (first_component x.2)))
         (presented stage) →
  build_name_mapping stage = Raise e → ¬ invalid_prefix_error e.
Proof.
  intros Hall Hraise Hinv. unfold build_name_mapping in Hraise.
  destruct (for_each _ _ _) as [s|e'] eqn:E; [done|]. simpl in Hraise.
  injection Hraise as ->.
  apply for_each_raise in E as (item & t & Hitem & Ht).
  unfold name_segment in Ht.
  destruct (st_objects stage !! item.2) as [segment|] eqn:Hobj.
  - rewrite (proj2 (list_get_ok _ _ _) Hobj) in Ht. simpl in Ht.
    unfold segment_layers_of in Ht.
    destruct (seg_cur_index segment =? seg_end_index segment); simpl in Ht.
    + rewrite name_layers_flat in Ht. destruct t as [mgr table].
      rewrite name_presented_pass in Ht.
      destruct (rename_pass _ _) as [r|e'] eqn:E; [done|]. simpl in Ht.
      injection Ht as ->.
      apply rename_pass_raise_inv in E as [_ Hex].
      apply Exists_exists in Hex as (y & Hy & Hnone).
      apply list_elem_of_fmap in Hy as (x & -> & Hx).
      rewrite Forall_forall in Hall.
      destruct (Hall x) as [role Hrole].
      * eapply presented_segment_in; eauto.
      * unfold renamer_input in Hnone. simpl in Hnone. congruence.
    + injection Ht as <-. by apply invalid_prefix_error_not_plain.
  - unfold list_get in Ht. rewrite Hobj in Ht. simpl in Ht. injection Ht as <-.
    by destruct Hinv as (? & ? & ?).
Qed.

Lemma build_name_mapping_ok (stage stage' : PipeLineStage) :
  build_name_mapping stage = Ok stage' ↔
  stage_ready stage ∧
  ∃ mgr names,
    rename_pass (st_rename_mgr stage) (map renamer_input (presented stage))
      = Ok (mgr, names) ∧
    stage' = {| st_rename_mgr := mgr;
                st_objects := st_objects stage;
                st_segments := st_segments stage;
                st_layer_to_segment := st_layer_to_segment stage;
                st_param_to_tname :=
                  record_names (st_param_to_tname stage) (presented stage) names |}.
Proof.
  split.
  - intros H. pose proof (build_name_mapping_ok_ready _ _ H) as Hready.
    split; [done|]. rewrite build_name_mapping_ready in H by done.
    rewrite name_presented_pass in H.
    destruct (rename_pass _ _) as [[mgr names]|e]; [|done]. simpl in H.
    injection H as <-. eauto.
  - intros (Hready & mgr & names & Hpass & ->).
    rewrite build_name_mapping_ready by done.
    by rewrite name_presented_pass, Hpass.
Qed.

(** On a stage whose segments are full, [build_name_mapping] returns exactly
    when every tensor name carries a known role, and raises the assertion of
    [get_sub_scope] otherwise. *)
Lemma build_name_mapping_total (stage : PipeLineStage) :
  stage_ready stage →
  Forall (fun x => is_Some (get_layer_prefix (first_component x.2)))
         (presented stage) →
  is_ok (build_name_mapping stage).
Proof.
  intros Hready Hall.
  destruct (rename_pass_is_ok (map renamer_input (presented stage))
              (st_rename_mgr stage)) as [[mgr names] Hpass].
  { apply Forall_fmap. eapply Forall_impl; [exact Hall|]. by intros [[? ?] ?]. }
  eexists. apply build_name_mapping_ok. eauto.
Qed.

Lemma build_name_mapping_invalid (stage : PipeLineStage) :
  stage_ready stage →
  Exists (fun x => get_layer_prefix (first_component x.2) = None)
         (presented stage) →
  ∃ e, build_name_mapping stage = Raise e ∧ invalid_prefix_error e.
Proof.
  intros Hready Hex. rewrite build_name_mapping_ready by done.
  rewrite name_presented_pass.
  destruct (rename_pass_raise (map renamer_input (presented stage))
              (st_rename_mgr stage)) as (e & -> & He).
  { apply Exists_fmap. eapply Exists_impl; [exact Hex|]. by intros [[? ?] ?]. }
  eauto.
Qed.

(** ** The table recorded by a pass *)

Lemma record_names_snoc (table : gmap string (string * string))
    (params : list (string * string * string)) (names : list string)
    (x : string * string * string) (n : string) :
  length names = length params →
  record_names table (params ++ [x]) (names ++ [n])
  = <[x.1.2 := (x.2, n)]> (record_names table params names).
Proof.
  intros Hlen. unfold record_names.
  rewrite zip_with_app by done. by rewrite fold_left_app.
Qed.

Lemma record_names_lookup (params : list (string * string * string)) :
  ∀ (names : list string) (table : gmap string (string * string)) (k : string),
    length names = length params →
    record_names table params names !! k = table !! k ∨
    ∃ i layer t n, params !! i = Some (layer, k, t) ∧ names !! i = Some n ∧
                   record_names table params names !! k = Some (t, n).
Proof.
  induction params as [|x params IH] using rev_ind; intros names table k Hlen.
  - left. by destruct names.
  - destruct names as [|n names _] using rev_ind;
      [rewrite length_app in Hlen; simpl in Hlen; lia|].
    rewrite !length_app in Hlen. simpl in Hlen.
    rewrite record_names_snoc by lia.
    destruct (decide (x.1.2 = k)) as [<-|Hne].
    + right. exists (length params), x.1.1, x.2, n.
      rewrite lookup_insert_eq. destruct x as [[? ?] ?]. simpl.
      rewrite !lookup_app_r by lia.
      replace (length params - length names) with 0 by lia.
      by rewrite Nat.sub_diag.
    + rewrite lookup_insert_ne by done.
      destruct (IH names table k ltac:(lia)) as [->|(i & l & t & n' & Hp & Hn & ->)];
        [by left|].
      right. exists i, l, t, n'.
      by rewrite (lookup_app_l_Some _ _ _ _ Hp), (lookup_app_l_Some _ _ _ _ Hn).
Qed.

Lemma record_names_miss (params : list (string * string * string)) :
  ∀ (names : list string) (table : gmap string (string * string)) (k : string),
    k ∉ map (fun x => x.1.2) params →
    record_names table params names !! k = table !! k.
Proof.
  unfold record_names.
  induction params as [|x params IH]; intros names table k Hk; [done|].
  destruct names as [|n names]; [done|]. simpl in *.
  apply not_elem_of_cons in Hk as [Hne Hk].
  rewrite IH by done. by rewrite lookup_insert_ne.
Qed.

Lemma record_names_hit (params : list (string * string * string)) :
  ∀ (names : list string) (table : gmap string (string * string)) (k : string),
    length names = length params →
    k ∈ map (fun x => x.1.2) params →
    ∃ i layer t n, params !! i = Some (layer, k, t) ∧ names !! i = Some n ∧
                   record_names table params names !! k = Some (t, n).
Proof.
  induction params as [|x params IH] using rev_ind; intros names table k Hlen Hk.
  - by apply elem_of_nil in Hk.
  - destruct names as [|n names _] using rev_ind;
      [rewrite length_app in Hlen; simpl in Hlen; lia|].
    rewrite !length_app in Hlen. simpl in Hlen.
    rewrite record_names_snoc by lia.
    destruct (decide (x.1.2 = k)) as [<-|Hne].
    + exists (length params), x.1.1, x.2, n.
      rewrite lookup_insert_eq. destruct x as [[? ?] ?]. simpl.
      rewrite !lookup_app_r by lia.
      replace (length params - length names) with 0 by lia.
      by rewrite Nat.sub_diag.
    + rewrite lookup_insert_ne by done.
      rewrite map_app, elem_of_app in Hk. destruct Hk as [Hk|Hk].
      * destruct (IH names table k ltac:(lia) Hk) as (i & l & t & n' & Hp & Hn & ->).
        exists i, l, t, n'.
        by rewrite (lookup_app_l_Some _ _ _ _ Hp), (lookup_app_l_Some _ _ _ _ Hn).
      * simpl in Hk. apply list_elem_of_singleton in Hk. done.
Qed.

(** ** [sorted] *)

Section SortedFacts.
Context {A : Type} (le : A → A → bool).
Let R : relation A := fun x y => le x y = true.
Hypothesis le_total : ∀ x y, le x y = true ∨ le y x = true.

Lemma sorted_insert_perm (x : A) (l : list A) : sorted_insert le x l ≡ₚ x :: l.
Proof.
  induction l as [|y l IH]; simpl; [done|].
  destruct (le x y); [done|]. rewrite IH. apply Permutation_swap.
Qed.

Lemma sorted_perm (l : list A) : sorted le l ≡ₚ l.
Proof.
  induction l as [|x l IH]; simpl; [done|].
  by rewrite sorted_insert_perm, IH.
Qed.

Lemma sorted_insert_Sorted (x : A) (l : list A) :
  Sorted R l → Sorted R (sorted_insert le x l).
Proof.
  induction 1 as [|y l Hs IH Hhd]; simpl; [by repeat constructor|].
  destruct (le x y) eqn:E.
  - constructor; [by constructor|]. by constructor.
  - constructor; [done|].
    destruct l as [|z l]; simpl.
    + constructor. unfold R. destruct (le_total x y); congruence.
    + destruct (le x z).
      * constructor. unfold R. destruct (le_total x y); congruence.
      * constructor. by inversion Hhd.
Qed.

Lemma sorted_Sorted (l : list A) : Sorted R (sorted le l).
Proof.
  induction l as [|x l IH]; simpl; [constructor|].
  by apply sorted_insert_Sorted.
Qed.
End SortedFacts.

(** The order of strings. *)
Lemma string_leb_trans (s1 s2 s3 : string) :
  String.leb s1 s2 = true → String.leb s2 s3 = true → String.leb s1 s3 = true.
Proof.
  unfold String.leb. revert s2 s3.
  induction s1 as [|c1 s1 IH]; intros [|c2 s2] [|c3 s3]; simpl; try done.
  unfold Ascii.compare.
  destruct (N.compare_spec (N_of_ascii c1) (N_of_ascii c2)) as [E12|L12|G12];
    try done;
  destruct (N.compare_spec (N_of_ascii c2) (N_of_ascii c3)) as [E23|L23|G23];
    try done;
  destruct (N.compare_spec (N_of_ascii c1) (N_of_ascii c3)) as [E13|L13|G13];
    try done; try lia.
  apply IH.
Qed.

Lemma tuple_le_total (x y : Z * string) : tuple_le x y = true ∨ tuple_le y x = true.
Proof.
  unfold tuple_le. destruct x as [i s], y as [j t]. simpl.
  destruct (Z.ltb_spec i j), (Z.ltb_spec j i); simpl; auto; try lia.
  assert (i = j) as -> by lia. rewrite Z.eqb_refl. simpl.
  apply String.leb_total.
Qed.

Lemma tuple_le_fst (x y : Z * string) : tuple_le x y = true → (x.1 ≤ y.1)%Z.
Proof.
  unfold tuple_le.
  destruct (Z.ltb_spec x.1 y.1), (Z.eqb_spec x.1 y.1); simpl; try done; lia.
Qed.

(** Sorting by tensor name: the sorted list is a permutation of the list,
    and its tensor names are in order. *)
Lemma sorted_by_tensor_name (l : list (string * string)) :
  StronglySorted (fun s t => String.leb s t = true)
                 (map snd (sorted (fun x y => String.leb x.2 y.2) l)).
Proof.
  apply Sorted_StronglySorted.
  { intros s1 s2 s3. apply string_leb_trans. }
  apply (Sorted_fmap snd
           (fun x y : string * string => String.leb x.2 y.2 = true)); [done|].
  apply sorted_Sorted. intros x y. apply String.leb_total.
Qed.

(** Two permutations of one list have the same tensor names once sorted. *)
Lemma sorted_tensor_names_perm (l1 l2 : list (string * string)) :
  l1 ≡ₚ l2 →
  map snd (sorted (fun x y => String.leb x.2 y.2) l1)
  = map snd (sorted (fun x y => String.leb x.2 y.2) l2).
Proof.
  intros Hperm.
  apply (StronglySorted_unique_strong (fun s t => String.leb s t = true)).
  - intros s t _ _. apply String.leb_antisym.
  - apply sorted_by_tensor_name.
  - apply sorted_by_tensor_name.
  - apply fmap_Permutation. by rewrite !sorted_perm, Hperm.
Qed.

(** ** Indexing the layers *)

Lemma transformer_layer_num_ok (_transformer_layer_num : option Z)
    (param_names_by_layer : list (string * list (string * string))) (n : Z) :
  transformer_layer_num _transformer_layer_num param_names_by_layer = Ok n →
  (n + 3)%Z = Z.of_nat (length param_names_by_layer).
Proof.
  unfold transformer_layer_num.
  destruct _transformer_layer_num as [m|]; [|intros [= <-]; lia].
  destruct (negb (m =? 0)%Z && (0 <? m)%Z); [|intros [= <-]; lia].
  intros (u & Hu%assert_ok%Z.eqb_eq & [= <-])%bind_ok. lia.
Qed.

Lemma transformer_layer_num_length (_transformer_layer_num : option Z)
    (cat1 cat2 : list (string * list (string * string))) :
  length cat1 = length cat2 →
  transformer_layer_num _transformer_layer_num cat1
  = transformer_layer_num _transformer_layer_num cat2.
Proof. unfold transformer_layer_num. by intros ->. Qed.

Lemma index_layer_ordinal (n : Z) (layer_name : string) :
  is_ok (index_layer layer_name (Some n)) →
  index_layer layer_name (Some n) = Ok (ordinal n layer_name).
Proof. unfold ordinal. by intros [i ->]. Qed.

Lemma index_layers_fold (_transformer_layer_num : option Z)
    (param_names_by_layer : list (string * list (string * string))) (n : Z)
    (keys : list string) :
  transformer_layer_num _transformer_layer_num param_names_by_layer = Ok n →
  Forall (fun k => is_ok (index_layer k (Some n))) keys →
  ∀ (m1 : gmap string Z) (m2 : gmap Z string),
    for_each (fun maps layer_name =>
        n <- transformer_layer_num _transformer_layer_num param_names_by_layer ;;
        index <- index_layer layer_name (Some n) ;;
        Ok (<[layer_name := index]> maps.1, <[index := layer_name]> maps.2))
      keys (m1, m2)
    = Ok (fold_left (fun (m : gmap string Z) k => <[k := ordinal n k]> m) keys m1,
          fold_left (fun (m : gmap Z string) k => <[ordinal n k := k]> m) keys m2).
Proof.
  intros Hn. set (body := fun maps layer_name => _).
  induction 1 as [|k keys Hk _ IH]; intros m1 m2; simpl; [done|].
  assert (body (m1, m2) k = Ok (<[k := ordinal n k]> m1, <[ordinal n k := k]> m2))
    as ->.
  { unfold body. rewrite Hn. simpl. by rewrite (index_layer_ordinal _ _ Hk). }
  apply IH.
Qed.

Lemma index_layers_ok (_transformer_layer_num : option Z)
    (param_names_by_layer : list (string * list (string * string))) (n : Z) :
  transformer_layer_num _transformer_layer_num param_names_by_layer = Ok n →
  Forall (fun k => is_ok (index_layer k (Some n))) (map fst param_names_by_layer) →
  _index_layers _transformer_layer_num param_names_by_layer
  = Ok (name_to_index_of n (map fst param_names_by_layer),
        index_to_name_of n (map fst param_names_by_layer)).
Proof. intros Hn Hall. by apply index_layers_fold. Qed.

(** [_index_layers] returns only if [index_layer] returns on every layer
    name of the catalogue. *)
Lemma index_layers_ok_inv (_transformer_layer_num : option Z)
    (param_names_by_layer : list (string * list (string * string))) (n : Z)
    (maps : gmap string Z * gmap Z string) :
  transformer_layer_num _transformer_layer_num param_names_by_layer = Ok n →
  _index_layers _transformer_layer_num param_names_by_layer = Ok maps →
  Forall (fun k => is_ok (index_layer k (Some n))) (map fst param_names_by_layer).
Proof.
  intros Hn Hok. apply Forall_forall. intros k Hk.
  destruct (for_each_ok_elem _ _ _ _ _ Hok Hk) as (t & t' & Ht).
  rewrite Hn in Ht. simpl in Ht.
  apply bind_ok in Ht as (i & Hi & _). by exists i.
Qed.

Lemma fold_name_to_index (n : Z) (keys : list string) :
  ∀ (m : gmap string Z) (k : string),
    fold_left (fun (m : gmap string Z) k => <[k := ordinal n k]> m) keys m !! k
    = if decide (k ∈ keys) then Some (ordinal n k) else m !! k.
Proof.
  induction keys as [|k' keys IH]; intros m k; cbn [fold_left].
  - destruct (decide (k ∈ [])) as [Hin|]; [by apply elem_of_nil in Hin|done].
  - rewrite IH. destruct (decide (k ∈ keys)) as [Hin|Hnotin].
    + destruct (decide (k ∈ k' :: keys)) as [|Hin']; [done|].
      destruct Hin'. by right.
    + destruct (decide (k = k')) as [->|Hne].
      * rewrite lookup_insert_eq.
        destruct (decide (k' ∈ k' :: keys)) as [|Hin']; [done|].
        destruct Hin'. by left.
      * rewrite lookup_insert_ne by done.
        destruct (decide (k ∈ k' :: keys)) as [Hin'|]; [|done].
        by apply elem_of_cons in Hin' as [?|?].
Qed.

Lemma name_to_index_lookup (n : Z) (keys : list string) (k : string) :
  name_to_index_of n keys !! k
  = if decide (k ∈ keys) then Some (ordinal n k) else None.
Proof. unfold name_to_index_of. by rewrite fold_name_to_index, lookup_empty. Qed.

Lemma fold_index_to_name_inv (n : Z) (keys : list string) :
  ∀ (m : gmap Z string) (i : Z) (k : string),
    fold_left (fun (m : gmap Z string) k => <[ordinal n k := k]> m) keys m !! i = Some k →
    (k ∈ keys ∧ ordinal n k = i) ∨ m !! i = Some k.
Proof.
  induction keys as [|k' keys IH]; intros m i k; simpl; [by right|].
  intros [[Hin Ho]|Hm]%IH.
  - left. split; [by right|done].
  - destruct (decide (ordinal n k' = i)) as [<-|Hne].
    + rewrite lookup_insert_eq in Hm. injection Hm as <-. left. split; [by left|done].
    + rewrite lookup_insert_ne in Hm by done. by right.
Qed.

Lemma fold_index_to_name_keep (n : Z) (keys : list string) :
  ∀ (m : gmap Z string) (i : Z),
    is_Some (m !! i) →
    is_Some (fold_left (fun (m : gmap Z string) k => <[ordinal n k := k]> m) keys m !! i).
Proof.
  induction keys as [|k keys IH]; intros m i Hi; simpl; [done|].
  apply IH. destruct (decide (ordinal n k = i)) as [<-|?].
  - rewrite lookup_insert_eq. by eexists.
  - by rewrite lookup_insert_ne.
Qed.

Lemma fold_index_to_name_dom (n : Z) (keys : list string) :
  ∀ (m : gmap Z string) (k : string),
    k ∈ keys →
    is_Some (fold_left (fun (m : gmap Z string) k => <[ordinal n k := k]> m) keys m
               !! ordinal n k).
Proof.
  induction keys as [|k' keys IH]; intros m k; simpl; [by intros ?%elem_of_nil|].
  intros [->|Hin]%elem_of_cons; [|by apply IH].
  apply fold_index_to_name_keep. rewrite lookup_insert_eq. by eexists.
Qed.

(** Where [index_layer] is injective on the layer names, the table from
    ordinals to names is the inverse of the table from names to ordinals. *)
Lemma index_to_name_lookup (n : Z) (keys : list string) (i : Z) (k : string) :
  (∀ k1 k2, k1 ∈ keys → k2 ∈ keys → ordinal n k1 = ordinal n k2 → k1 = k2) →
  index_to_name_of n keys !! i = Some k ↔ k ∈ keys ∧ ordinal n k = i.
Proof.
  intros Hinj. unfold index_to_name_of. split.
  - intros [?|Hm]%fold_index_to_name_inv; [done|]. by rewrite lookup_empty in Hm.
  - intros [Hin <-].
    destruct (fold_index_to_name_dom n keys ∅ k Hin) as [k' Hk'].
    pose proof Hk' as [[Hin' Ho]|Hm]%fold_index_to_name_inv;
      [|by rewrite lookup_empty in Hm].
    assert (k = k') as -> by (by apply Hinj). done.
Qed.

Lemma index_to_name_dom (n : Z) (keys : list string) (i : Z) :
  is_Some (index_to_name_of n keys !! i) ↔ ∃ k, k ∈ keys ∧ ordinal n k = i.
Proof.
  unfold index_to_name_of. split.
  - intros [k [?|Hm]%fold_index_to_name_inv]; [by exists k|].
    by rewrite lookup_empty in Hm.
  - intros (k & Hin & <-). by apply fold_index_to_name_dom.
Qed.

Lemma name_to_index_perm (n : Z) (keys keys' : list string) :
  keys ≡ₚ keys' → name_to_index_of n keys = name_to_index_of n keys'.
Proof.
  intros Hperm. apply map_eq. intros k. rewrite !name_to_index_lookup.
  destruct (decide (k ∈ keys)) as [Hin|Hnotin];
    destruct (decide (k ∈ keys')) as [Hin'|Hnotin']; try done.
  - destruct Hnotin'. by rewrite <- Hperm.
  - destruct Hnotin. by rewrite Hperm.
Qed.

Lemma index_to_name_perm (n : Z) (keys keys' : list string) :
  keys ≡ₚ keys' →
  (∀ k1 k2, k1 ∈ keys → k2 ∈ keys → ordinal n k1 = ordinal n k2 → k1 = k2) →
  index_to_name_of n keys = index_to_name_of n keys'.
Proof.
  intros Hperm Hinj. apply map_eq. intros i. apply option_eq. intros k.
  rewrite !index_to_name_lookup; [by rewrite Hperm|..].
  - intros k1 k2 H1 H2. apply Hinj; by rewrite Hperm.
  - done.
Qed.

(** Layer names that fill every ordinal below their number are in bijection
    with these ordinals. *)
Lemma ordinals_bijective (n : Z) (keys : list string) :
  NoDup keys →
  (∀ j, j < length keys → ∃ k, k ∈ keys ∧ ordinal n k = Z.of_nat j) →
  (∀ k1 k2, k1 ∈ keys → k2 ∈ keys → ordinal n k1 = ordinal n k2 → k1 = k2) ∧
  (∀ k, k ∈ keys → (0 ≤ ordinal n k < Z.of_nat (length keys))%Z).
Proof.
  intros Hnd Hcover.
  assert (NoDup (map Z.of_nat (seq 0 (length keys)))) as Hseq
    by (apply NoDup_fmap_2; [apply _|apply NoDup_seq]).
  assert (map Z.of_nat (seq 0 (length keys)) ≡ₚ map (ordinal n) keys) as Hperm.
  { apply submseteq_length_Permutation.
    - apply NoDup_submseteq; [done|].
      intros i (j & -> & Hj%list_elem_of_In%in_seq)%list_elem_of_fmap.
      destruct (Hcover j ltac:(lia)) as (k & Hk & <-).
      apply list_elem_of_fmap. by exists k.
    - by rewrite !length_map, length_seq. }
  split.
  - intros k1 k2 H1 H2 Heq.
    assert (NoDup (map (ordinal n) keys)) as Hnd' by (by rewrite <- Hperm).
    apply list_elem_of_lookup in H1 as [i1 H1], H2 as [i2 H2].
    assert (i1 = i2) as ->; [|congruence].
    eapply NoDup_lookup; [exact Hnd'| |].
    + by rewrite list_lookup_fmap, H1.
    + by rewrite list_lookup_fmap, H2, Heq.
  - intros k Hk.
    assert (ordinal n k ∈ map Z.of_nat (seq 0 (length keys))) as Hin.
    { rewrite Hperm. apply list_elem_of_fmap. by exists k. }
    apply list_elem_of_fmap in Hin as (j & -> & Hj%list_elem_of_In%in_seq). lia.
Qed.

(** ** Placing the layers on the stages *)

(** What the body of a loop establishes for its element and never undoes
    holds for every element at the end of the loop. *)
Lemma for_each_collect {A St : Type} (Q : A → St → Prop)
    (body : St → A → outcome St) (xs : list A) (s s' : St) :
  (∀ t x t', x ∈ xs → body t x = Ok t' → Q x t') →
  (∀ t x t' y, x ∈ xs → body t x = Ok t' → Q y t → Q y t') →
  for_each body xs s = Ok s' → ∀ x, x ∈ xs → Q x s'.
Proof.
  revert s; induction xs as [|x xs IH]; intros s Hest Hkeep; simpl.
  - by intros _ y ?%elem_of_nil.
  - intros (t & Ht & Hrest)%bind_ok y Hy.
    assert (∀ u, Q y u → for_each body xs u = Ok s' → Q y s') as Hpres.
    { intros u Hu Hrun.
      apply (for_each_invariant (Q y) body xs u s' Hu); [|done].
      intros v z v' Hz Hv Hb. eapply Hkeep; [by right|exact Hb|exact Hv]. }
    apply elem_of_cons in Hy as [->|Hy].
    + apply (Hpres t); [|done]. eapply Hest; [by left|done].
    + eapply IH; [| |exact Hrest|done].
      * intros u z u' Hz. apply Hest. by right.
      * intros u z u' w Hz. apply Hkeep. by right.
Qed.

Lemma elem_of_enumerate_from {A : Type} (l : list A) :
  ∀ (n i : nat) (x : A),
    (i, x) ∈ enumerate_from n l → n ≤ i < n + length l ∧ l !! (i - n) = Some x.
Proof.
  induction l as [|y l IH]; intros n i x; simpl; [by intros ?%elem_of_nil|].
  intros [[= -> ->]|Hin]%elem_of_cons.
  - split; [lia|]. by rewrite Nat.sub_diag.
  - apply IH in Hin as [? Hl]. split; [lia|].
    replace (i - n) with (S (i - S n)) by lia. done.
Qed.

Lemma elem_of_enumerate_from_2 {A : Type} (l : list A) :
  ∀ (n i : nat) (x : A), l !! i = Some x → (n + i, x) ∈ enumerate_from n l.
Proof.
  induction l as [|y l IH]; intros n i x; simpl; [done|].
  destruct i as [|i]; simpl.
  - intros [= ->]. rewrite Nat.add_0_r. by left.
  - intros Hl. right. replace (n + S i) with (S n + i) by lia. by apply IH.
Qed.

Lemma elem_of_all_ordinals (segs : list (list (nat * nat))) (j : nat) :
  j ∈ all_ordinals segs ↔
  ∃ stage_seg seg, stage_seg ∈ segs ∧ seg ∈ stage_seg ∧ j ∈ range seg.1 seg.2.
Proof.
  unfold all_ordinals, ordinals_of. rewrite list_elem_of_In, in_concat. split.
  - intros (r & Hr%in_map_iff & Hj). destruct Hr as (seg & <- & Hseg%in_concat).
    destruct Hseg as (stage_seg & ? & ?).
    exists stage_seg, seg. by rewrite !list_elem_of_In.
  - intros (stage_seg & seg & H1 & H2 & H3).
    apply list_elem_of_In in H1. apply list_elem_of_In in H2.
    apply list_elem_of_In in H3.
    exists (range seg.1 seg.2). split; [|done].
    apply in_map_iff. exists seg. split; [done|].
    apply in_concat. by exists stage_seg.
Qed.

Section Placement.
Variables (layer_index_to_name : gmap Z string)
          (param_names_by_layer : list (string * list (string * string))).

Lemma place_layer_ok (i : nat) (f f' : filling) (j : nat) :
  place_layer layer_index_to_name param_names_by_layer i f j = Ok f' →
  ∃ layer_name param_names pipe_stage,
    layer_index_to_name !! Z.of_nat j = Some layer_name ∧
    od_get param_names_by_layer layer_name = Some param_names ∧
    add_layer (fl_stage f) (Z.of_nat j) layer_name param_names = Ok pipe_stage ∧
    f' = {| fl_stage := pipe_stage;
            fl_layer_index_to_stage := <[Z.of_nat j := i]> (fl_layer_index_to_stage f);
            fl_layer_name_to_stage := <[layer_name := i]> (fl_layer_name_to_stage f) |}.
Proof.
  unfold place_layer.
  destruct (layer_index_to_name !! Z.of_nat j) as [layer_name|] eqn:Hname; [|done].
  destruct (od_get param_names_by_layer layer_name) as [param_names|] eqn:Hget;
    [|done].
  destruct (add_layer _ _ _ _) as [pipe_stage|] eqn:Hadd; simpl; [|done].
  intros [= <-]. by exists layer_name, param_names, pipe_stage.
Qed.

Lemma place_layer_owned (i : nat) (f f' : filling) (j : nat) :
  place_layer layer_index_to_name param_names_by_layer i f j = Ok f' →
  is_Some (layer_index_to_name !! Z.of_nat j) ∧
  fl_layer_index_to_stage f' !! Z.of_nat j = Some i ∧
  (∀ z, is_Some (fl_layer_index_to_stage f !! z) →
        is_Some (fl_layer_index_to_stage f' !! z)) ∧
  (∀ bound, i < bound → owners_below bound (fl_layer_index_to_stage f) →
            owners_below bound (fl_layer_index_to_stage f')).
Proof.
  intros (layer_name & param_names & pipe_stage & Hname & _ & _ & ->)%place_layer_ok.
  simpl. split; [by eexists|]. split; [by rewrite lookup_insert_eq|]. split.
  - intros z Hz. destruct (decide (Z.of_nat j = z)) as [<-|?].
    + rewrite lookup_insert_eq. by eexists.
    + by rewrite lookup_insert_ne.
  - intros bound Hi Hb z i'. destruct (decide (Z.of_nat j = z)) as [<-|?].
    + rewrite lookup_insert_eq. by intros [= <-].
    + rewrite lookup_insert_ne by done. apply Hb.
Qed.

Lemma place_segment_owned (i : nat) (f f' : filling) (seg : nat * nat) :
  place_segment layer_index_to_name param_names_by_layer i f seg = Ok f' →
  (∀ j, j ∈ range seg.1 seg.2 →
        is_Some (layer_index_to_name !! Z.of_nat j) ∧
        is_Some (fl_layer_index_to_stage f' !! Z.of_nat j)) ∧
  (∀ z, is_Some (fl_layer_index_to_stage f !! z) →
        is_Some (fl_layer_index_to_stage f' !! z)) ∧
  (∀ bound, i < bound → owners_below bound (fl_layer_index_to_stage f) →
            owners_below bound (fl_layer_index_to_stage f')).
Proof.
  unfold place_segment. set (f0 := {| fl_stage := _ |}).
  intros Hrun. split; [|split].
  - intros j Hj. revert j Hj.
    apply (for_each_collect
             (fun j f => is_Some (layer_index_to_name !! Z.of_nat j) ∧
                         is_Some (fl_layer_index_to_stage f !! Z.of_nat j))
             _ _ _ _ ) with (3 := Hrun).
    + intros t j t' _ (Hn & Hs & _)%place_layer_owned. split; [done|by eexists].
    + intros t j t' y _ (_ & _ & Hkeep & _)%place_layer_owned [? ?]. auto.
  - intros z Hz.
    apply (for_each_invariant
             (fun f => is_Some (fl_layer_index_to_stage f !! z)) _ _ _ _)
      with (3 := Hrun); [done|].
    intros t j t' _ Ht (_ & _ & Hkeep & _)%place_layer_owned. auto.
  - intros bound Hi Hb.
    apply (for_each_invariant
             (fun f => owners_below bound (fl_layer_index_to_stage f)) _ _ _ _)
      with (3 := Hrun); [done|].
    intros t j t' _ Ht (_ & _ & _ & Hkeep)%place_layer_owned. auto.
Qed.

Lemma place_stage_owned
    (s s' : list PipeLineStage * gmap Z nat * gmap string nat)
    (item : nat * list (nat * nat)) :
  place_stage layer_index_to_name param_names_by_layer s item = Ok s' →
  length s'.1.1 = length s.1.1 + 1 ∧
  (∀ seg j, seg ∈ item.2 → j ∈ range seg.1 seg.2 →
            is_Some (layer_index_to_name !! Z.of_nat j) ∧
            is_Some (s'.1.2 !! Z.of_nat j)) ∧
  (∀ z, is_Some (s.1.2 !! z) → is_Some (s'.1.2 !! z)) ∧
  (∀ bound, item.1 < bound → owners_below bound s.1.2 → owners_below bound s'.1.2).
Proof.
  destruct s as [[stages i2s] n2s], item as [i stage_seg]. unfold place_stage.
  intros (f & Hrun & [= <-])%bind_ok. simpl.
  split; [by rewrite length_app|]. split; [|split].
  - intros seg j Hseg Hj. revert seg Hseg j Hj.
    apply (for_each_collect
             (fun seg f => ∀ j, j ∈ range seg.1 seg.2 →
                is_Some (layer_index_to_name !! Z.of_nat j) ∧
                is_Some (fl_layer_index_to_stage f !! Z.of_nat j))
             _ _ _ _) with (3 := Hrun).
    + intros t seg t' _ (Hj & _)%place_segment_owned. done.
    + intros t seg t' y _ (_ & Hkeep & _)%place_segment_owned Hy j Hj.
      destruct (Hy j Hj). auto.
  - intros z Hz.
    apply (for_each_invariant
             (fun f => is_Some (fl_layer_index_to_stage f !! z)) _ _ _ _)
      with (3 := Hrun); [done|].
    intros t seg t' _ Ht (_ & Hkeep & _)%place_segment_owned. auto.
  - intros bound Hi Hb.
    apply (for_each_invariant
             (fun f => owners_below bound (fl_layer_index_to_stage f)) _ _ _ _)
      with (3 := Hrun); [done|].
    intros t seg t' _ Ht (_ & _ & Hkeep)%place_segment_owned. auto.
Qed.

(** After the loop of lines 278-289 every ordinal of a segment has a layer
    name and an owning stage, and the owners are stages of the loop. *)
Lemma place_stages_owned (stage_segments : list (list (nat * nat)))
    (s' : list PipeLineStage * gmap Z nat * gmap string nat) :
  for_each (place_stage layer_index_to_name param_names_by_layer)
           (enumerate stage_segments) ([], ∅, ∅) = Ok s' →
  length s'.1.1 = length stage_segments ∧
  (∀ j, j ∈ all_ordinals stage_segments →
        is_Some (layer_index_to_name !! Z.of_nat j) ∧
        ∃ i, s'.1.2 !! Z.of_nat j = Some i ∧ i < length stage_segments) ∧
  owners_below (length stage_segments) s'.1.2.
Proof.
  intros Hrun.
  assert (owners_below (length stage_segments) s'.1.2) as Hbelow.
  { apply (for_each_invariant
             (fun s => owners_below (length stage_segments) s.1.2) _ _ _ _)
      with (3 := Hrun).
    - intros z i. simpl. by rewrite lookup_empty.
    - intros t [i stage_seg] t' [Hi _]%elem_of_enumerate_from Ht
        (_ & _ & _ & Hkeep)%place_stage_owned.
      apply Hkeep; [simpl; lia|done]. }
  split; [|split; [|done]].
  - assert (∀ xs n s0 s1,
      for_each (place_stage layer_index_to_name param_names_by_layer)
               (enumerate_from n xs) s0 = Ok s1 →
      length s1.1.1 = length s0.1.1 + length xs) as Hlen.
    { induction xs as [|x xs IH]; intros n s0 s1; simpl.
      - intros [= <-]. lia.
      - intros (t & (Ht & _)%place_stage_owned & Hrest%IH)%bind_ok. lia. }
    apply Hlen in Hrun. simpl in Hrun. lia.
  - intros j (stage_seg & seg & Hss & Hseg & Hj)%elem_of_all_ordinals.
    apply list_elem_of_lookup in Hss as [i Hi].
    pose proof (elem_of_enumerate_from_2 _ 0 _ _ Hi) as Hin. simpl in Hin.
    assert (∀ item, item ∈ enumerate stage_segments →
              ∀ seg, seg ∈ item.2 → ∀ j, j ∈ range seg.1 seg.2 →
                is_Some (layer_index_to_name !! Z.of_nat j) ∧
                is_Some (s'.1.2 !! Z.of_nat j)) as Hall.
    { apply (for_each_collect
               (fun item s => ∀ seg, seg ∈ item.2 → ∀ j, j ∈ range seg.1 seg.2 →
                  is_Some (layer_index_to_name !! Z.of_nat j) ∧
                  is_Some (s.1.2 !! Z.of_nat j))
               _ _ _ _) with (3 := Hrun).
      - intros t item t' _ (_ & Hj' & _)%place_stage_owned seg' Hseg' j' Hj''. eauto.
      - intros t item t' y _ (_ & _ & Hkeep & _)%place_stage_owned Hy seg' Hseg' j' Hj'.
        destruct (Hy seg' Hseg' j' Hj'). auto. }
    destruct (Hall (i, stage_seg) Hin seg Hseg j Hj) as [Hname [i' Hi']].
    split; [done|]. exists i'. split; [done|]. by eapply Hbelow.
Qed.
End Placement.

(** ** The construction of the context *)

Lemma build_all_ok (stages0 stages : list PipeLineStage) :
  build_all stages0 = Ok stages ↔
  Forall2 (fun stage0 stage => build_name_mapping stage0 = Ok stage) stages0 stages.
Proof.
  revert stages; induction stages0 as [|stage0 stages0 IH]; intros stages; simpl.
  - split; [intros [= <-]; constructor|by intros ->%Forall2_nil_inv_l].
  - split.
    + intros (stage & Hs & (stages' & Hrest%IH & [= <-])%bind_ok)%bind_ok.
      by constructor.
    + intros (stage & stages' & Hs & Hrest%IH & ->)%Forall2_cons_inv_l.
      by rewrite Hs, Hrest.
Qed.

Lemma new_context_ok (_transformer_layer_num : option Z)
    (pp_degree vpp_degree : nat) (segment_method : string)
    (param_names_by_layer : list (string * list (string * string)))
    (ctx : PipeLineSegmentContext) :
  new_context _transformer_layer_num pp_degree vpp_degree segment_method
              param_names_by_layer = Ok ctx ↔
  ∃ n stage_segments s stages,
    transformer_layer_num _transformer_layer_num param_names_by_layer = Ok n ∧
    Forall (fun k => is_ok (index_layer k (Some n))) (map fst param_names_by_layer) ∧
    plan_segments (Z.to_nat (n + 3)) pp_degree vpp_degree segment_method
      = Ok stage_segments ∧
    for_each (place_stage (index_to_name_of n (map fst param_names_by_layer))
                          param_names_by_layer)
             (enumerate stage_segments) ([], ∅, ∅) = Ok s ∧
    build_all s.1.1 = Ok stages ∧
    ctx = {| ctx_transformer_layer_num := _transformer_layer_num;
             ctx_pp_degree := pp_degree;
             ctx_vpp_degree := vpp_degree;
             ctx_segment_method := segment_method;
             ctx_layers := map fst param_names_by_layer;
             ctx_stages := stages;
             ctx_layer_index_to_stage := s.1.2;
             ctx_layer_name_to_index :=
               name_to_index_of n (map fst param_names_by_layer);
             ctx_layer_index_to_name :=
               index_to_name_of n (map fst param_names_by_layer);
             ctx_layer_name_to_stage := s.2;
             ctx_param_names_by_layer := param_names_by_layer |}.
Proof.
  unfold new_context, _segment. split.
  - intros (maps & Hmaps & Hrest)%bind_ok.
    apply bind_ok in Hrest as (segs & Hsegs & Hrest).
    apply bind_ok in Hsegs as (n & Hn & Hplan).
    pose proof (index_layers_ok_inv _ _ _ _ Hn Hmaps) as Hall.
    rewrite (index_layers_ok _ _ _ Hn Hall) in Hmaps. injection Hmaps as <-.
    apply bind_ok in Hrest as (s & Hs & Hrest).
    apply bind_ok in Hrest as (stages & Hstages & [= <-]).
    by exists n, segs, s, stages.
  - intros (n & segs & s & stages & Hn & Hall & Hplan & Hs & Hstages & ->).
    rewrite (index_layers_ok _ _ _ Hn Hall). simpl.
    rewrite Hn. simpl. rewrite Hplan. simpl. rewrite Hs. simpl.
    by rewrite Hstages.
Qed.

(** In a context that was built, the layer names of the catalogue are in
    bijection with the ordinals below their number, and each of them has an
    owning stage below [pp_degree]. *)
Lemma new_context_owned (_transformer_layer_num : option Z)
    (pp_degree vpp_degree : nat) (segment_method : string)
    (param_names_by_layer : list (string * list (string * string)))
    (ctx : PipeLineSegmentContext) :
  NoDup (map fst param_names_by_layer) →
  new_context _transformer_layer_num pp_degree vpp_degree segment_method
              param_names_by_layer = Ok ctx →
  ∃ n,
    transformer_layer_num _transformer_layer_num param_names_by_layer = Ok n ∧
    ctx_pp_degree ctx = pp_degree ∧ 1 ≤ pp_degree ∧
    length (ctx_stages ctx) = pp_degree ∧
    owners_below pp_degree (ctx_layer_index_to_stage ctx) ∧
    (∀ k1 k2, k1 ∈ map fst param_names_by_layer → k2 ∈ map fst param_names_by_layer →
              ordinal n k1 = ordinal n k2 → k1 = k2) ∧
    (∀ k, k ∈ map fst param_names_by_layer →
       is_ok (index_layer k (Some n)) ∧
       (0 ≤ ordinal n k < Z.of_nat (length param_names_by_layer))%Z ∧
       ctx_layer_name_to_index ctx !! k = Some (ordinal n k) ∧
       ctx_layer_index_to_name ctx !! ordinal n k = Some k ∧
       ∃ i, ctx_layer_index_to_stage ctx !! ordinal n k = Some i ∧ i < pp_degree) ∧
    (∀ k, k ∉ map fst param_names_by_layer → ctx_layer_name_to_index ctx !! k = None).
Proof.
  intros Hnd (n & segs & s & stages & Hn & Hall & Hplan & Hs & Hstages & ->)%new_context_ok.
  set (keys := map fst param_names_by_layer) in *.
  destruct (plan_segments_cover _ _ _ _ _ Hplan) as (Hpp & Hlen & Hcover).
  destruct (place_stages_owned _ _ _ _ Hs) as (Hlens & Hown & Hbelow).
  pose proof (transformer_layer_num_ok _ _ _ Hn) as HL.
  assert (Z.to_nat (n + 3) = length keys) as HL'
    by (unfold keys; rewrite length_map; lia).
  destruct (ordinals_bijective n keys Hnd) as [Hinj Hrange].
  { intros j Hj. apply index_to_name_dom, Hown, Hcover. lia. }
  exists n. simpl. split; [done|]. split; [done|]. split; [done|].
  split.
  { apply build_all_ok, Forall2_length in Hstages. lia. }
  split; [by rewrite <- Hlen|]. split; [done|]. split.
  - intros k Hk. rewrite Forall_forall in Hall.
    split; [by apply Hall|]. split.
    { unfold keys in Hrange. rewrite length_map in Hrange. by apply Hrange. }
    rewrite name_to_index_lookup. fold keys.
    destruct (decide (k ∈ keys)); [|done]. split; [done|].
    split; [by apply index_to_name_lookup|].
    destruct (Hrange k Hk) as [H0 H1].
    destruct (Hown (Z.to_nat (ordinal n k))) as [_ (i & Hi & Hlt)].
    { apply Hcover. lia. }
    rewrite Z2Nat.id in Hi by done. exists i. split; [done|lia].
  - intros k Hk. rewrite name_to_index_lookup. fold keys.
    by destruct (decide (k ∈ keys)).
Qed.

(** ** [segment_layers] *)

Lemma sorted_groups_perm (buckets : list (list (Z * string))) :
  concat (map (fun e => map snd (sorted tuple_le e)) buckets)
  ≡ₚ map snd (concat buckets).
Proof.
  induction buckets as [|b buckets IH]; simpl; [done|].
  by rewrite map_app, IH, sorted_perm.
Qed.

Lemma segment_layers_loop (self : PipeLineSegmentContext) (layer_names : list string) :
  ∀ buckets : list (list (Z * string)),
    (∀ l, l ∈ layer_names →
          ∃ o i, lookup_stage self (Some l) = Ok (o, i) ∧ i < length buckets) →
    ∃ buckets',
      for_each (fun layer_segments layer_name =>
          r <- lookup_stage self (Some layer_name) ;;
          bucket <- list_get layer_segments r.2 ;;
          list_set layer_segments r.2 (bucket ++ [(r.1, layer_name)]))
        layer_names buckets = Ok buckets' ∧
      length buckets' = length buckets ∧
      concat buckets' ≡ₚ concat buckets ++ map (layer_tuple self) layer_names ∧
      ∀ k b', buckets' !! k = Some b' →
        ∃ b, buckets !! k = Some b ∧
             ∀ x, x ∈ b' → x ∈ b ∨ (x.2 ∈ layer_names ∧
                                     lookup_stage self (Some x.2) = Ok (x.1, k)).
Proof.
  induction layer_names as [|l names IH]; intros buckets Hall; simpl.
  - exists buckets. split; [done|]. split; [done|].
    split; [by rewrite app_nil_r|]. intros k b' Hb'. exists b'. auto.
  - destruct (Hall l) as (o & i & Hl & Hi); [by left|].
    rewrite Hl. simpl.
    destruct (lookup_lt_is_Some_2 buckets i Hi) as [bucket Hbucket].
    rewrite (proj2 (list_get_ok _ _ _) Hbucket). simpl.
    rewrite list_set_lt by done. simpl.
    destruct (IH (<[i := bucket ++ [(o, l)]]> buckets)) as (buckets' & -> & Hlen & Hperm & Hin).
    { intros l' Hl'. rewrite length_insert. apply Hall. by right. }
    exists buckets'. split; [done|]. rewrite length_insert in Hlen. split; [done|].
    split.
    + rewrite Hperm, concat_insert_snoc by done.
      unfold layer_tuple at 2. rewrite Hl. simpl.
      by rewrite <- (assoc (++)).
    + intros k b' Hb'. destruct (Hin k b' Hb') as (b & Hb & Hx).
      destruct (decide (k = i)) as [->|Hne].
      * rewrite list_lookup_insert_eq in Hb by done. injection Hb as <-.
        exists bucket. split; [done|]. intros x Hxin.
        destruct (Hx x Hxin) as [[?| ->%list_elem_of_singleton]%elem_of_app|[? ?]].
        -- by left.
        -- right. simpl. split; [by left|done].
        -- right. split; [by right|done].
      * rewrite list_lookup_insert_ne in Hb by done.
        exists b. split; [done|]. intros x Hxin.
        destruct (Hx x Hxin) as [?|[? ?]]; [by left|].
        right. split; [by right|done].
Qed.

(** ** Layers that list the same parameters *)

Lemma od_build (l : list (string * string)) :
  ∀ d : list (string * string),
    NoDup (map fst (d ++ l)) →
    fold_left (fun params kv => od_set params kv.1 kv.2) l d = d ++ l.
Proof.
  induction l as [|[k v] l IH]; intros d Hnd; simpl.
  - by rewrite app_nil_r.
  - rewrite od_set_new.
    + rewrite IH; rewrite <- (assoc (++)); done.
    + rewrite map_app in Hnd. simpl in Hnd.
      apply NoDup_app in Hnd as (_ & Hdisj & _).
      intros Hin. apply (Hdisj k Hin). by left.
Qed.

Lemma new_layer_params (name : string) (param_names : list (string * string)) :
  NoDup (map fst param_names) →
  layer_params (new_layer name param_names)
  = sorted (fun x y => String.leb x.2 y.2) param_names.
Proof.
  intros Hnd. unfold new_layer. simpl. rewrite od_build; [done|]. simpl.
  by rewrite sorted_perm.
Qed.

Lemma NoDup_fst_functional {A B : Type} (l : list (A * B)) (k : A) (a b : B) :
  NoDup (map fst l) → (k, a) ∈ l → (k, b) ∈ l → a = b.
Proof.
  induction l as [|[k' v] l IH]; simpl; [by intros _ ?%elem_of_nil|].
  intros [Hk Hnd]%NoDup_cons [[= -> ->]|Ha]%elem_of_cons [[= ?]|Hb]%elem_of_cons;
    try done.
  - destruct Hk. apply list_elem_of_fmap. by exists (k', b).
  - simplify_eq. destruct Hk. apply list_elem_of_fmap. by exists (k', a).
  - by apply IH.
Qed.

(** In a pass over the sorted tensor names of one layer, equal tensor names
    receive equal new names. *)
Lemma rename_pass_sorted (layer_id : string) (tensor_names : list string) :
  StronglySorted (fun s t => String.leb s t = true) tensor_names →
  ∀ mgr mgr' names,
    rename_pass mgr (map (fun t => (layer_id, t)) tensor_names) = Ok (mgr', names) →
    ∀ i j t, tensor_names !! i = Some t → tensor_names !! j = Some t →
             names !! i = names !! j.
Proof.
  induction 1 as [|t0 ts Hsorted IH Hall]; intros mgr mgr' names; simpl.
  - by intros _ i j t ?.
  - intros ([m1 n1] & H1 & ([m2 ns] & H2 & [= <- <-])%bind_ok)%bind_ok. simpl in *.
    assert (∀ j, ts !! j = Some t0 → ns !! j = Some n1) as Hhead.
    { intros j Hj. destruct ts as [|t1 ts']; [done|].
      assert (t1 = t0) as ->.
      { destruct j as [|j]; [by injection Hj|].
        apply String.leb_antisym.
        - apply StronglySorted_inv in Hsorted as [_ Hle].
          rewrite Forall_forall in Hle. apply Hle.
          by eapply list_elem_of_lookup_2.
        - by apply Forall_cons in Hall as [? _]. }
      rewrite <- (IH m1 m2 ns H2 0 j t0 eq_refl Hj).
      simpl in H2. rewrite (get_new_param_name_again _ _ _ _ _ H1) in H2.
      simpl in H2. apply bind_ok in H2 as ([m3 ns'] & _ & [= _ <-]). done. }
    intros [|i] [|j] t Hi Hj; simpl in *; try done.
    + injection Hi as <-. symmetry. by apply Hhead.
    + injection Hj as <-. by apply Hhead.
    + by eapply IH.
Qed.

Lemma presented_new_layer (name : string) (param_names : list (string * string)) :
  NoDup (map fst param_names) →
  presented_by_layer (new_layer name param_names)
  = map (fun p => (name, p.1, p.2))
        (sorted (fun x y => String.leb x.2 y.2) param_names) ∧
  map renamer_input (presented_by_layer (new_layer name param_names))
  = map (fun t => (name, t))
        (map snd (sorted (fun x y => String.leb x.2 y.2) param_names)).
Proof.
  intros Hnd. unfold presented_by_layer. rewrite new_layer_params by done.
  split; [done|]. rewrite <- !list_fmap_compose. by apply list_fmap_ext.
Qed.

(** Two layers made from permutations of one list of parameters, each raw
    name occurring once, are named alike: the pass over either leaves the
    same renamer and the same table. *)
Lemma name_layer_equiv (name : string) (ps1 ps2 : list (string * string))
    (s : LayerReNamingManager * gmap string (string * string)) :
  ps1 ≡ₚ ps2 → NoDup (map fst ps1) →
  for_each name_presented (presented_by_layer (new_layer name ps1)) s
  = for_each name_presented (presented_by_layer (new_layer name ps2)) s.
Proof.
  intros Hperm Hnd1. destruct s as [mgr table].
  assert (NoDup (map fst ps2)) as Hnd2 by (by rewrite <- Hperm).
  destruct (presented_new_layer name ps1 Hnd1) as [HP1 Hpass1].
  destruct (presented_new_layer name ps2 Hnd2) as [HP2 Hpass2].
  rewrite !name_presented_pass, Hpass1, Hpass2.
  rewrite <- (sorted_tensor_names_perm ps1 ps2 Hperm).
  set (S1 := sorted (fun x y => String.leb x.2 y.2) ps1) in *.
  set (S2 := sorted (fun x y => String.leb x.2 y.2) ps2) in *.
  set (P1 := presented_by_layer (new_layer name ps1)) in *.
  set (P2 := presented_by_layer (new_layer name ps2)) in *.
  destruct (rename_pass mgr (map (fun t => (name, t)) (map snd S1)))
    as [[mgr' names]|e] eqn:Hpass; simpl; [|done].
  do 2 f_equal. apply map_eq. intros k.
  pose proof (rename_pass_length _ _ _ _ Hpass) as Hlen.
  rewrite !length_map in Hlen.
  assert (S1 ≡ₚ S2) as HS by (unfold S1, S2; by rewrite !sorted_perm).
  assert (length P1 = length S1) as Hl1 by (by rewrite HP1, length_map).
  assert (length P2 = length S1) as Hl2 by (by rewrite HP2, length_map, <- HS).
  assert (NoDup (map fst S1)) as HndS by (unfold S1; by rewrite sorted_perm).
  assert (map (fun x => x.1.2) P1 = map fst S1) as Hraw1.
  { rewrite HP1, <- list_fmap_compose. by apply list_fmap_ext. }
  assert (map (fun x => x.1.2) P2 = map fst S2) as Hraw2.
  { rewrite HP2, <- list_fmap_compose. by apply list_fmap_ext. }
  destruct (decide (k ∈ map fst S1)) as [Hin|Hnotin].
  - destruct (record_names_hit P1 names table k) as (i1 & l1 & t1 & n1 & Hp1 & Hn1 & ->);
      [lia|by rewrite Hraw1|].
    destruct (record_names_hit P2 names table k) as (i2 & l2 & t2 & n2 & Hp2 & Hn2 & ->);
      [lia|by rewrite Hraw2, <- HS|].
    rewrite HP1, list_lookup_fmap in Hp1. rewrite HP2, list_lookup_fmap in Hp2.
    destruct (S1 !! i1) as [[k1 t1']|] eqn:E1; [|done].
    destruct (S2 !! i2) as [[k2 t2']|] eqn:E2; [|done].
    simpl in Hp1, Hp2. injection Hp1 as _ -> ->. injection Hp2 as _ -> ->.
    assert (t1 = t2) as ->.
    { apply (NoDup_fst_functional S1 k); [done|by eapply list_elem_of_lookup_2|].
      rewrite HS. by eapply list_elem_of_lookup_2. }
    do 2 f_equal.
    assert (names !! i1 = names !! i2) as Heq; [|congruence].
    apply (rename_pass_sorted name (map snd S1) (sorted_by_tensor_name ps1)
             _ _ _ Hpass i1 i2 t2).
    + by rewrite list_lookup_fmap, E1.
    + unfold S1. rewrite (sorted_tensor_names_perm ps1 ps2 Hperm). fold S2.
      by rewrite list_lookup_fmap, E2.
  - rewrite !record_names_miss; [done|by rewrite Hraw2, <- HS|by rewrite Hraw1].
Qed.

(** ** The construction with the layers of another catalogue *)

Lemma for_each_natural {A S T : Type} (h : S → T)
    (body1 : S → A → outcome S) (body2 : T → A → outcome T)
    (xs : list A) (s : S) :
  (∀ t x, x ∈ xs → body2 (h t) x = outcome_map h (body1 t x)) →
  for_each body2 xs (h s) = outcome_map h (for_each body1 xs s).
Proof.
  revert s; induction xs as [|x xs IH]; intros s Hnat; simpl; [done|].
  rewrite Hnat by (by left). destruct (body1 s x) as [t|e]; simpl; [|done].
  apply IH. intros u y Hy. apply Hnat. by right.
Qed.

Lemma od_set_map_values {V : Type} (g : V → V) (d : list (string * V))
    (k : string) (v : V) :
  od_set (map (fun item => (item.1, g item.2)) d) k (g v)
  = map (fun item => (item.1, g item.2)) (od_set d k v).
Proof.
  induction d as [|[k' v'] d IH]; simpl; [done|].
  case_decide; simpl; [done|]. by rewrite IH.
Qed.

Lemma elem_of_od_set `{EqDecision K} {V : Type} (d : list (K * V)) (k : K) (v : V)
    (x : K * V) :
  x ∈ od_set d k v → x ∈ d ∨ x = (k, v).
Proof.
  induction d as [|[k' v'] d IH]; simpl.
  - intros ->%list_elem_of_singleton. by right.
  - case_decide.
    + intros [->|?]%elem_of_cons; [by right|]. left. by right.
    + intros [->|[?|?]%IH]%elem_of_cons; [left; by left|left; by right|by right].
Qed.

Section Relayer.
Variables (cat1 cat2 : list (string * list (string * string))).
Let g := relayer cat2.

Lemma relayer_new_layer (name : string) (ps1 ps2 : list (string * string)) :
  od_get cat2 name = Some ps2 → g (new_layer name ps1) = new_layer name ps2.
Proof. intros H. unfold g, relayer. simpl. by rewrite H. Qed.

Lemma segment_add_layer_relayer (segment : PipeLineSegment) (name : string)
    (ps1 ps2 : list (string * string)) :
  od_get cat2 name = Some ps2 →
  segment_add_layer (segment_map g segment) name ps2
  = outcome_map (segment_map g) (segment_add_layer segment name ps1).
Proof.
  intros H. unfold segment_add_layer. simpl.
  destruct (seg_cur_index segment <? seg_end_index segment); simpl; [|done].
  unfold segment_map. simpl. f_equal. f_equal.
  rewrite <- (relayer_new_layer name ps1 ps2 H). apply od_set_map_values.
Qed.

Lemma add_segment_relayer (stage : PipeLineStage) (start_index end_index : nat) :
  add_segment (stage_map g stage) start_index end_index
  = stage_map g (add_segment stage start_index end_index).
Proof.
  unfold add_segment, stage_map. simpl.
  by rewrite length_map, map_app.
Qed.

Lemma add_layer_relayer (stage : PipeLineStage) (layer_index : Z) (name : string)
    (ps1 ps2 : list (string * string)) :
  od_get cat2 name = Some ps2 →
  add_layer (stage_map g stage) layer_index name ps2
  = outcome_map (stage_map g) (add_layer stage layer_index name ps1).
Proof.
  intros H. unfold add_layer. simpl.
  destruct (st_layer_to_segment stage !! layer_index) as [segment|]; [|done].
  unfold list_get. rewrite list_lookup_fmap.
  destruct (st_objects stage !! segment) as [object|] eqn:Hobj; simpl; [|done].
  rewrite (segment_add_layer_relayer object name ps1 ps2 H).
  destruct (segment_add_layer object name ps1) as [object'|]; simpl; [|done].
  unfold list_set. rewrite length_map.
  case_decide; simpl; [|done].
  unfold stage_map. simpl. by rewrite list_fmap_insert.
Qed.

Hypothesis same_keys : ∀ name, is_Some (od_get cat1 name) ↔ is_Some (od_get cat2 name).

Lemma place_layer_relayer (layer_index_to_name : gmap Z string)
    (i : nat) (f : filling) (j : nat) :
  place_layer layer_index_to_name cat2 i (filling_map g f) j
  = outcome_map (filling_map g) (place_layer layer_index_to_name cat1 i f j).
Proof.
  unfold place_layer.
  destruct (layer_index_to_name !! Z.of_nat j) as [name|]; [|done].
  destruct (od_get cat1 name) as [ps1|] eqn:H1.
  - destruct (proj1 (same_keys name)) as [ps2 H2]; [by rewrite H1|].
    rewrite H2. simpl.
    rewrite (add_layer_relayer (fl_stage f) (Z.of_nat j) name ps1 ps2 H2).
    by destruct (add_layer (fl_stage f) (Z.of_nat j) name ps1).
  - destruct (od_get cat2 name) as [ps2|] eqn:H2; [|done].
    destruct (proj2 (same_keys name)) as [? ?]; [by rewrite H2|]. congruence.
Qed.

Lemma place_segment_relayer (layer_index_to_name : gmap Z string)
    (i : nat) (f : filling) (seg : nat * nat) :
  place_segment layer_index_to_name cat2 i (filling_map g f) seg
  = outcome_map (filling_map g) (place_segment layer_index_to_name cat1 i f seg).
Proof.
  unfold place_segment. simpl. rewrite add_segment_relayer.
  apply (for_each_natural (filling_map g)
           (place_layer layer_index_to_name cat1 i)
           (place_layer layer_index_to_name cat2 i)
           (range seg.1 seg.2)
           {| fl_stage := add_segment (fl_stage f) seg.1 seg.2;
              fl_layer_index_to_stage := fl_layer_index_to_stage f;
              fl_layer_name_to_stage := fl_layer_name_to_stage f |}).
  intros t j _. apply place_layer_relayer.
Qed.

Lemma place_stage_relayer (layer_index_to_name : gmap Z string)
    (s : list PipeLineStage * gmap Z nat * gmap string nat)
    (item : nat * list (nat * nat)) :
  place_stage layer_index_to_name cat2 (map (stage_map g) s.1.1, s.1.2, s.2) item
  = outcome_map (fun s => (map (stage_map g) s.1.1, s.1.2, s.2))
                (place_stage layer_index_to_name cat1 s item).
Proof.
  destruct s as [[stages i2s] n2s], item as [i stage_seg].
  unfold place_stage. simpl.
  change {| fl_stage := new_stage; fl_layer_index_to_stage := i2s;
            fl_layer_name_to_stage := n2s |}
    with (filling_map g {| fl_stage := new_stage; fl_layer_index_to_stage := i2s;
                           fl_layer_name_to_stage := n2s |}) at 1.
  rewrite (for_each_natural (filling_map g)
             (place_segment layer_index_to_name cat1 i)
             (place_segment layer_index_to_name cat2 i))
    by (intros t seg _; apply place_segment_relayer).
  destruct (for_each _ _ _) as [f|]; simpl; [|done].
  by rewrite map_app.
Qed.

Lemma place_stages_relayer (layer_index_to_name : gmap Z string)
    (stage_segments : list (list (nat * nat))) :
  for_each (place_stage layer_index_to_name cat2) (enumerate stage_segments)
           ([], ∅, ∅)
  = outcome_map (fun s => (map (stage_map g) s.1.1, s.1.2, s.2))
      (for_each (place_stage layer_index_to_name cat1) (enumerate stage_segments)
                ([], ∅, ∅)).
Proof.
  apply (for_each_natural (fun s => (map (stage_map g) s.1.1, s.1.2, s.2))
           (place_stage layer_index_to_name cat1)
           (place_stage layer_index_to_name cat2) _ ([], ∅, ∅)).
  intros t item _. apply place_stage_relayer.
Qed.
End Relayer.

(** The layers of the stages that the construction fills come from the
    catalogue. *)
Section StageFrom.
Variable cat : list (string * list (string * string)).

Lemma stage_from_new : stage_from cat new_stage.
Proof. constructor. Qed.

Lemma stage_from_add_segment (stage : PipeLineStage) (start_index end_index : nat) :
  stage_from cat stage → stage_from cat (add_segment stage start_index end_index).
Proof.
  intros H. unfold stage_from, add_segment. simpl.
  apply Forall_app. split; [done|]. by repeat constructor.
Qed.

Lemma stage_from_add_layer (stage stage' : PipeLineStage) (layer_index : Z)
    (name : string) (param_names : list (string * string)) :
  od_get cat name = Some param_names →
  add_layer stage layer_index name param_names = Ok stage' →
  stage_from cat stage → stage_from cat stage'.
Proof.
  intros Hget Hadd Hfrom. unfold add_layer in Hadd.
  destruct (st_layer_to_segment stage !! layer_index) as [segment|]; [|done].
  apply bind_ok in Hadd as (object & Hobj%list_get_ok & Hadd).
  apply bind_ok in Hadd as (object' & Hobj' & Hadd).
  apply bind_ok in Hadd as (objects & [_ ->]%list_set_ok & [= <-]).
  unfold stage_from in *. simpl.
  apply Forall_insert; [done|].
  unfold segment_add_layer in Hobj'.
  apply bind_ok in Hobj' as (_ & _ & [= <-]). simpl.
  rewrite Forall_forall in Hfrom.
  pose proof (Hfrom object (list_elem_of_lookup_2 _ _ _ Hobj)) as Hlayers.
  apply Forall_forall. intros x [Hx| ->]%elem_of_od_set.
  - rewrite Forall_forall in Hlayers. by apply Hlayers.
  - simpl. by exists param_names.
Qed.

Lemma stage_from_place_layer (layer_index_to_name : gmap Z string) (i : nat)
    (f f' : filling) (j : nat) :
  place_layer layer_index_to_name cat i f j = Ok f' →
  stage_from cat (fl_stage f) → stage_from cat (fl_stage f').
Proof.
  intros (name & ps & stage' & _ & Hget & Hadd & ->)%place_layer_ok Hfrom. simpl.
  by eapply stage_from_add_layer.
Qed.

Lemma stage_from_place_segment (layer_index_to_name : gmap Z string) (i : nat)
    (f f' : filling) (seg : nat * nat) :
  place_segment layer_index_to_name cat i f seg = Ok f' →
  stage_from cat (fl_stage f) → stage_from cat (fl_stage f').
Proof.
  unfold place_segment. intros Hrun Hfrom.
  apply (for_each_invariant (fun f => stage_from cat (fl_stage f)) _ _ _ _)
    with (3 := Hrun).
  - simpl. by apply stage_from_add_segment.
  - intros t j t' _ Ht Hplace. by eapply stage_from_place_layer.
Qed.

Lemma stage_from_place_stage (layer_index_to_name : gmap Z string)
    (s s' : list PipeLineStage * gmap Z nat * gmap string nat)
    (item : nat * list (nat * nat)) :
  place_stage layer_index_to_name cat s item = Ok s' →
  Forall (stage_from cat) s.1.1 → Forall (stage_from cat) s'.1.1.
Proof.
  destruct s as [[stages i2s] n2s], item as [i stage_seg]. unfold place_stage.
  intros (f & Hrun & [= <-])%bind_ok Hall. simpl in *.
  apply Forall_app. split; [done|]. constructor; [|constructor].
  apply (for_each_invariant (fun f => stage_from cat (fl_stage f)) _ _ _ _)
    with (3 := Hrun).
  - apply stage_from_new.
  - intros t seg t' _ Ht Hplace. by eapply stage_from_place_segment.
Qed.

Lemma stage_from_place_stages (layer_index_to_name : gmap Z string)
    (stage_segments : list (list (nat * nat)))
    (s : list PipeLineStage * gmap Z nat * gmap string nat) :
  for_each (place_stage layer_index_to_name cat) (enumerate stage_segments)
           ([], ∅, ∅) = Ok s →
  Forall (stage_from cat) s.1.1.
Proof.
  intros Hrun.
  apply (for_each_invariant (fun s => Forall (stage_from cat) s.1.1) _ _ _ _)
    with (3 := Hrun).
  - constructor.
  - intros t item t' _ Ht Hplace. by eapply stage_from_place_stage.
Qed.
End StageFrom.

(** Naming the stages with the layers of the other catalogue. *)
Section RelayerBuild.
Variables (cat1 cat2 : list (string * list (string * string))).
Hypothesis same : same_parameters cat1 cat2.
Let g := relayer cat2.

Lemma same_parameters_keys (name : string) :
  is_Some (od_get cat1 name) ↔ is_Some (od_get cat2 name).
Proof.
  destruct same as [Hperm _].
  rewrite <- !not_eq_None_Some, !od_get_None.
  split; intros H Hin; apply H; [by rewrite Hperm|by rewrite <- Hperm].
Qed.

Lemma name_layer_relayer (s : LayerReNamingManager * gmap string (string * string))
    (item : string * PipeLinelayer) :
  layer_from cat1 item.2 →
  name_layer s (item.1, g item.2) = name_layer s item.
Proof.
  intros (ps1 & Hget1 & Heq). rewrite !name_layer_flat. simpl.
  destruct (proj1 (same_parameters_keys (layer_name item.2))) as [ps2 Hget2];
    [by rewrite Hget1|].
  unfold g, relayer. rewrite Hget2.
  destruct same as [_ Hsame].
  destruct (Hsame _ _ _ Hget1 Hget2) as [Hperm Hnd].
  transitivity (for_each name_presented
                  (presented_by_layer (new_layer (layer_name item.2) ps1)) s);
    [|by rewrite <- Heq].
  symmetry. by apply name_layer_equiv.
Qed.

Lemma name_segment_relayer (objects : list PipeLineSegment)
    (s : LayerReNamingManager * gmap string (string * string)) (item : nat * nat) :
  Forall (fun segment => Forall (fun item => layer_from cat1 item.2)
                                (seg_layers segment)) objects →
  name_segment (map (segment_map g) objects) s item = name_segment objects s item.
Proof.
  intros Hfrom. unfold name_segment, list_get. rewrite list_lookup_fmap.
  destruct (objects !! item.2) as [segment|] eqn:Hobj; simpl; [|done].
  unfold segment_layers_of. simpl.
  destruct (seg_cur_index segment =? seg_end_index segment); simpl; [|done].
  rewrite for_each_map. apply for_each_ext. intros t x Hx.
  apply name_layer_relayer.
  rewrite Forall_forall in Hfrom.
  pose proof (Hfrom segment (list_elem_of_lookup_2 _ _ _ Hobj)) as Hlayers.
  rewrite Forall_forall in Hlayers. by apply Hlayers.
Qed.

Lemma build_name_mapping_relayer (stage : PipeLineStage) :
  stage_from cat1 stage →
  build_name_mapping (stage_map g stage)
  = outcome_map (stage_map g) (build_name_mapping stage).
Proof.
  intros Hfrom. unfold build_name_mapping. simpl.
  rewrite (for_each_ext (name_segment (map (segment_map g) (st_objects stage)))
                        (name_segment (st_objects stage)))
    by (intros t x _; by apply name_segment_relayer).
  by destruct (for_each _ _ _).
Qed.

Lemma build_all_relayer (stages : list PipeLineStage) :
  Forall (stage_from cat1) stages →
  build_all (map (stage_map g) stages)
  = outcome_map (map (stage_map g)) (build_all stages).
Proof.
  induction 1 as [|stage stages Hfrom _ IH]; simpl; [done|].
  rewrite build_name_mapping_relayer by done.
  destruct (build_name_mapping stage) as [stage'|]; simpl; [|done].
  rewrite IH. by destruct (build_all stages).
Qed.
End RelayerBuild.

(** * The claims on the segmentation planner *)

Lemma transformer_layer_num_bare (n : nat) :
  transformer_layer_num None (bare_catalogue n) = Ok (Z.of_nat n).
Proof.
  unfold transformer_layer_num, bare_catalogue, layer_names. f_equal.
  rewrite length_map. simpl. rewrite length_app, length_map, length_seq. simpl. lia.
Qed.

(** C2, as stated, fails for the by-layer-weight policy: with three
    transformer blocks (six layers), [pp_degree = 2] and [vpp_degree = 2] the
    planner returns the ranges [(0,1)], [(0,0)] for stage 0 and [(1,0)],
    [(0,6)] for stage 1, so that ordinal 0 is covered twice; with four
    blocks (seven layers) on three stages it raises [IndexError]. *)
Lemma segment_coverage_by_layer_fails :
  transformer_layer_num None (bare_catalogue 3) = Ok 3%Z ∧
  4 ≤ 6 ∧
  _segment None 2 2 "layer" (bare_catalogue 3)
    = Ok [[(0, 1); (0, 0)]; [(1, 0); (0, 6)]] ∧
  all_ordinals [[(0, 1); (0, 0)]; [(1, 0); (0, 6)]] = [0; 0; 1; 2; 3; 4; 5] ∧
  ¬ all_ordinals [[(0, 1); (0, 0)]; [(1, 0); (0, 6)]] ≡ₚ seq 0 6 ∧
  _segment None 3 1 "layer" (bare_catalogue 4) = Raise IndexError.
Proof.
  repeat split; try reflexivity; try lia.
  intros H%Permutation_length. simpl in H. lia.
Qed.

(** C2, amended: the segments of all stages cover every ordinal of
    [0, layer_num) exactly once under the uniform policy for all
    [pp_degree, vpp_degree >= 1], and under the by-layer-weight policy
    whenever, for [n = layer_num - 3] transformer blocks,
    [part_size = n / stage_num] is at least one and [n / part_size] is
    [stage_num] (as when [stage_num] divides [n]). *)
Theorem segment_coverage (_transformer_layer_num : option Z)
    (pp_degree vpp_degree : nat) (segment_method : string)
    (param_names_by_layer : list (string * list (string * string))) (n : Z) :
  1 ≤ pp_degree → 1 ≤ vpp_degree →
  transformer_layer_num _transformer_layer_num param_names_by_layer = Ok n →
  let layer_num := Z.to_nat (n + 3) in
  let stage_num := pp_degree * vpp_degree in
  segment_method = "uniform" ∨
  (3 ≤ layer_num ∧ 1 ≤ (layer_num - 3) / stage_num ∧
   (layer_num - 3) / ((layer_num - 3) / stage_num) = stage_num) →
  ∃ stage_segments,
    _segment _transformer_layer_num pp_degree vpp_degree segment_method
             param_names_by_layer = Ok stage_segments ∧
    length stage_segments = pp_degree ∧
    all_ordinals stage_segments ≡ₚ seq 0 layer_num.
Proof.
  intros Hpp Hvpp Hn layer_num stage_num Hcase. unfold _segment. rewrite Hn. simpl.
  destruct (decide (segment_method = "uniform")) as [->|Hne].
  - by apply plan_uniform_partition.
  - destruct Hcase as [?|(HL & Hp & Hc)]; [done|].
    by apply plan_by_layer_partition.
Qed.

Lemma segment_coverage_witness :
  1 ≤ 2 ∧ 1 ≤ 2 ∧
  transformer_layer_num None (bare_catalogue 8) = Ok 8%Z ∧
  ∃ stage_segments,
    _segment None 2 2 "layer" (bare_catalogue 8) = Ok stage_segments ∧
    length stage_segments = 2 ∧
    all_ordinals stage_segments ≡ₚ seq 0 11.
Proof.
  split; [lia|]. split; [lia|]. split; [reflexivity|].
  apply (segment_coverage None 2 2 "layer" (bare_catalogue 8) 8%Z);
    [lia|lia|reflexivity|].
  right. vm_compute. repeat split; lia.
Defined.

(** C3, as stated, fails: the uniform boundaries of seven layers on two
    stages are not [0; 4; 7]. *)
Lemma uniform_scenario_fails :
  segment_uniform 7 2 ≠ Ok [0; 4; 7].
Proof. vm_compute. discriminate. Qed.

(** C3, amended: with [transformer_layer_num = 4], [pp_degree = 2],
    [vpp_degree = 1] and the uniform policy, [layer_num = 7] and
    [stage_num = 2], the boundaries are [0; 3; 7], stage 0 owns the ordinals
    0, 1, 2 and stage 1 owns 3, 4, 5, 6. *)
Theorem uniform_scenario
    (param_names_by_layer : list (string * list (string * string))) :
  length param_names_by_layer = 7 →
  transformer_layer_num (Some 4%Z) param_names_by_layer = Ok 4%Z ∧
  segment_uniform 7 (2 * 1) = Ok [0; 3; 7] ∧
  _segment (Some 4%Z) 2 1 "uniform" param_names_by_layer
    = Ok [[(0, 3)]; [(3, 7)]] ∧
  ordinals_of [(0, 3)] = [0; 1; 2] ∧
  ordinals_of [(3, 7)] = [3; 4; 5; 6].
Proof.
  intros Hlen.
  assert (transformer_layer_num (Some 4%Z) param_names_by_layer = Ok 4%Z) as Hn.
  { unfold transformer_layer_num. simpl. by rewrite Hlen. }
  unfold _segment. rewrite Hn. repeat split; reflexivity.
Qed.

Lemma uniform_scenario_witness :
  length (bare_catalogue 4) = 7 ∧
  transformer_layer_num (Some 4%Z) (bare_catalogue 4) = Ok 4%Z ∧
  segment_uniform 7 (2 * 1) = Ok [0; 3; 7] ∧
  _segment (Some 4%Z) 2 1 "uniform" (bare_catalogue 4) = Ok [[(0, 3)]; [(3, 7)]] ∧
  ordinals_of [(0, 3)] = [0; 1; 2] ∧
  ordinals_of [(3, 7)] = [3; 4; 5; 6].
Proof.
  split; [reflexivity|]. apply (uniform_scenario (bare_catalogue 4)). reflexivity.
Defined.

(** C4: for [stage_num >= 1] the uniform policy returns [stage_num + 1]
    boundaries from [0] to [layer_num]; with [base = layer_num / stage_num]
    and [r = layer_num mod stage_num], each of the first [stage_num - r]
    ranges has [base] ordinals and each of the last [r] ranges has
    [base + 1]. *)
Theorem uniform_rule (layer_num stage_num : nat) :
  1 ≤ stage_num →
  ∃ result,
    segment_uniform layer_num stage_num = Ok result ∧
    length result = stage_num + 1 ∧
    nth 0 result 0 = 0 ∧
    nth stage_num result 0 = layer_num ∧
    ∀ i, i < stage_num →
      nth (i + 1) result 0 =
        nth i result 0 + layer_num / stage_num
        + (if decide (i < stage_num - layer_num mod stage_num) then 0 else 1).
Proof.
  intros Hs. eexists. split; [by apply segment_uniform_closed|].
  rewrite length_map, length_seq, !nth_uniform_bound by lia.
  rewrite uniform_bound_0, uniform_bound_last by done.
  repeat split; try done. intros i Hi.
  rewrite !nth_uniform_bound by lia. rewrite uniform_bound_step by lia.
  f_equal. case_decide; case_match eqn:E;
    try done; [apply Nat.ltb_lt in E|apply Nat.ltb_ge in E]; lia.
Qed.

Lemma uniform_rule_witness :
  1 ≤ 4 ∧
  ∃ result,
    segment_uniform 11 4 = Ok result ∧
    length result = 4 + 1 ∧
    nth 0 result 0 = 0 ∧
    nth 4 result 0 = 11 ∧
    ∀ i, i < 4 →
      nth (i + 1) result 0 =
        nth i result 0 + 11 / 4 + (if decide (i < 4 - 11 mod 4) then 0 else 1).
Proof. split; [lia|]. apply (uniform_rule 11 4). lia. Defined.

(** C5: the weights of the by-layer-weight policy are those of
    [ordinal_weight]; the part size is the total weight divided by
    [stage_num]; the code returns the boundaries of the walk [cut_points]
    with [layer_num] forced at position [stage_num] (raising [IndexError]
    when the walk cuts more than [stage_num] boundaries); and four
    transformer blocks on two stages give the boundaries [0; 3; 7], stage 0
    owning the ordinals 0, 1, 2 and stage 1 owning 3, 4, 5, 6. *)
Theorem by_layer_rule (layer_num stage_num : nat) :
  1 ≤ stage_num →
  let weights := map (ordinal_weight layer_num) (seq 0 layer_num) in
  let part_size := sum_list weights / stage_num in
  let cuts := cut_points part_size 0 0 weights in
  layer_weights layer_num = Ok weights ∧
  (∀ i, i < layer_num →
     nth i weights 0 = if decide (i = 0 ∨ i = layer_num - 2 ∨ i = layer_num - 1)
                       then 0 else 1) ∧
  segment_by_layer layer_num stage_num =
    (if decide (length cuts ≤ stage_num)
     then Ok (<[stage_num := layer_num]>
                (0 :: cuts ++ replicate (stage_num - length cuts) 0))
     else Raise IndexError) ∧
  (∀ result, segment_by_layer layer_num stage_num = Ok result →
             nth stage_num result 0 = layer_num) ∧
  segment_by_layer 7 (2 * 1) = Ok [0; 3; 7] ∧
  plan_segments 7 2 1 "layer" = Ok [[(0, 3)]; [(3, 7)]] ∧
  ordinals_of [(0, 3)] = [0; 1; 2] ∧
  ordinals_of [(3, 7)] = [3; 4; 5; 6].
Proof.
  intros Hs weights part_size cuts.
  split; [apply layer_weights_closed|].
  split.
  { intros i Hi. apply nth_lookup_Some. unfold weights.
    by rewrite list_lookup_fmap, lookup_seq_lt. }
  split; [by apply segment_by_layer_closed|].
  split; [|repeat split; reflexivity].
  intros result. rewrite segment_by_layer_closed by done.
  case_decide as Hfit; [|done]. intros [= <-].
  by destruct (by_layer_bounds_shape layer_num stage_num Hs Hfit) as (_ & _ & ? & _).
Qed.

Lemma by_layer_rule_witness :
  1 ≤ 3 ∧ segment_by_layer 9 3 = Ok [0; 3; 5; 9].
Proof.
  split; [lia|].
  destruct (by_layer_rule 9 3 ltac:(lia)) as (_ & _ & H & _).
  rewrite H. reflexivity.
Defined.


(** * The claims on the name-scope tree and on the stages *)
(** C9: after [build_name_mapping], [map_name raw_name tensor_name] returns
    the new name recorded for [raw_name] exactly when [raw_name] has an
    entry in the table of the stage and [tensor_name] is the tensor name
    recorded in it; otherwise it raises [AssertionError]; in both cases the
    stage is left as it was.  In a stage that starts with an empty table the
    entries are those of the parameters of the stage, each with a tensor
    name that was presented with it. *)
Theorem map_name_guard (stage stage' : PipeLineStage) (raw_name tensor_name : string) :
  build_name_mapping stage = Ok stage' →
  (stage_map_name stage' raw_name tensor_name).2 = stage' ∧
  (∀ n_name,
     (stage_map_name stage' raw_name tensor_name).1 = Ok n_name ↔
     st_param_to_tname stage' !! raw_name = Some (tensor_name, n_name)) ∧
  ((∀ n_name, st_param_to_tname stage' !! raw_name ≠ Some (tensor_name, n_name)) →
   (stage_map_name stage' raw_name tensor_name).1 = Raise (AssertionError "")) ∧
  (st_param_to_tname stage = ∅ →
   (is_Some (st_param_to_tname stage' !! raw_name) ↔
    raw_name ∈ map (fun x => x.1.2) (presented stage)) ∧
   (∀ t n, st_param_to_tname stage' !! raw_name = Some (t, n) →
           ∃ layer, (layer, raw_name, t) ∈ presented stage)).
Proof.
  intros Hbuild. unfold stage_map_name. simpl.
  split; [done|]. split; [|split].
  - intros n_name.
    destruct (st_param_to_tname stage' !! raw_name) as [[t n]|]; simpl; [|done].
    destruct (String.eqb_spec t tensor_name) as [->|Hne]; simpl.
    + split; congruence.
    + split; [done|]. congruence.
  - intros Hnot.
    destruct (st_param_to_tname stage' !! raw_name) as [[t n]|]; simpl; [|done].
    destruct (String.eqb_spec t tensor_name) as [->|Hne]; simpl; [|done].
    by destruct (Hnot n).
  - intros Hempty.
    apply build_name_mapping_ok in Hbuild as (_ & mgr & names & Hpass & ->). simpl.
    apply rename_pass_length in Hpass. rewrite length_map in Hpass.
    rewrite Hempty. split.
    + split.
      * intros [v Hv].
        destruct (decide (raw_name ∈ map (fun x => x.1.2) (presented stage)));
          [done|].
        rewrite record_names_miss in Hv by done. by rewrite lookup_empty in Hv.
      * intros Hin.
        destruct (record_names_hit (presented stage) names ∅ raw_name Hpass Hin)
          as (i & l & t & n & _ & _ & ->). by eexists.
    + intros t n Hl.
      destruct (record_names_lookup (presented stage) names ∅ raw_name Hpass)
        as [Hmiss|(i & l & t' & n' & Hp & _ & Hrec)].
      * rewrite Hmiss, lookup_empty in Hl. done.
      * rewrite Hrec in Hl. injection Hl as -> ->.
        exists l. by eapply list_elem_of_lookup_2.
Qed.

Lemma map_name_guard_witness :
  build_name_mapping example_stage = Ok example_stage_named ∧
  (stage_map_name example_stage_named "ernie.embed_tokens.weight" "embedding_0.w_0").1
    = Ok "embedding_0.w_0" ∧
  (stage_map_name example_stage_named "ernie.embed_tokens.weight" "embedding_1.w_0").1
    = Raise (AssertionError "").
Proof.
  split; [reflexivity|]. split.
  - apply (map_name_guard example_stage example_stage_named
             "ernie.embed_tokens.weight" "embedding_0.w_0" eq_refl).
    reflexivity.
  - apply (map_name_guard example_stage example_stage_named
             "ernie.embed_tokens.weight" "embedding_1.w_0" eq_refl).
    intros n_name. vm_compute. discriminate.
Defined.

(** C10: the renamer is given the tensor name of a parameter, not its raw
    name.  Renaming a tensor name returns exactly when its first component
    starts with one of the seven role prefixes, and raises the assertion of
    [get_sub_scope] otherwise; [build_name_mapping] does not return on a
    stage that holds a tensor name without a known role, and raises that
    assertion when the segments of the stage are full; when every tensor
    name of the stage carries a known role that assertion is never raised,
    and [build_name_mapping] returns when the segments are full; the table
    it records is that of a renaming pass over the layer names and tensor
    names, in which a raw name is only the key of its entry. *)
Theorem renaming_by_tensor_name (stage : PipeLineStage) :
  (∀ mgr layer_id tensor_name,
     is_ok (get_new_param_name mgr layer_id tensor_name) ↔
     is_Some (get_layer_prefix (first_component tensor_name))) ∧
  (∀ mgr layer_id tensor_name,
     get_layer_prefix (first_component tensor_name) = None →
     get_new_param_name mgr layer_id tensor_name =
     Raise (AssertionError (invalid_msg (first_component tensor_name)
                                        (sc_prefix (top_layer_name_scope mgr))))) ∧
  (∀ role, known_role role ↔
     role ∈ ["column_sequence_parallel_linear"; "row_sequence_parallel_linear";
             "linear"; "layer_norm"; "embedding"; "create_parameter";
             "ernie_lm_head"]) ∧
  (∀ name role, get_layer_prefix name = Some role →
                known_role role ∧ startswith name role = true) ∧
  (Exists (fun x => get_layer_prefix (first_component x.2) = None)
          (presented stage) →
   ¬ is_ok (build_name_mapping stage) ∧
   (stage_ready stage →
    ∃ e, build_name_mapping stage = Raise e ∧ invalid_prefix_error e)) ∧
  (Forall (fun x => is_Some (get_layer_prefix (first_component x.2)))
          (presented stage) →
   (∀ e, build_name_mapping stage = Raise e → ¬ invalid_prefix_error e) ∧
   (stage_ready stage → is_ok (build_name_mapping stage))) ∧
  (∀ stage', build_name_mapping stage = Ok stage' →
     ∃ mgr names,
       rename_pass (st_rename_mgr stage) (map renamer_input (presented stage))
         = Ok (mgr, names) ∧
       st_rename_mgr stage' = mgr ∧
       st_param_to_tname stage'
         = record_names (st_param_to_tname stage) (presented stage) names).
Proof.
  split; [|split; [|split; [|split; [|split; [|split]]]]].
  - intros mgr layer_id tensor_name. split.
    + intros [r Hr].
      destruct (get_layer_prefix (first_component tensor_name)) eqn:E; [by eexists|].
      by rewrite get_new_param_name_raise in Hr.
    + apply get_new_param_name_is_ok.
  - intros. by apply get_new_param_name_raise.
  - intros role. unfold known_role. simpl.
    rewrite !elem_of_cons, elem_of_nil. intuition congruence.
  - apply get_layer_prefix_known.
  - intros Hex. split.
    + intros [stage' Hok].
      pose proof (build_name_mapping_ok_ready _ _ Hok) as Hready.
      destruct (build_name_mapping_invalid stage Hready Hex) as (e & He & _).
      congruence.
    + intros Hready. by apply build_name_mapping_invalid.
  - intros Hall. split.
    + intros e. by apply build_name_mapping_valid.
    + intros Hready. by apply build_name_mapping_total.
  - intros stage' (_ & mgr & names & Hpass & ->)%build_name_mapping_ok.
    by exists mgr, names.
Qed.

Lemma renaming_by_tensor_name_witness :
  is_ok (build_name_mapping example_stage) ∧
  ¬ is_ok (get_new_param_name new_manager "ernie.layers.0" "weight.w_0").
Proof.
  destruct (renaming_by_tensor_name example_stage)
    as (Hiff & _ & _ & _ & _ & Hall & _).
  split.
  - apply Hall.
    + repeat constructor; by eexists.
    + repeat constructor. by eexists.
  - intros H%Hiff. by destruct H.
Defined.

(** * The claims on the segment context *)

Lemma ordinal_layer_names (N : nat) (name : string) :
  name ∈ layer_names N →
  is_ok (index_layer name (Some (Z.of_nat N))) ∧
  ((name = "ernie.embed_tokens" ∧ ordinal (Z.of_nat N) name = 0%Z) ∨
   (∃ k, k < N ∧ name = block_name k ∧ ordinal (Z.of_nat N) name = (Z.of_nat k + 1)%Z) ∨
   (name = "ernie.norm" ∧ ordinal (Z.of_nat N) name = (Z.of_nat N + 1)%Z) ∨
   (name = "lm_head" ∧ ordinal (Z.of_nat N) name = (Z.of_nat N + 2)%Z)).
Proof.
  unfold layer_names.
  intros [->|[Hin|Hin]%elem_of_app]%elem_of_cons.
  - split; [by eexists|]. left. done.
  - apply list_elem_of_fmap in Hin as (k & -> & Hk%list_elem_of_In%in_seq).
    unfold ordinal. rewrite index_layer_block.
    split; [by eexists|]. right. left. exists k. split; [lia|done].
  - apply elem_of_cons in Hin as [->|Hin].
    + split; [by eexists|]. right. right. left. done.
    + apply list_elem_of_singleton in Hin as ->.
      split; [by eexists|]. right. right. right. done.
Qed.

Lemma ordinal_layer_names_inj (N : nat) (k1 k2 : string) :
  k1 ∈ layer_names N → k2 ∈ layer_names N →
  ordinal (Z.of_nat N) k1 = ordinal (Z.of_nat N) k2 → k1 = k2.
Proof.
  intros [_ H1]%ordinal_layer_names [_ H2]%ordinal_layer_names Heq.
  destruct H1 as [[-> E1]|[(j1 & Hj1 & -> & E1)|[[-> E1]|[-> E1]]]];
  destruct H2 as [[-> E2]|[(j2 & Hj2 & -> & E2)|[[-> E2]|[-> E2]]]];
    try done; rewrite E1 in Heq; rewrite E2 in Heq; try lia.
  f_equal. lia.
Qed.

(** C7: when the layer names of the catalogue are ["ernie.embed_tokens"],
    ["ernie.layers.k"] for [k < N], ["ernie.norm"] and ["lm_head"], in any
    order, and the transformer-layer count is unset or [N], [_index_layers]
    gives the embedding the ordinal 0, block [k] the ordinal [k + 1], the
    norm [N + 1] and the head [N + 2], and its two tables are inverse
    bijections between the layer names and the ordinals [0 .. N + 2]. *)
Theorem ordinal_bijection (N : nat) (_transformer_layer_num : option Z)
    (param_names_by_layer : list (string * list (string * string))) :
  map fst param_names_by_layer ≡ₚ layer_names N →
  _transformer_layer_num = None ∨ _transformer_layer_num = Some (Z.of_nat N) →
  ∃ (layer_name_to_index : gmap string Z) (layer_index_to_name : gmap Z string),
    _index_layers _transformer_layer_num param_names_by_layer
      = Ok (layer_name_to_index, layer_index_to_name) ∧
    transformer_layer_num _transformer_layer_num param_names_by_layer
      = Ok (Z.of_nat N) ∧
    layer_name_to_index !! "ernie.embed_tokens" = Some 0%Z ∧
    (∀ k, k < N → layer_name_to_index !! block_name k = Some (Z.of_nat k + 1)%Z) ∧
    layer_name_to_index !! "ernie.norm" = Some (Z.of_nat N + 1)%Z ∧
    layer_name_to_index !! "lm_head" = Some (Z.of_nat N + 2)%Z ∧
    (∀ name i, layer_name_to_index !! name = Some i ↔
               layer_index_to_name !! i = Some name) ∧
    (∀ name, is_Some (layer_name_to_index !! name) ↔ name ∈ layer_names N) ∧
    (∀ i, is_Some (layer_index_to_name !! i) ↔ (0 ≤ i < Z.of_nat N + 3)%Z).
Proof.
  intros Hperm Htln.
  set (keys := map fst param_names_by_layer) in *.
  set (n := Z.of_nat N).
  assert (length param_names_by_layer = N + 3) as Hlen.
  { rewrite <- (length_map fst). fold keys. rewrite Hperm. unfold layer_names.
    simpl. rewrite length_app, length_map, length_seq. simpl. lia. }
  assert (transformer_layer_num _transformer_layer_num param_names_by_layer = Ok n)
    as Hn.
  { unfold transformer_layer_num. rewrite Hlen.
    destruct Htln as [->| ->]; [f_equal; lia|].
    destruct (negb (Z.of_nat N =? 0)%Z && (0 <? Z.of_nat N)%Z) eqn:E.
    - assert ((Z.of_nat (N + 3) =? Z.of_nat N + 3)%Z = true) as ->
        by (apply Z.eqb_eq; lia). done.
    - f_equal. unfold n. lia. }
  assert (∀ k, k ∈ keys ↔ k ∈ layer_names N) as Hkeys
    by (intros k; by rewrite Hperm).
  assert (∀ k1 k2, k1 ∈ keys → k2 ∈ keys → ordinal n k1 = ordinal n k2 → k1 = k2)
    as Hinj.
  { intros k1 k2 H1%Hkeys H2%Hkeys. by apply ordinal_layer_names_inj. }
  exists (name_to_index_of n keys), (index_to_name_of n keys).
  split.
  { apply index_layers_ok; [done|]. apply Forall_forall.
    intros k Hk%Hkeys. by apply ordinal_layer_names in Hk as [? _]. }
  split; [done|].
  assert (∀ name, name ∈ layer_names N →
            name_to_index_of n keys !! name = Some (ordinal n name)) as Hlook.
  { intros name Hin. rewrite name_to_index_lookup.
    destruct (decide (name ∈ keys)) as [|Hnot]; [done|].
    destruct Hnot. by apply Hkeys. }
  assert ("ernie.embed_tokens" ∈ layer_names N) as Hembed by (by left).
  assert ("ernie.norm" ∈ layer_names N) as Hnorm.
  { unfold layer_names. right. apply elem_of_app. right. by left. }
  assert ("lm_head" ∈ layer_names N) as Hhead.
  { unfold layer_names. right. apply elem_of_app. right. right. by left. }
  assert (∀ k, k < N → block_name k ∈ layer_names N) as Hblock.
  { intros k Hk. unfold layer_names. right. apply elem_of_app. left.
    apply list_elem_of_fmap. exists k. split; [done|].
    apply list_elem_of_In, in_seq. lia. }
  split; [by rewrite Hlook|].
  split.
  { intros k Hk. rewrite Hlook by auto. unfold ordinal.
    by rewrite index_layer_block. }
  split; [by rewrite Hlook|]. split; [by rewrite Hlook|].
  split; [|split].
  - intros name i. rewrite index_to_name_lookup by done.
    rewrite name_to_index_lookup.
    destruct (decide (name ∈ keys)) as [Hin|Hnot].
    + split; [by intros [= <-]|by intros [_ <-]].
    + split; [done|by intros [? _]].
  - intros name. rewrite name_to_index_lookup, <- Hkeys.
    destruct (decide (name ∈ keys)) as [Hin|Hnot].
    + split; [done|by eexists].
    + split; [by intros [? ?]|done].
  - intros i. rewrite index_to_name_dom. split.
    + intros (k & Hk%Hkeys & <-).
      apply ordinal_layer_names in Hk
        as [_ [[_ E]|[(j & Hj & _ & E)|[[_ E]|[_ E]]]]]; fold n in E; rewrite E;
        unfold n; lia.
    + intros Hi.
      destruct (decide (i = 0%Z)) as [->|].
      { exists "ernie.embed_tokens". split; [by apply Hkeys|done]. }
      destruct (decide (i = n + 1)%Z) as [->|].
      { exists "ernie.norm". split; [by apply Hkeys|done]. }
      destruct (decide (i = n + 2)%Z) as [->|].
      { exists "lm_head". split; [by apply Hkeys|done]. }
      exists (block_name (Z.to_nat (i - 1))).
      split; [apply Hkeys, Hblock; unfold n in *; lia|].
      unfold ordinal. rewrite index_layer_block. unfold n in *. lia.
Qed.

Lemma ordinal_bijection_witness :
  map fst (bare_catalogue 2) ≡ₚ layer_names 2 ∧
  ∃ (layer_name_to_index : gmap string Z) (layer_index_to_name : gmap Z string),
    _index_layers None (bare_catalogue 2)
      = Ok (layer_name_to_index, layer_index_to_name) ∧
    layer_name_to_index !! "ernie.layers.1" = Some 2%Z ∧
    layer_index_to_name !! 3%Z = Some "ernie.norm".
Proof.
  assert (map fst (bare_catalogue 2) ≡ₚ layer_names 2) as Hperm by reflexivity.
  split; [done|].
  destruct (ordinal_bijection 2 None (bare_catalogue 2) Hperm (or_introl eq_refl))
    as (n2i & i2n & Hrun & _ & _ & Hblock & Hnorm & _ & Hinv & _).
  exists n2i, i2n. split; [done|]. split.
  - apply (Hblock 1). lia.
  - by apply Hinv.
Defined.

Lemma concat_replicate_nil {A : Type} (n : nat) :
  concat (replicate n ([] : list A)) = [].
Proof. induction n; simpl; auto. Qed.

Lemma policy_bounds_length (layer_num stage_num : nat) (segment_method : string)
    (result : list nat) :
  policy_bounds layer_num stage_num segment_method = Ok result →
  1 ≤ stage_num ∧ length result = stage_num + 1.
Proof.
  unfold policy_bounds. intros Hb.
  assert (1 ≤ stage_num) as Hs.
  { destruct (decide (stage_num = 0)) as [E|]; [|lia]. rewrite E in Hb.
    destruct (String.eqb _ _); [done|].
    unfold segment_by_layer in Hb. by destruct (layer_weights layer_num). }
  split; [done|]. destruct (String.eqb _ _).
  - rewrite segment_uniform_closed in Hb by done. injection Hb as <-.
    by rewrite length_map, length_seq.
  - rewrite segment_by_layer_closed in Hb by done.
    case_decide as Hfit; [|done]. injection Hb as <-.
    by destruct (by_layer_bounds_shape layer_num stage_num Hs Hfit) as (? & _).
Qed.

(** *** Which stage the table gives to an ordinal *)

Lemma elem_of_range_Z (a b : nat) (z : Z) :
  z ∈ map Z.of_nat (range a b) ↔ (Z.of_nat a ≤ z < Z.of_nat b)%Z.
Proof.
  unfold range. rewrite list_elem_of_fmap. split.
  - intros (j & -> & Hj%elem_of_seq). lia.
  - intros Hz. exists (Z.to_nat z). split; [lia|]. apply elem_of_seq. lia.
Qed.

Lemma monotone_steps (f : nat → nat) (bound : nat) :
  (∀ i, i < bound → f i ≤ f (i + 1)) →
  ∀ i i', i ≤ i' → i' ≤ bound → f i ≤ f i'.
Proof.
  intros Hstep i i' Hi. induction Hi as [|i' Hi IH]; intros Hbound; [done|].
  etrans; [apply IH; lia|].
  replace (S i') with (i' + 1) by lia. apply Hstep. lia.
Qed.

Section Owner.
Variables (layer_index_to_name : gmap Z string)
          (param_names_by_layer : list (string * list (string * string))).

Lemma place_layers_table (i : nat) (xs : list nat) :
  ∀ (f f' : filling) (z : Z),
    for_each (place_layer layer_index_to_name param_names_by_layer i) xs f = Ok f' →
    fl_layer_index_to_stage f' !! z
    = if bool_decide (z ∈ map Z.of_nat xs) then Some i
      else fl_layer_index_to_stage f !! z.
Proof.
  induction xs as [|x xs IH]; intros f f' z; cbn [for_each map].
  - intros [= <-]. rewrite bool_decide_eq_false_2; [done|]. by intros ?%elem_of_nil.
  - intros (f1 & Hstep & Hrest)%bind_ok. rewrite (IH _ _ _ Hrest).
    apply place_layer_ok in Hstep as (name & ps & stage' & _ & _ & _ & ->).
    cbn [fl_layer_index_to_stage].
    destruct (decide (z ∈ map Z.of_nat xs)) as [Hin|Hout].
    + rewrite !bool_decide_eq_true_2; [done|by right|done].
    + rewrite (bool_decide_eq_false_2 _ Hout).
      destruct (decide (z = Z.of_nat x)) as [->|Hne].
      * rewrite lookup_insert_eq. rewrite bool_decide_eq_true_2; [done|]. by left.
      * rewrite lookup_insert_ne by done. rewrite bool_decide_eq_false_2; [done|].
        by intros [?|?]%elem_of_cons.
Qed.

Lemma place_ranges_table (i : nat) (ranges : list (nat * nat)) :
  ∀ (f f' : filling) (z : Z),
    for_each (place_segment layer_index_to_name param_names_by_layer i) ranges f
      = Ok f' →
    fl_layer_index_to_stage f' !! z
    = if bool_decide (Exists (fun r => (Z.of_nat r.1 ≤ z < Z.of_nat r.2)%Z) ranges)
      then Some i else fl_layer_index_to_stage f !! z.
Proof.
  induction ranges as [|r ranges IH]; intros f f' z; cbn [for_each].
  - intros [= <-]. rewrite bool_decide_eq_false_2; [done|]. by intros ?%Exists_nil.
  - intros (f1 & Hstep & Hrest)%bind_ok. rewrite (IH _ _ _ Hrest).
    unfold place_segment in Hstep.
    rewrite (place_layers_table _ _ _ _ z Hstep). cbn [fl_layer_index_to_stage].
    destruct (decide (Exists (fun r => (Z.of_nat r.1 ≤ z < Z.of_nat r.2)%Z) ranges))
      as [Hin|Hout].
    + rewrite !bool_decide_eq_true_2; [done|by apply Exists_cons_tl|done].
    + rewrite (bool_decide_eq_false_2 _ Hout).
      destruct (decide (z ∈ map Z.of_nat (range r.1 r.2))) as [Hr|Hr].
      * rewrite !bool_decide_eq_true_2; [done| |done].
        apply Exists_cons_hd. by apply elem_of_range_Z.
      * rewrite !bool_decide_eq_false_2; [done| |done].
        intros [?|?]%Exists_cons; [|done]. by apply Hr, elem_of_range_Z.
Qed.

Lemma place_stage_table (s s' : list PipeLineStage * gmap Z nat * gmap string nat)
    (i : nat) (ranges : list (nat * nat)) (z : Z) :
  place_stage layer_index_to_name param_names_by_layer s (i, ranges) = Ok s' →
  s'.1.2 !! z
  = if bool_decide (Exists (fun r => (Z.of_nat r.1 ≤ z < Z.of_nat r.2)%Z) ranges)
    then Some i else s.1.2 !! z.
Proof.
  destruct s as [[stages i2s] n2s]. unfold place_stage.
  intros (f & Hrun & [= <-])%bind_ok. cbn [fst snd].
  by rewrite (place_ranges_table _ _ _ _ z Hrun).
Qed.

Lemma place_stages_table (stage_segments : list (list (nat * nat))) (z : Z) :
  ∀ (n : nat) (s s' : list PipeLineStage * gmap Z nat * gmap string nat),
    for_each (place_stage layer_index_to_name param_names_by_layer)
             (enumerate_from n stage_segments) s = Ok s' →
    (∀ k, s'.1.2 !! z = Some k →
          s.1.2 !! z = Some k ∨
          ∃ ranges, stage_segments !! (k - n) = Some ranges ∧ n ≤ k ∧
                    Exists (fun r => (Z.of_nat r.1 ≤ z < Z.of_nat r.2)%Z) ranges) ∧
    (∀ k ranges, stage_segments !! k = Some ranges →
                 Exists (fun r => (Z.of_nat r.1 ≤ z < Z.of_nat r.2)%Z) ranges →
                 ∃ k', s'.1.2 !! z = Some k' ∧ n + k ≤ k') ∧
    (∀ k, s.1.2 !! z = Some k → ∃ k', s'.1.2 !! z = Some k' ∧ (k' = k ∨ n ≤ k')).
Proof.
  induction stage_segments as [|ranges0 stage_segments IH]; intros n s s';
    cbn [enumerate_from for_each].
  - intros [= <-]. split; [by left|]. split; [done|]. intros k Hk. by exists k; split; [|left].
  - intros (s1 & Hstep & Hrest)%bind_ok.
    destruct (IH _ _ _ Hrest) as (IH1 & IH2 & IH3).
    pose proof (place_stage_table _ _ _ _ z Hstep) as Hs1.
    split; [|split].
    + intros k Hk. destruct (IH1 k Hk) as [Hk1|(ranges & Hranges & Hn & Hex)].
      * rewrite Hs1 in Hk1. case_bool_decide as Hex; [|by left].
        injection Hk1 as <-. right. exists ranges0.
        rewrite Nat.sub_diag. split; [done|]. split; [lia|done].
      * right. exists ranges. split; [|split; [lia|done]].
        replace (k - n) with (S (k - S n)) by lia. done.
    + intros [|k] ranges Hranges Hex; simpl in Hranges.
      * injection Hranges as <-.
        destruct (IH3 n) as (k' & Hk' & Hge).
        { rewrite Hs1. by rewrite bool_decide_eq_true_2. }
        exists k'. split; [done|]. lia.
      * destruct (IH2 k ranges Hranges Hex) as (k' & Hk' & Hge).
        exists k'. split; [done|]. lia.
    + intros k Hk.
      destruct (IH3 (if bool_decide (Exists (fun r => (Z.of_nat r.1 ≤ z < Z.of_nat r.2)%Z)
                                            ranges0) then n else k))
        as (k' & Hk' & Hge).
      { rewrite Hs1. by case_bool_decide. }
      exists k'. split; [done|]. case_bool_decide; lia.
Qed.
End Owner.

(** C8: in a context that was built, range [i] of the boundaries belongs to
    stage [i mod pp_degree], and every layer of the catalogue has an owner,
    the stage that [map_name_to_stage] returns for the raw names of the
    layer: it is below [pp_degree], some range [i] with [i mod pp_degree]
    equal to it holds the ordinal of the layer, and no range dealt to a
    later stage does; when the boundaries ascend, as those of the uniform
    policy do, it is [i mod pp_degree] for the range [i] that holds the
    ordinal.  [segment_layers] splits a batch of layer names of the
    catalogue into [pp_degree] groups, one per stage, that together hold the
    batch, group [k] holding layers owned by stage [k] in ascending order of
    ordinal. *)
Theorem stage_ownership (_transformer_layer_num : option Z)
    (pp_degree vpp_degree : nat) (segment_method : string)
    (param_names_by_layer : list (string * list (string * string)))
    (ctx : PipeLineSegmentContext) :
  NoDup (map fst param_names_by_layer) →
  new_context _transformer_layer_num pp_degree vpp_degree segment_method
              param_names_by_layer = Ok ctx →
  ∃ n result,
    (transformer_layer_num _transformer_layer_num param_names_by_layer = Ok n ∧
     policy_bounds (Z.to_nat (n + 3)) (pp_degree * vpp_degree) segment_method
       = Ok result ∧
     _segment _transformer_layer_num pp_degree vpp_degree segment_method
              param_names_by_layer
     = Ok (map (fun k => map (nth_range result)
                             (dealt_to pp_degree (pp_degree * vpp_degree) k))
               (seq 0 pp_degree)) ∧
     (∀ k i, i ∈ dealt_to pp_degree (pp_degree * vpp_degree) k ↔
             i < pp_degree * vpp_degree ∧ i mod pp_degree = k) ∧
     (segment_method = "uniform" →
      ∀ i, i < pp_degree * vpp_degree → nth i result 0 ≤ nth (i + 1) result 0)) ∧
    (∀ layer,
       layer ∈ map fst param_names_by_layer →
       ∃ k, k < pp_degree ∧
            lookup_stage ctx (Some layer) = Ok (ordinal n layer, k) ∧
            (∀ name, extract_layer_name name = Some layer →
                     map_name_to_stage ctx name = Ok k) ∧
            (∃ i, i < pp_degree * vpp_degree ∧ i mod pp_degree = k ∧
                  range_holds result i (ordinal n layer)) ∧
            (∀ i, i < pp_degree * vpp_degree →
                  range_holds result i (ordinal n layer) →
                  i mod pp_degree ≤ k) ∧
            ((∀ i, i < pp_degree * vpp_degree →
                   nth i result 0 ≤ nth (i + 1) result 0) →
             ∀ i, i < pp_degree * vpp_degree →
                  range_holds result i (ordinal n layer) →
                  i mod pp_degree = k)) ∧
    (∀ layer_names,
       (∀ l, l ∈ layer_names → l ∈ map fst param_names_by_layer) →
       ∃ groups,
         segment_layers ctx layer_names = Ok groups ∧
         length groups = pp_degree ∧
         concat groups ≡ₚ layer_names ∧
         ∀ k group, groups !! k = Some group →
           (∀ l, l ∈ group → l ∈ layer_names ∧
                             ∃ o, lookup_stage ctx (Some l) = Ok (o, k)) ∧
           ∃ ords, Forall2 (fun l o => ctx_layer_name_to_index ctx !! l = Some o)
                           group ords ∧
                   Sorted Z.le ords).
Proof.
  intros Hnd Hctx.
  destruct (new_context_owned _ _ _ _ _ _ Hnd Hctx)
    as (n & Hn & Hpp & Hpp1 & Hlen & Hbelow & Hinj & Hkeys & Hother).
  assert (∀ l, l ∈ map fst param_names_by_layer →
            ∃ i, lookup_stage ctx (Some l) = Ok (ordinal n l, i) ∧ i < pp_degree ∧
                 ctx_layer_index_to_stage ctx !! ordinal n l = Some i)
    as Hlookup.
  { intros l Hl. destruct (Hkeys l Hl) as (_ & _ & Hidx & _ & i & Hi & Hlt).
    exists i. unfold lookup_stage. simpl. by rewrite Hidx, Hi. }
  pose proof Hctx as Hctx'.
  apply new_context_ok in Hctx'
    as (n' & segs & s & stages & Hn' & _ & Hplan & Hs & _ & Hrec).
  rewrite Hn in Hn'. injection Hn' as <-.
  assert (ctx_layer_index_to_stage ctx = s.1.2) as Htable by (by rewrite Hrec).
  unfold plan_segments in Hplan.
  apply bind_ok in Hplan as (result & Hb & Hdeal).
  destruct (policy_bounds_length _ _ _ _ Hb) as [Hsn Hlenb].
  destruct (deal_segments_closed pp_degree (pp_degree * vpp_degree) result
              Hpp1 ltac:(lia)) as (segs' & Hrun & Hcl & _).
  rewrite Hrun in Hdeal. injection Hdeal as <-.
  assert (∀ k i, i ∈ dealt_to pp_degree (pp_degree * vpp_degree) k ↔
                 i < pp_degree * vpp_degree ∧ i mod pp_degree = k) as Hdealt.
  { intros k i. unfold dealt_to. rewrite list_elem_of_filter.
    rewrite list_elem_of_In, in_seq. split; intros [? ?]; split; done || lia. }
  assert (∀ k, k < pp_degree →
               segs' !! k = Some (map (nth_range result)
                                      (dealt_to pp_degree (pp_degree * vpp_degree) k)))
    as Hsegs.
  { intros k Hk. rewrite Hcl, list_lookup_fmap.
    by rewrite lookup_seq_lt. }
  exists n, result. split; [|split].
  - split; [done|]. split; [done|]. split; [|split; [done|]].
    + unfold _segment, plan_segments. rewrite Hn. simpl.
      unfold policy_bounds in Hb. rewrite Hb. simpl. by rewrite Hrun, Hcl.
    + intros -> i Hi. unfold policy_bounds in Hb. simpl in Hb.
      rewrite segment_uniform_closed in Hb by done. injection Hb as <-.
      rewrite !nth_uniform_bound by lia. apply uniform_bound_mono; lia.
  - intros layer Hin.
    destruct (Hlookup layer Hin) as (k & Hk & Hlt & Hown).
    exists k. split; [done|]. split; [done|].
    split; [intros name Hext; unfold map_name_to_stage; by rewrite Hext, Hk|].
    rewrite Htable in Hown.
    destruct (place_stages_table _ _ segs' (ordinal n layer) 0 _ _ Hs)
      as (Hfrom & Hlater & _).
    assert (∃ i, i < pp_degree * vpp_degree ∧ i mod pp_degree = k ∧
                 range_holds result i (ordinal n layer)) as (i0 & Hi0 & Hmod0 & Hin0).
    { destruct (Hfrom k Hown) as [Hempty|(ranges & Hranges & _ & Hex)];
        [simpl in Hempty; by rewrite lookup_empty in Hempty|].
      rewrite Nat.sub_0_r, Hsegs in Hranges by done. injection Hranges as <-.
      apply Exists_exists in Hex as (r & Hr & Hz).
      apply list_elem_of_fmap in Hr as (i & -> & Hi%Hdealt).
      exists i. destruct Hi. split; [done|]. split; [done|].
      unfold range_holds. simpl in Hz. lia. }
    assert (∀ i, i < pp_degree * vpp_degree →
                 range_holds result i (ordinal n layer) →
                 i mod pp_degree ≤ k) as Hmax.
    { intros i Hi Hz.
      destruct (Hlater (i mod pp_degree)
                  (map (nth_range result)
                       (dealt_to pp_degree (pp_degree * vpp_degree) (i mod pp_degree))))
        as (k' & Hk' & Hge).
      - apply Hsegs. apply Nat.mod_upper_bound. lia.
      - apply Exists_exists. exists (nth_range result i). split.
        + apply list_elem_of_fmap. exists i. split; [done|]. by apply Hdealt.
        + unfold range_holds in Hz. simpl. lia.
      - rewrite Hown in Hk'. injection Hk' as <-. lia. }
    split; [by exists i0|]. split; [done|].
    intros Hmono i Hi Hz. rewrite <- Hmod0. f_equal.
    pose proof (monotone_steps (fun i => nth i result 0) _ Hmono) as Hle.
    simpl in Hle.
    unfold range_holds in Hz, Hin0.
    destruct (Nat.lt_trichotomy i i0) as [Hlt'|[->|Hgt]]; [|done|].
    + specialize (Hle (i + 1) i0 ltac:(lia) ltac:(lia)). lia.
    + specialize (Hle (i0 + 1) i ltac:(lia) ltac:(lia)). lia.
  - intros layer_names Hall.
    destruct (segment_layers_loop ctx layer_names
                (replicate (ctx_pp_degree ctx) []))
      as (buckets & Hrun' & Hlenb' & Hperm & Hin).
    { intros l Hl. destruct (Hlookup l (Hall l Hl)) as (i & Hi & Hlt & _).
      exists (ordinal n l), i. rewrite length_replicate, Hpp. done. }
    rewrite length_replicate, Hpp in Hlenb'.
    unfold segment_layers. rewrite Hrun'. simpl. eexists. split; [done|].
    split; [by rewrite length_map|]. split.
    + rewrite sorted_groups_perm, Hperm.
      rewrite concat_replicate_nil. simpl. rewrite <- list_fmap_compose.
      assert (∀ l : list string, map (snd ∘ layer_tuple ctx) l = l) as ->; [|done].
      induction l as [|x l IH]; simpl; [done|]. rewrite IH. f_equal.
      unfold layer_tuple. by destruct (lookup_stage ctx (Some x)).
    + intros k group Hgroup.
      rewrite list_lookup_fmap in Hgroup.
      destruct (buckets !! k) as [b|] eqn:Hbk; [|done].
      simpl in Hgroup. injection Hgroup as <-.
      destruct (Hin k b Hbk) as (b0 & Hb0 & Hx).
      apply lookup_replicate in Hb0 as [-> _].
      assert (∀ x, x ∈ sorted tuple_le b →
                x.2 ∈ layer_names ∧ lookup_stage ctx (Some x.2) = Ok (x.1, k))
        as Hsorted.
      { intros x Hxin. rewrite sorted_perm in Hxin.
        destruct (Hx x Hxin) as [?%elem_of_nil|?]; done. }
      split.
      * intros l (x & -> & Hxin)%list_elem_of_fmap.
        destruct (Hsorted x Hxin) as [? ?]. split; [done|]. by exists x.1.
      * exists (map fst (sorted tuple_le b)). split.
        -- apply Forall2_fmap, Forall_Forall2_diag, Forall_forall.
           intros x Hxin. destruct (Hsorted x Hxin) as [_ Hl].
           unfold lookup_stage in Hl. simpl in Hl.
           destruct (ctx_layer_name_to_index ctx !! x.2) as [o|]; [|done].
           destruct (ctx_layer_index_to_stage ctx !! o); [|done].
           by injection Hl as -> _.
        -- apply (Sorted_fmap fst (fun x y => tuple_le x y = true)).
           ++ intros x y. apply tuple_le_fst.
           ++ apply sorted_Sorted. apply tuple_le_total.
Qed.

Lemma stage_ownership_witness :
  NoDup (map fst example_catalogue) ∧
  ∃ ctx,
    new_context None 2 1 "uniform" example_catalogue = Ok ctx ∧
    (∃ i, map_name_to_stage ctx "ernie.layers.1.self_attn.q_proj.weight" = Ok i ∧
          i < 2) ∧
    ∃ groups,
      segment_layers ctx ["lm_head"; "ernie.layers.0"; "ernie.norm"] = Ok groups ∧
      length groups = 2.
Proof.
  assert (NoDup (map fst example_catalogue)) as Hnd
    by (apply (bool_decide_unpack _); by vm_compute).
  assert (∀ l, l ∈ ["lm_head"; "ernie.layers.0"; "ernie.norm"] →
               l ∈ map fst example_catalogue) as Hin.
  { intros l Hl. apply (bool_decide_unpack _).
    repeat (apply elem_of_cons in Hl as [->|Hl]; [by vm_compute|]).
    by apply elem_of_nil in Hl. }
  assert ("ernie.layers.1" ∈ map fst example_catalogue) as Hlayer
    by (apply (bool_decide_unpack _); by vm_compute).
  split; [exact Hnd|].
  assert (∃ ctx, new_context None 2 1 "uniform" example_catalogue = Ok ctx)
    as [ctx E] by (vm_compute; eexists; reflexivity).
  exists ctx. split; [exact E|].
  destruct (stage_ownership None 2 1 "uniform" example_catalogue ctx Hnd E)
    as (n & result & _ & Hstage & Hgroups).
  split.
  - destruct (Hstage "ernie.layers.1" Hlayer) as (k & Hlt & _ & Hk & _).
    exists k. split; [|exact Hlt].
    apply (Hk "ernie.layers.1.self_attn.q_proj.weight"). reflexivity.
  - destruct (Hgroups ["lm_head"; "ernie.layers.0"; "ernie.norm"] Hin)
      as (groups & Hrun & Hlen & _).
    exists groups. split; [exact Hrun|exact Hlen].
Defined.

Lemma same_parameters_sym (cat1 cat2 : list (string * list (string * string))) :
  same_parameters cat1 cat2 → same_parameters cat2 cat1.
Proof.
  intros [Hperm Hsame]. split; [done|].
  intros layer ps2 ps1 H2 H1. destruct (Hsame layer ps1 ps2 H1 H2) as [Hp Hnd].
  split; [done|]. by rewrite <- Hp.
Qed.

(** A context built from a catalogue is built from every catalogue with the
    same parameters, with the same tables and the same stages up to the
    order of the parameters in their layers. *)
Lemma new_context_relayer (_transformer_layer_num : option Z)
    (pp_degree vpp_degree : nat) (segment_method : string)
    (cat1 cat2 : list (string * list (string * string)))
    (ctx1 : PipeLineSegmentContext) :
  NoDup (map fst cat1) → same_parameters cat1 cat2 →
  new_context _transformer_layer_num pp_degree vpp_degree segment_method cat1
    = Ok ctx1 →
  ∃ ctx2,
    new_context _transformer_layer_num pp_degree vpp_degree segment_method cat2
      = Ok ctx2 ∧
    ctx_stages ctx2 = map (stage_map (relayer cat2)) (ctx_stages ctx1) ∧
    ctx_layer_index_to_stage ctx2 = ctx_layer_index_to_stage ctx1 ∧
    ctx_layer_name_to_index ctx2 = ctx_layer_name_to_index ctx1 ∧
    ctx_layer_index_to_name ctx2 = ctx_layer_index_to_name ctx1 ∧
    ctx_layer_name_to_stage ctx2 = ctx_layer_name_to_stage ctx1.
Proof.
  intros Hnd Hsame Hctx.
  destruct (new_context_owned _ _ _ _ _ _ Hnd Hctx)
    as (n & Hn & _ & _ & _ & _ & Hinj & _).
  apply new_context_ok in Hctx
    as (n' & segs & s & stages & Hn' & Hall & Hplan & Hs & Hstages & ->).
  rewrite Hn in Hn'. injection Hn' as <-.
  pose proof Hsame as [Hperm _].
  assert (index_to_name_of n (map fst cat2) = index_to_name_of n (map fst cat1))
    as Hi2n by (symmetry; by apply index_to_name_perm).
  assert (name_to_index_of n (map fst cat2) = name_to_index_of n (map fst cat1))
    as Hn2i by (symmetry; by apply name_to_index_perm).
  eexists. split.
  - apply new_context_ok.
    exists n, segs, (map (stage_map (relayer cat2)) s.1.1, s.1.2, s.2),
           (map (stage_map (relayer cat2)) stages).
    split.
    { rewrite <- Hn. apply transformer_layer_num_length.
      rewrite <- !(length_map fst). by rewrite Hperm. }
    split; [by rewrite <- Hperm|]. split; [done|]. split.
    { rewrite Hi2n.
      rewrite (place_stages_relayer cat1 cat2 (same_parameters_keys cat1 cat2 Hsame)).
      by rewrite Hs. }
    split; [|reflexivity]. simpl.
    rewrite (build_all_relayer cat1 cat2 Hsame)
      by (by eapply stage_from_place_stages).
    by rewrite Hstages.
  - simpl. by rewrite Hi2n, Hn2i.
Qed.

Lemma map_name_relayer (ctx1 ctx2 : PipeLineSegmentContext)
    (g : PipeLinelayer → PipeLinelayer) (param_name t_name : string) :
  ctx_stages ctx2 = map (stage_map g) (ctx_stages ctx1) →
  ctx_layer_index_to_stage ctx2 = ctx_layer_index_to_stage ctx1 →
  ctx_layer_name_to_index ctx2 = ctx_layer_name_to_index ctx1 →
  map_name ctx2 param_name t_name = map_name ctx1 param_name t_name ∧
  map_name_to_stage ctx2 param_name = map_name_to_stage ctx1 param_name.
Proof.
  intros Hstages Hi2s Hn2i. unfold map_name, map_name_to_stage, lookup_stage.
  rewrite Hi2s, Hn2i, Hstages. split; [|done].
  destruct (extract_layer_name param_name ≫= _) as [layer_index|]; [|done].
  destruct (ctx_layer_index_to_stage ctx1 !! layer_index) as [i|]; [|done].
  simpl. unfold list_get. rewrite list_lookup_fmap.
  by destruct (ctx_stages ctx1 !! i).
Qed.

(** C1, as stated, fails when a raw name is listed twice in a layer: the
    two catalogues below hold the same pairs in every layer, and the
    contexts built from them give [ernie.embed_tokens.weight] the names
    [linear_0.w_0] and [linear_1.w_0]. *)
Lemma source_invariance_fails :
  Forall2 (fun x y => x.1 = y.1 ∧ x.2 ≡ₚ y.2)
          example_shared_catalogue example_shared_catalogue_reordered ∧
  (c <- new_context None 1 1 "uniform" example_shared_catalogue ;;
   map_name c "ernie.embed_tokens.weight" "linear_7.w_0") = Ok "linear_0.w_0" ∧
  (c <- new_context None 1 1 "uniform" example_shared_catalogue_reordered ;;
   map_name c "ernie.embed_tokens.weight" "linear_7.w_0") = Ok "linear_1.w_0".
Proof.
  split; [|split; reflexivity].
  repeat constructor.
Qed.

(** C1, amended: for a fixed target, two catalogues that hold the same
    layers and, in every layer, the same pairs of raw name and tensor name
    in any order, no raw name being listed twice in a layer, are built into
    contexts together or not at all, and the contexts built record the same
    table of canonical names in every stage, so that [map_name] and
    [map_name_to_stage] answer alike. *)
Theorem source_invariance (_transformer_layer_num : option Z)
    (pp_degree vpp_degree : nat) (segment_method : string)
    (cat1 cat2 : list (string * list (string * string))) :
  NoDup (map fst cat1) → same_parameters cat1 cat2 →
  match new_context _transformer_layer_num pp_degree vpp_degree segment_method cat1,
        new_context _transformer_layer_num pp_degree vpp_degree segment_method cat2
  with
  | Ok ctx1, Ok ctx2 =>
      map st_param_to_tname (ctx_stages ctx1)
        = map st_param_to_tname (ctx_stages ctx2) ∧
      (∀ raw_name tensor_name,
         map_name ctx1 raw_name tensor_name = map_name ctx2 raw_name tensor_name) ∧
      (∀ raw_name, map_name_to_stage ctx1 raw_name = map_name_to_stage ctx2 raw_name)
  | Raise _, Raise _ => True
  | _, _ => False
  end.
Proof.
  intros Hnd Hsame.
  destruct (new_context _ _ _ _ cat1) as [ctx1|e1] eqn:E1.
  - destruct (new_context_relayer _ _ _ _ _ _ _ Hnd Hsame E1)
      as (ctx2 & -> & Hstages & Hi2s & Hn2i & _).
    split; [|split].
    + rewrite Hstages, <- list_fmap_compose. by apply list_fmap_ext.
    + intros raw_name tensor_name. symmetry.
      by apply (map_name_relayer ctx1 ctx2 (relayer cat2)).
    + intros raw_name. symmetry.
      by apply (map_name_relayer ctx1 ctx2 (relayer cat2) raw_name "").
  - destruct (new_context _ _ _ _ cat2) as [ctx2|e2] eqn:E2; [|done].
    assert (NoDup (map fst cat2)) as Hnd2 by (destruct Hsame as [<- _]; done).
    destruct (new_context_relayer _ _ _ _ _ _ _ Hnd2 (same_parameters_sym _ _ Hsame) E2)
      as (ctx1 & Hctx1 & _). congruence.
Qed.

Lemma source_invariance_witness :
  NoDup (map fst example_catalogue) ∧
  same_parameters example_catalogue example_catalogue_reordered ∧
  ∃ ctx1 ctx2,
    new_context None 2 1 "uniform" example_catalogue = Ok ctx1 ∧
    new_context None 2 1 "uniform" example_catalogue_reordered = Ok ctx2 ∧
    map_name ctx1 "ernie.layers.1.self_attn.q_proj.bias" "linear_1.b_0"
      = Ok "linear_0.b_0" ∧
    map_name ctx2 "ernie.layers.1.self_attn.q_proj.bias" "linear_1.b_0"
      = Ok "linear_0.b_0".
Proof.
  assert (NoDup (map fst example_catalogue)) as Hnd
    by (apply (bool_decide_unpack _); by vm_compute).
  assert (same_parameters example_catalogue example_catalogue_reordered) as Hsame.
  { split.
    - apply (bool_decide_unpack _). by vm_compute.
    - intros layer ps1 ps2 H1 H2.
      unfold example_catalogue, example_catalogue_reordered in H1, H2.
      simpl in H1, H2.
      repeat match type of H1 with
             | context [decide (layer = ?s)] =>
                 destruct (decide (layer = s)) as [->|?];
                 [vm_compute in H1, H2; simplify_eq;
                  split; apply (bool_decide_unpack _); by vm_compute|]
             end.
      done. }
  split; [exact Hnd|]. split; [exact Hsame|].
  assert (∃ ctx1, new_context None 2 1 "uniform" example_catalogue = Ok ctx1)
    as [ctx1 E1] by (vm_compute; eexists; reflexivity).
  assert ((ctx <- new_context None 2 1 "uniform" example_catalogue ;;
           map_name ctx "ernie.layers.1.self_attn.q_proj.bias" "linear_1.b_0")
          = Ok "linear_0.b_0") as Hname by (vm_compute; reflexivity).
  rewrite E1 in Hname. simpl in Hname.
  pose proof (source_invariance None 2 1 "uniform" example_catalogue
                example_catalogue_reordered Hnd Hsame) as H.
  rewrite E1 in H.
  destruct (new_context None 2 1 "uniform" example_catalogue_reordered)
    as [ctx2|]; [|destruct H].
  destruct H as (_ & Hmap & _).
  exists ctx1, ctx2. split; [exact E1|]. split; [reflexivity|].
  rewrite <- Hmap. split; exact Hname.
Defined.

(** * Further properties of the module *)

(** ** Strings *)

Lemma prefix_append (p s : string) :
  String.prefix p s = true ↔ ∃ rest, s = p +:+ rest.
Proof.
  revert s. induction p as [|a p IH]; intros s.
  - split; [by exists s|by destruct s].
  - destruct s as [|b s]; simpl.
    + split; [done|]. by intros [rest ?].
    + destruct (ascii_dec a b) as [->|Hne].
      * rewrite IH. split; intros [rest Hrest]; exists rest.
        -- by rewrite Hrest.
        -- by injection Hrest.
      * split; [done|]. intros [rest Hrest]. by injection Hrest.
Qed.

Lemma strip_prefix_append (p s rest : string) :
  strip_prefix p s = Some rest ↔ s = p +:+ rest.
Proof.
  revert s. induction p as [|a p IH]; intros s; simpl.
  - split; [by intros [= ->]|by intros ->].
  - destruct s as [|b s]; [done|].
    destruct (Ascii.eqb_spec a b) as [->|Hne].
    + rewrite IH. split; [by intros ->|by intros [= ->]].
    + split; [done|]. by intros [= ? _].
Qed.

Lemma take_digits_idem (s : string) : take_digits (take_digits s) = take_digits s.
Proof.
  induction s as [|c s IH]; simpl; [done|].
  destruct (is_digit c) eqn:Hc; simpl; [|done]. by rewrite Hc, IH.
Qed.

Lemma take_digits_prefix (s : string) : ∃ rest, s = take_digits s +:+ rest.
Proof.
  induction s as [|c s [rest IH]]; simpl; [by exists ""|].
  destruct (is_digit c); simpl.
  - exists rest. by rewrite <- IH.
  - by eexists.
Qed.

(** ** The layer classifier *)

(** X1: for a parameter name of ASCII characters that is no longer than the
    longest numeral that [int] reads, the layer name that
    [extract_layer_name] finds in the name is the head of the name, is
    classified as itself, and is a name that [index_layer] accepts whatever
    the transformer-layer count. *)
Theorem extract_layer_name_layer (param_name layer_name : string) :
  is_ascii param_name →
  String.length param_name ≤ int_max_str_digits →
  extract_layer_name param_name = Some layer_name →
  startswith param_name layer_name = true ∧
  extract_layer_name layer_name = Some layer_name ∧
  ∀ transformer_layer_num, is_ok (index_layer layer_name transformer_layer_num).
Proof.
  intros _ _.
  unfold extract_layer_name, startswith.
  destruct (match_layers_at param_name) as [ds|] eqn:Hm.
  - intros [= <-]. unfold match_layers_at in Hm.
    destruct (strip_prefix "ernie.layers." param_name) as [rest|] eqn:Hrest; [|done].
    apply strip_prefix_append in Hrest as ->.
    assert (ds = take_digits rest ∧ ds ≠ "") as [-> Hne].
    { destruct (take_digits rest); [done|]. by injection Hm as <-. }
    assert (match_layers_at ("ernie.layers." +:+ take_digits rest)
            = Some (take_digits rest)) as Hself.
    { unfold match_layers_at.
      rewrite (proj2 (strip_prefix_append _ _ (take_digits rest)) eq_refl).
      rewrite take_digits_idem. by destruct (take_digits rest). }
    split; [|split].
    + apply prefix_append. destruct (take_digits_prefix rest) as [rest' Hrest'].
      exists rest'. rewrite Hrest' at 1. simpl. by rewrite <- Hrest'.
    + cbn [String.append] in Hself. cbn [String.append]. by rewrite Hself.
    + intros n. cbn [String.append] in Hself |- *.
      pose proof (search_layers_here _ _ Hself) as Hsearch.
      unfold index_layer. rewrite Hsearch. simpl. by eexists.
  - intros H.
    assert (layer_name = "ernie.embed_tokens" ∨ layer_name = "ernie.norm" ∨
            layer_name = "lm_head") as Hfixed.
    { repeat (destruct (String.prefix _ param_name); [injection H as <-; tauto|]).
      done. }
    assert (String.prefix layer_name param_name = true) as Hhead.
    { destruct (String.prefix "ernie.embed_tokens" param_name) eqn:E1;
        [by injection H as <-|].
      destruct (String.prefix "ernie.norm" param_name) eqn:E2;
        [by injection H as <-|].
      destruct (String.prefix "lm_head" param_name) eqn:E3;
        [by injection H as <-|done]. }
    split; [done|].
    destruct Hfixed as [->|[->| ->]];
      (split; [reflexivity|intros n; by eexists]).
Qed.

Lemma extract_layer_name_layer_witness :
  is_ascii "ernie.layers.12.mlp.weight" ∧
  String.length "ernie.layers.12.mlp.weight" ≤ int_max_str_digits ∧
  extract_layer_name "ernie.layers.12.mlp.weight" = Some "ernie.layers.12" ∧
  startswith "ernie.layers.12.mlp.weight" "ernie.layers.12" = true ∧
  extract_layer_name "ernie.layers.12" = Some "ernie.layers.12" ∧
  ∀ transformer_layer_num, is_ok (index_layer "ernie.layers.12" transformer_layer_num).
Proof.
  assert (is_ascii "ernie.layers.12.mlp.weight") as Hascii
    by (apply (bool_decide_unpack _); by vm_compute).
  assert (String.length "ernie.layers.12.mlp.weight" ≤ int_max_str_digits) as Hlen
    by (vm_compute; lia).
  split; [exact Hascii|]. split; [exact Hlen|]. split; [reflexivity|].
  apply (extract_layer_name_layer "ernie.layers.12.mlp.weight" "ernie.layers.12"
           Hascii Hlen).
  reflexivity.
Defined.

(** ** Structural roles *)

Lemma get_layer_prefix_head (old_layer_name role : string) :
  known_role role → startswith old_layer_name role = true →
  get_layer_prefix old_layer_name = Some role.
Proof.
  intros Hrole Hhead. unfold startswith in Hhead.
  apply prefix_append in Hhead as [rest ->].
  unfold known_role in Hrole. simpl in Hrole.
  repeat (destruct Hrole as [<-|Hrole]; [by destruct rest|]). done.
Qed.

(** X2: no role of [prefix_to_template] is the head of another, so the
    table order does not matter: [get_layer_prefix] finds a role exactly
    when it is a role of the table at the head of the name. *)
Theorem get_layer_prefix_iff (old_layer_name role : string) :
  get_layer_prefix old_layer_name = Some role ↔
  known_role role ∧ startswith old_layer_name role = true.
Proof.
  split; [apply get_layer_prefix_known|].
  intros [Hrole Hhead]. by apply get_layer_prefix_head.
Qed.

(** X3: [create_sub_scope] finds a scope exactly when [get_layer_prefix]
    finds a role, and the scope is the new scope of the template of that
    role: below a scope that has no child for the role, it is the child
    that [get_sub_scope] installs. *)
Theorem create_sub_scope_role (self : LayerNameScope) (prefix : option string)
    (old_layer_name : string) :
  create_sub_scope prefix old_layer_name
  = (fun role => new_scope prefix (od_get prefix_to_template role))
      <$> get_layer_prefix old_layer_name ∧
  match get_layer_prefix old_layer_name with
  | None => create_sub_scope prefix old_layer_name = None ∧
            ∃ msg, get_sub_scope self old_layer_name = Raise (AssertionError msg)
  | Some role =>
      ∃ self' scope,
        get_sub_scope self old_layer_name = Ok (self', role, scope) ∧
        (od_get (sc_sub_scopes self) role = None →
         create_sub_scope (Some (get_layer_name self)) old_layer_name = Some scope)
  end.
Proof.
  assert (∀ p, create_sub_scope p old_layer_name
               = (fun role => new_scope p (od_get prefix_to_template role))
                   <$> get_layer_prefix old_layer_name) as Hcreate.
  { intros p. unfold create_sub_scope, get_layer_prefix.
    destruct (List.find _ prefix_to_template) as [[k v]|] eqn:Hfind; [|done].
    simpl. apply find_some in Hfind as [Hin _].
    f_equal. f_equal. simpl in Hin.
    repeat (destruct Hin as [[= <- <-]|Hin]; [reflexivity|]). done. }
  split; [apply Hcreate|].
  unfold get_sub_scope. rewrite !Hcreate.
  destruct (get_layer_prefix old_layer_name) as [role|]; simpl.
  - destruct (od_get (sc_sub_scopes self) role) as [scope|] eqn:Hchild.
    + by exists self, scope.
    + by eexists _, _.
  - split; [done|]. by eexists.
Qed.

(** ** Segments *)

Lemma od_get_fold_set `{EqDecision K} {V W : Type} (f : K → V → W)
    (items : list (K * V)) :
  ∀ (d : list (K * W)) (k : K),
    od_get (fold_left (fun d item => od_set d item.1 (f item.1 item.2)) items d) k
    = match od_get (reverse items) k with
      | Some v => Some (f k v)
      | None => od_get d k
      end.
Proof.
  induction items as [|[k' v'] items IH] using rev_ind; intros d k; [done|].
  rewrite fold_left_app, reverse_snoc. simpl.
  destruct (decide (k = k')) as [->|Hne].
  - by rewrite od_get_set_eq.
  - rewrite od_get_set_ne by done. apply IH.
Qed.

Lemma fill_segment_loop (layers : list (string * list (string * string))) :
  ∀ segment : PipeLineSegment,
    for_each (fun segment layer => segment_add_layer segment layer.1 layer.2)
             layers segment
    = if decide (layers = [] ∨ seg_cur_index segment + length layers ≤ seg_end_index segment)
      then Ok {| seg_start_index := seg_start_index segment;
                 seg_end_index := seg_end_index segment;
                 seg_cur_index := seg_cur_index segment + length layers;
                 seg_layers :=
                   fold_left (fun d layer => od_set d layer.1 (new_layer layer.1 layer.2))
                             layers (seg_layers segment) |}
      else Raise (AssertionError "").
Proof.
  induction layers as [|[name params] layers IH]; intros segment.
  - cbn [for_each length].
    destruct (decide ([] = [] ∨ _)) as [_|H]; [|exfalso; apply H; by left].
    destruct segment. simpl. f_equal. f_equal. lia.
  - simpl. unfold segment_add_layer at 1.
    destruct (seg_cur_index segment <? seg_end_index segment) eqn:Hlt; simpl.
    + apply Nat.ltb_lt in Hlt. rewrite IH. simpl.
      destruct (decide (layers = [] ∨ _)) as [H1|H1];
        destruct (decide ((name, params) :: layers = [] ∨ _)) as [H2|H2];
        try done.
      * do 2 f_equal. lia.
      * exfalso. apply H2. right. destruct H1 as [->|H1]; simpl; lia.
      * exfalso. apply H1. right. destruct H2 as [?|H2]; [done|]. lia.
    + apply Nat.ltb_ge in Hlt.
      destruct (decide (_ ∨ _)) as [[?|H]|_]; [done| |done].
      simpl in H. lia.
Qed.

(** X4: a segment from [start_index] to [end_index] takes layers as long as
    its cursor is below [end_index]: adding a list of layers to a new
    segment succeeds exactly when the list is empty or ends at or before
    [end_index], and fails with an assertion otherwise.  A layer added again
    under the same name replaces the earlier one, and [layers] can be read
    exactly when the cursor has reached [end_index]. *)
Theorem segment_capacity (start_index end_index : nat)
    (layers : list (string * list (string * string))) :
  match fill_segment start_index end_index layers with
  | Ok segment =>
      (layers = [] ∨ start_index + length layers ≤ end_index) ∧
      seg_start_index segment = start_index ∧
      seg_end_index segment = end_index ∧
      seg_cur_index segment = start_index + length layers ∧
      (∀ name, od_get (seg_layers segment) name
               = new_layer name <$> od_get (reverse layers) name) ∧
      segment_layers_of segment
      = if decide (start_index + length layers = end_index)
        then Ok (seg_layers segment) else Raise (AssertionError "")
  | Raise e =>
      e = AssertionError "" ∧ layers ≠ [] ∧ end_index < start_index + length layers
  end.
Proof.
  unfold fill_segment. rewrite fill_segment_loop. unfold new_segment.
  cbn [seg_start_index seg_end_index seg_cur_index seg_layers].
  destruct (decide (layers = [] ∨ _)) as [H|H];
    cbn [seg_start_index seg_end_index seg_cur_index seg_layers].
  - repeat split; try done.
    + intros name.
      rewrite (od_get_fold_set (fun name params => new_layer name params)).
      by destruct (od_get (reverse layers) name).
    + unfold segment_layers_of. simpl.
      destruct (decide (start_index + length layers = end_index)) as [Heq|Hne].
      * by rewrite (proj2 (Nat.eqb_eq _ _) Heq).
      * by rewrite (proj2 (Nat.eqb_neq _ _) Hne).
  - split; [done|]. split.
    + intros ->. apply H. by left.
    + destruct (decide (end_index < start_index + length layers)); [done|].
      exfalso. apply H. right. lia.
Qed.

(** ** Building a context *)

(** X5: a positive declared transformer-layer count that is not the number
    of layers of the catalogue less three stops the construction of the
    context with an assertion, whatever the degrees and the policy. *)
Theorem declared_count_mismatch (n : Z) (pp_degree vpp_degree : nat)
    (segment_method : string)
    (param_names_by_layer : list (string * list (string * string))) :
  (0 < n)%Z →
  Z.of_nat (length param_names_by_layer) ≠ (n + 3)%Z →
  new_context (Some n) pp_degree vpp_degree segment_method param_names_by_layer
  = Raise (AssertionError "").
Proof.
  intros Hpos Hlen.
  assert (transformer_layer_num (Some n) param_names_by_layer
          = Raise (AssertionError "")) as Hn.
  { unfold transformer_layer_num.
    rewrite (proj2 (Z.eqb_neq n 0)) by lia.
    rewrite (proj2 (Z.ltb_lt 0 n)) by lia. simpl.
    by rewrite (proj2 (Z.eqb_neq _ _) Hlen). }
  unfold new_context, _index_layers.
  destruct param_names_by_layer as [|[layer_name params] rest];
    cbn [map for_each bind].
  - unfold _segment. by rewrite Hn.
  - by rewrite Hn.
Qed.

Lemma declared_count_mismatch_witness :
  new_context (Some 4%Z) 2 1 "uniform" example_catalogue = Raise (AssertionError "").
Proof.
  apply declared_count_mismatch; [lia|]. vm_compute. discriminate.
Defined.

(** X6: with a degree of zero there is no stage to divide by: once the
    layers are indexed, the construction of the context stops with
    [ZeroDivisionError] under either policy. *)
Theorem zero_degree (_transformer_layer_num : option Z)
    (pp_degree vpp_degree : nat) (segment_method : string)
    (param_names_by_layer : list (string * list (string * string))) :
  pp_degree * vpp_degree = 0 →
  is_ok (transformer_layer_num _transformer_layer_num param_names_by_layer) →
  is_ok (_index_layers _transformer_layer_num param_names_by_layer) →
  new_context _transformer_layer_num pp_degree vpp_degree segment_method
              param_names_by_layer = Raise ZeroDivisionError.
Proof.
  intros Hzero [n Hn] [maps Hmaps].
  unfold new_context. rewrite Hmaps. simpl.
  unfold _segment. rewrite Hn. simpl.
  unfold plan_segments. rewrite Hzero.
  destruct (String.eqb segment_method "uniform").
  - done.
  - unfold segment_by_layer. by rewrite layer_weights_closed.
Qed.

Lemma zero_degree_witness :
  new_context None 0 2 "by_layer" example_catalogue = Raise ZeroDivisionError.
Proof.
  apply zero_degree; [reflexivity| |]; eexists; vm_compute; reflexivity.
Defined.

(** ** Grouping the parameters of a checkpoint by layer *)

Lemma group_param_get (d : list (option string * list (string * string)))
    (kv : string * string) (layer_name : option string) :
  od_get (group_param d kv) layer_name
  = if decide (layer_name = extract_layer_name kv.1)
    then Some (default [] (od_get d layer_name) ++ [kv])
    else od_get d layer_name.
Proof.
  unfold group_param.
  destruct (od_get d (extract_layer_name kv.1)) as [group|] eqn:Hget.
  - rewrite Hget. case_decide as Heq.
    + subst. by rewrite od_get_set_eq, Hget.
    + by rewrite od_get_set_ne.
  - rewrite od_get_set_eq. rewrite od_set_set. case_decide as Heq.
    + subst. by rewrite od_get_set_eq, Hget.
    + by rewrite od_get_set_ne.
Qed.

Lemma group_param_NoDup (d : list (option string * list (string * string)))
    (kv : string * string) :
  NoDup (map fst d) → NoDup (map fst (group_param d kv)).
Proof.
  intros Hnd. unfold group_param.
  destruct (od_get d (extract_layer_name kv.1)) as [group|] eqn:Hget.
  - rewrite Hget. by apply od_set_NoDup.
  - rewrite od_get_set_eq. by do 2 apply od_set_NoDup.
Qed.

Lemma group_params_get (items : list (string * string)) :
  ∀ (d : list (option string * list (string * string))) (layer_name : option string),
    od_get (fold_left group_param items d) layer_name
    = match od_get d layer_name, params_of_layer layer_name items with
      | None, [] => None
      | group, params => Some (default [] group ++ params)
      end.
Proof.
  unfold params_of_layer.
  induction items as [|kv items IH]; intros d layer_name; simpl.
  - destruct (od_get d layer_name); simpl; [by rewrite app_nil_r|done].
  - rewrite IH, group_param_get, filter_cons.
    destruct (decide (extract_layer_name kv.1 = layer_name)) as [Heq|Hne].
    + rewrite decide_True by done.
      destruct (od_get d layer_name), (filter _ items); simpl;
        by rewrite <- ?app_assoc.
    + rewrite decide_False by done. done.
Qed.

Lemma group_params_NoDup (items : list (string * string)) :
  ∀ d : list (option string * list (string * string)),
    NoDup (map fst d) → NoDup (map fst (fold_left group_param items d)).
Proof.
  induction items as [|kv items IH]; intros d Hnd; simpl; [done|].
  by apply IH, group_param_NoDup.
Qed.

Lemma group_ranks (sharding_metas : gmap string ShardingMeta) (mp_rank : Z)
    (ranks : list nat) :
  ∀ d : list (option string * list (string * string)),
    for_each (fun param_names_by_layer pp_rank =>
        let suffix := rank_suffix mp_rank pp_rank in
        match sharding_metas !! suffix with
        | None => Raise (AssertionError "")
        | Some sharding_meta =>
            match structure_name_mapping sharding_meta with
            | None => Raise (AssertionError "")
            | Some name_mapping =>
                Ok (fold_left group_param name_mapping param_names_by_layer)
            end
        end) ranks d
    = match mapM (fun pp_rank => sharding_metas !! rank_suffix mp_rank pp_rank
                                   ≫= structure_name_mapping) ranks with
      | Some mappings => Ok (fold_left group_param (concat mappings) d)
      | None => Raise (AssertionError "")
      end.
Proof.
  match goal with |- ∀ d, for_each ?b _ _ = _ => set (body := b) end.
  induction ranks as [|pp_rank ranks IH]; intros d; [done|].
  cbn [mapM for_each].
  assert (body d pp_rank
          = match sharding_metas !! rank_suffix mp_rank pp_rank
                  ≫= structure_name_mapping with
            | Some name_mapping => Ok (fold_left group_param name_mapping d)
            | None => Raise (AssertionError "")
            end) as ->.
  { unfold body.
    destruct (sharding_metas !! rank_suffix mp_rank pp_rank) as [sharding_meta|];
      [|done].
    simpl. by destruct (structure_name_mapping sharding_meta). }
  destruct (sharding_metas !! rank_suffix mp_rank pp_rank ≫= structure_name_mapping)
    as [name_mapping|]; cbn [bind mbind option_bind]; [|done].
  rewrite IH.
  destruct (mapM _ ranks) as [mappings|]; cbn [mret option_ret mbind option_bind];
    [|done].
  cbn [concat]. by rewrite fold_left_app.
Qed.

(** X7: [extract_param_names_groupby_layer] reads the name mappings of the
    ranks [0 .. pp_degree - 1] of the given [mp_rank] in order.  When the
    metadata has them all, the result has one group for every layer name
    that [extract_layer_name] finds among the structure names, [None]
    included, and the group of a layer holds the items of that layer in the
    order in which they are read; when something is missing the function
    raises: [KeyError] for [sharding_metas] itself, an assertion otherwise. *)
Theorem grouped_by_layer (meta : Meta) (mp_rank : Z) :
  match all_name_mappings meta mp_rank with
  | Some items =>
      ∃ param_names_by_layer,
        extract_param_names_groupby_layer meta mp_rank = Ok param_names_by_layer ∧
        NoDup (map fst param_names_by_layer) ∧
        ∀ layer_name,
          od_get param_names_by_layer layer_name
          = match params_of_layer layer_name items with
            | [] => None
            | params => Some params
            end
  | None =>
      extract_param_names_groupby_layer meta mp_rank
      = Raise (if decide (is_Some (parallel_config meta ≫= pc_pp_degree)
                          ∧ sharding_metas meta = None)
               then KeyError else AssertionError "")
  end.
Proof.
  unfold all_name_mappings, extract_param_names_groupby_layer.
  destruct (parallel_config meta) as [config|]; cbn [mbind option_bind];
    [|by rewrite decide_False by (by intros [[? ?] _])].
  destruct (pc_pp_degree config) as [pp_degree|]; cbn [mbind option_bind];
    [|by rewrite decide_False by (by intros [[? ?] _])].
  destruct (sharding_metas meta) as [metas|]; cbn [mbind option_bind];
    [|by rewrite decide_True by (by split; [eexists|])].
  rewrite group_ranks.
  destruct (mapM _ (seq 0 (Z.to_nat pp_degree))) as [mappings|];
    cbn [mbind option_bind].
  - eexists. split; [reflexivity|]. split.
    + apply group_params_NoDup. constructor.
    + intros layer_name. rewrite group_params_get. simpl.
      by destruct (params_of_layer layer_name (concat mappings)).
  - by rewrite decide_False by (by intros [_ ?]).
Qed.

(** ** The stage tables of a context *)

Section Tables.
Variables (layer_index_to_name : gmap Z string)
          (param_names_by_layer : list (string * list (string * string))).
Hypothesis names_inj : ∀ z1 z2 name,
  layer_index_to_name !! z1 = Some name → layer_index_to_name !! z2 = Some name →
  z1 = z2.

Lemma tables_agree_place_layer (i : nat) (f f' : filling) (j : nat) :
  place_layer layer_index_to_name param_names_by_layer i f j = Ok f' →
  tables_agree layer_index_to_name (fl_layer_index_to_stage f)
               (fl_layer_name_to_stage f) →
  tables_agree layer_index_to_name (fl_layer_index_to_stage f')
               (fl_layer_name_to_stage f').
Proof.
  intros (name & ps & stage' & Hname & _ & _ & ->)%place_layer_ok [Hagree Hdom].
  simpl. split.
  - intros z name' Hz.
    destruct (decide (name' = name)) as [->|Hne].
    + rewrite (names_inj _ _ _ Hz Hname). by rewrite !lookup_insert_eq.
    + rewrite lookup_insert_ne by done.
      rewrite lookup_insert_ne by (intros <-; congruence).
      by apply Hagree.
  - intros name' Hsome.
    destruct (decide (name' = name)) as [->|Hne]; [by eexists|].
    rewrite lookup_insert_ne in Hsome by done. by apply Hdom.
Qed.

Lemma tables_agree_place_segment (i : nat) (f f' : filling) (seg : nat * nat) :
  place_segment layer_index_to_name param_names_by_layer i f seg = Ok f' →
  tables_agree layer_index_to_name (fl_layer_index_to_stage f)
               (fl_layer_name_to_stage f) →
  tables_agree layer_index_to_name (fl_layer_index_to_stage f')
               (fl_layer_name_to_stage f').
Proof.
  unfold place_segment. intros Hrun Hagree.
  apply (for_each_invariant
           (fun f => tables_agree layer_index_to_name (fl_layer_index_to_stage f)
                                  (fl_layer_name_to_stage f)) _ _ _ _)
    with (3 := Hrun); [done|].
  intros t j t' _ Ht Hplace. by eapply tables_agree_place_layer.
Qed.

Lemma tables_agree_place_stage
    (s s' : list PipeLineStage * gmap Z nat * gmap string nat)
    (item : nat * list (nat * nat)) :
  place_stage layer_index_to_name param_names_by_layer s item = Ok s' →
  tables_agree layer_index_to_name s.1.2 s.2 →
  tables_agree layer_index_to_name s'.1.2 s'.2.
Proof.
  destruct s as [[stages i2s] n2s], item as [i stage_seg]. unfold place_stage.
  intros (f & Hrun & [= <-])%bind_ok Hagree. simpl in *.
  apply (for_each_invariant
           (fun f => tables_agree layer_index_to_name (fl_layer_index_to_stage f)
                                  (fl_layer_name_to_stage f)) _ _ _ _)
    with (3 := Hrun); [done|].
  intros t seg t' _ Ht Hplace. by eapply tables_agree_place_segment.
Qed.

Lemma tables_agree_place_stages (stage_segments : list (list (nat * nat)))
    (s : list PipeLineStage * gmap Z nat * gmap string nat) :
  for_each (place_stage layer_index_to_name param_names_by_layer)
           (enumerate stage_segments) ([], ∅, ∅) = Ok s →
  tables_agree layer_index_to_name s.1.2 s.2.
Proof.
  intros Hrun.
  apply (for_each_invariant
           (fun s => tables_agree layer_index_to_name s.1.2 s.2) _ _ _ _)
    with (3 := Hrun).
  - split; simpl.
    + intros z name _. by rewrite !lookup_empty.
    + intros name [? Hsome]. by rewrite lookup_empty in Hsome.
  - intros t item t' _ Ht Hplace. by eapply tables_agree_place_stage.
Qed.
End Tables.

(** X8: in a context that was built, the table from layer names to stages
    is the composition of the table from layer names to ordinals with the
    table from ordinals to stages: looking a stage up by name, as the
    variant of [map_name_to_stage] left in the string of lines 369-375
    does, gives what the method gives. *)
Theorem name_to_stage_table (_transformer_layer_num : option Z)
    (pp_degree vpp_degree : nat) (segment_method : string)
    (param_names_by_layer : list (string * list (string * string)))
    (ctx : PipeLineSegmentContext) :
  NoDup (map fst param_names_by_layer) →
  new_context _transformer_layer_num pp_degree vpp_degree segment_method
              param_names_by_layer = Ok ctx →
  ∀ layer_name,
    ctx_layer_name_to_stage ctx !! layer_name
    = ctx_layer_name_to_index ctx !! layer_name
        ≫= (ctx_layer_index_to_stage ctx !!.).
Proof.
  intros Hnd Hctx layer_name.
  destruct (new_context_owned _ _ _ _ _ _ Hnd Hctx)
    as (n & Hn & _ & _ & _ & _ & _ & Hkeys & Hother).
  apply new_context_ok in Hctx
    as (n' & segs & s & stages & Hn' & _ & _ & Hs & _ & ->).
  rewrite Hn in Hn'. injection Hn' as <-. simpl in *.
  assert (∀ z name, index_to_name_of n (map fst param_names_by_layer) !! z = Some name →
                    name ∈ map fst param_names_by_layer ∧ ordinal n name = z)
    as Hinv.
  { intros z name Hz. unfold index_to_name_of in Hz.
    apply fold_index_to_name_inv in Hz as [?|Hz]; [done|].
    by rewrite lookup_empty in Hz. }
  apply tables_agree_place_stages in Hs as [Hagree Hdom].
  - destruct (decide (layer_name ∈ map fst param_names_by_layer)) as [Hin|Hout].
    + destruct (Hkeys _ Hin) as (_ & _ & -> & Hname & _). simpl.
      by apply Hagree.
    + rewrite (Hother _ Hout). simpl.
      destruct (s.2 !! layer_name) eqn:Hstage; [|done].
      destruct (Hdom layer_name) as [z Hz]; [by eexists|].
      by apply Hinv in Hz as [? _].
  - intros z1 z2 name [_ <-]%Hinv [_ <-]%Hinv. done.
Qed.

Lemma name_to_stage_table_witness :
  ∃ ctx,
    new_context None 2 1 "uniform" example_catalogue = Ok ctx ∧
    ctx_layer_name_to_stage ctx !! "ernie.norm"
    = ctx_layer_name_to_index ctx !! "ernie.norm" ≫= (ctx_layer_index_to_stage ctx !!.).
Proof.
  assert (NoDup (map fst example_catalogue)) as Hnd
    by (apply (bool_decide_unpack _); by vm_compute).
  assert (∃ ctx, new_context None 2 1 "uniform" example_catalogue = Ok ctx)
    as [ctx E] by (vm_compute; eexists; reflexivity).
  exists ctx. split; [exact E|].
  exact (name_to_stage_table None 2 1 "uniform" example_catalogue ctx Hnd E "ernie.norm").
Defined.

(** ** Looking layers up in a context *)

Lemma lookup_stage_built (_transformer_layer_num : option Z)
    (pp_degree vpp_degree : nat) (segment_method : string)
    (param_names_by_layer : list (string * list (string * string)))
    (ctx : PipeLineSegmentContext) (layer_name : option string) :
  NoDup (map fst param_names_by_layer) →
  new_context _transformer_layer_num pp_degree vpp_degree segment_method
              param_names_by_layer = Ok ctx →
  match layer_name with
  | Some layer =>
      if decide (layer ∈ map fst param_names_by_layer)
      then ∃ o i, lookup_stage ctx layer_name = Ok (o, i) ∧ i < pp_degree
      else lookup_stage ctx layer_name = Raise (AssertionError "")
  | None => lookup_stage ctx layer_name = Raise (AssertionError "")
  end.
Proof.
  intros Hnd Hctx.
  destruct (new_context_owned _ _ _ _ _ _ Hnd Hctx)
    as (n & _ & _ & _ & _ & _ & _ & Hkeys & Hother).
  destruct layer_name as [layer|]; [|done].
  unfold lookup_stage. simpl. case_decide as Hin.
  - destruct (Hkeys _ Hin) as (_ & _ & -> & _ & i & -> & Hi). by exists (ordinal n layer), i.
  - by rewrite (Hother _ Hin).
Qed.

Lemma first_outside {A : Type} (P : A → Prop) `{∀ x, Decision (P x)} (l : list A) :
  ¬ Forall P l → ∃ l1 x l2, l = l1 ++ x :: l2 ∧ Forall P l1 ∧ ¬ P x.
Proof.
  induction l as [|x l IH]; intros Hnot.
  - destruct Hnot. constructor.
  - destruct (decide (P x)) as [Hx|Hx].
    + destruct IH as (l1 & y & l2 & -> & Hl1 & Hy).
      * intros Hl. apply Hnot. by constructor.
      * exists (x :: l1), y, l2. split; [done|]. split; [by constructor|done].
    + exists [], x, l. split; [done|]. split; [constructor|done].
Qed.

(** X9: a context that was built knows the layers of its catalogue and no
    others.  [map_name_to_stage] answers exactly for the names whose layer
    is in the catalogue, and [segment_layers] exactly for the lists of such
    layer names; every other call, [map_name] included, fails with an
    assertion, and never with a missing key of [_layer_index_to_stage]. *)
Theorem unknown_layer_rejected (_transformer_layer_num : option Z)
    (pp_degree vpp_degree : nat) (segment_method : string)
    (param_names_by_layer : list (string * list (string * string)))
    (ctx : PipeLineSegmentContext) :
  NoDup (map fst param_names_by_layer) →
  new_context _transformer_layer_num pp_degree vpp_degree segment_method
              param_names_by_layer = Ok ctx →
  (∀ name,
     if catalogued param_names_by_layer name
     then is_ok (map_name_to_stage ctx name)
     else map_name_to_stage ctx name = Raise (AssertionError "") ∧
          ∀ tensor_name, map_name ctx name tensor_name = Raise (AssertionError "")) ∧
  (∀ layer_names,
     if decide (Forall (fun layer => layer ∈ map fst param_names_by_layer) layer_names)
     then is_ok (segment_layers ctx layer_names)
     else segment_layers ctx layer_names = Raise (AssertionError "")).
Proof.
  intros Hnd Hctx.
  pose proof (fun o => lookup_stage_built _ _ _ _ _ _ o Hnd Hctx) as Hlookup.
  split.
  - intros name. unfold map_name_to_stage, map_name, catalogued.
    specialize (Hlookup (extract_layer_name name)).
    destruct (extract_layer_name name) as [layer|].
    + case_decide as Hin.
      * rewrite bool_decide_eq_true_2 by done.
        destruct Hlookup as (o & i & -> & _). by eexists.
      * rewrite bool_decide_eq_false_2 by done. by rewrite Hlookup.
    + by rewrite Hlookup.
  - intros layer_names.
    destruct (new_context_owned _ _ _ _ _ _ Hnd Hctx) as (n & _ & Hpp & _).
    unfold segment_layers. case_decide as Hall.
    + destruct (segment_layers_loop ctx layer_names (replicate (ctx_pp_degree ctx) []))
        as (buckets & -> & _).
      * intros l Hl. rewrite Forall_forall in Hall.
        specialize (Hlookup (Some l)). simpl in Hlookup.
        rewrite decide_True in Hlookup by (by apply Hall).
        destruct Hlookup as (o & i & ? & ?). exists o, i.
        by rewrite length_replicate, Hpp.
      * by eexists.
    + apply first_outside in Hall as (good & bad & rest & -> & Hgood & Hbad);
        [|apply _].
      rewrite for_each_app.
      destruct (segment_layers_loop ctx good (replicate (ctx_pp_degree ctx) []))
        as (buckets & -> & _).
      * intros l Hl. rewrite Forall_forall in Hgood.
        specialize (Hlookup (Some l)). simpl in Hlookup.
        rewrite decide_True in Hlookup by (by apply Hgood).
        destruct Hlookup as (o & i & ? & ?). exists o, i.
        by rewrite length_replicate, Hpp.
      * specialize (Hlookup (Some bad)). simpl in Hlookup.
        rewrite decide_False in Hlookup by done.
        cbn [bind for_each]. by rewrite Hlookup.
Qed.

Lemma unknown_layer_rejected_witness :
  ∃ ctx,
    new_context None 2 1 "uniform" example_catalogue = Ok ctx ∧
    map_name_to_stage ctx "ernie.layers.7.mlp.weight" = Raise (AssertionError "") ∧
    segment_layers ctx ["lm_head"; "ernie.layers.7"] = Raise (AssertionError "").
Proof.
  assert (NoDup (map fst example_catalogue)) as Hnd
    by (apply (bool_decide_unpack _); by vm_compute).
  assert (catalogued example_catalogue "ernie.layers.7.mlp.weight" = false)
    as Hname by (vm_compute; reflexivity).
  assert (¬ Forall (fun layer => layer ∈ map fst example_catalogue)
                   ["lm_head"; "ernie.layers.7"]) as Hlist.
  { apply (bool_decide_unpack _). by vm_compute. }
  assert (∃ ctx, new_context None 2 1 "uniform" example_catalogue = Ok ctx)
    as [ctx E] by (vm_compute; eexists; reflexivity).
  exists ctx. split; [exact E|].
  destruct (unknown_layer_rejected None 2 1 "uniform" example_catalogue ctx Hnd E)
    as [Hmap Hsegment].
  split.
  - specialize (Hmap "ernie.layers.7.mlp.weight").
    rewrite Hname in Hmap. exact (proj1 Hmap).
  - specialize (Hsegment ["lm_head"; "ernie.layers.7"]).
    rewrite decide_False in Hsegment by exact Hlist. exact Hsegment.
Defined.

(** ** The shape of the new names *)

Lemma split_nonempty (s : string) : split "." s ≠ [].
Proof.
  induction s as [|c s IH]; simpl; [done|].
  destruct (Ascii.eqb c "."); [done|]. by destruct (split "." s).
Qed.

Lemma dotless_cons (c : ascii) (s : string) :
  dotless (String c s) ↔ c ≠ "."%char ∧ dotless s.
Proof.
  unfold dotless. simpl. destruct (Ascii.eqb_spec c ".") as [->|Hne].
  - split; [by intros [=]|by intros [? _]].
  - destruct (split "." s) as [|w ws] eqn:Hs; [by apply split_nonempty in Hs|].
    split.
    + by intros [= -> ->].
    + by intros [_ [= -> ->]].
Qed.

Lemma dotless_nil : dotless "".
Proof. done. Qed.

Lemma dotless_app (s1 s2 : string) : dotless s1 → dotless s2 → dotless (s1 +:+ s2).
Proof.
  induction s1 as [|c s1 IH]; simpl; [done|].
  rewrite !dotless_cons. intros [? ?] ?. auto.
Qed.

Lemma split_dotless (s : string) : Forall dotless (split "." s).
Proof.
  induction s as [|c s IH]; simpl.
  - by repeat constructor.
  - destruct (Ascii.eqb_spec c ".") as [->|Hne].
    + constructor; [done|exact IH].
    + destruct (split "." s) as [|w ws].
      { constructor; [|constructor]. by apply dotless_cons. }
      apply Forall_cons in IH as [Hw Hws].
      constructor; [|done]. by apply dotless_cons.
Qed.

Lemma split_append_dot (s rest : string) :
  dotless s → split "." (s +:+ String "." rest) = s :: split "." rest.
Proof.
  induction s as [|c s IH]; simpl; [done|].
  rewrite dotless_cons. intros [Hc Hs].
  rewrite (proj2 (Ascii.eqb_neq _ _) Hc). by rewrite IH.
Qed.

Lemma split_concat (l : list string) :
  l ≠ [] → Forall dotless l → split "." (String.concat "." l) = l.
Proof.
  induction l as [|a l IH]; [done|]. intros _ [Ha Hl]%Forall_cons.
  destruct l as [|b l]; [exact Ha|].
  change (String.concat "." (a :: b :: l))
    with (a +:+ String "." (String.concat "." (b :: l))).
  rewrite split_append_dot by done. by rewrite IH.
Qed.

Lemma dotless_uint (d : Decimal.uint) : dotless (NilEmpty.string_of_uint d).
Proof. induction d; simpl; [done|..]; by apply dotless_cons. Qed.

Lemma dotless_str_int (i : Z) : dotless (str_int i).
Proof.
  unfold str_int, NilZero.string_of_int, NilZero.string_of_uint.
  destruct (Z.to_int i) as [d|d].
  - destruct d; try apply dotless_uint. done.
  - apply dotless_cons. split; [done|].
    destruct d; try apply dotless_uint. done.
Qed.

Lemma dotless_role (role : string) : known_role role → dotless role.
Proof.
  unfold known_role. simpl. intros H.
  repeat (destruct H as [<-|H]; [done|]). done.
Qed.

Lemma dotless_role_name (role : string) (index : Z) :
  known_role role → dotless (role +:+ "_" +:+ str_int index).
Proof.
  intros H. apply dotless_app; [by apply dotless_role|].
  apply dotless_cons. split; [done|apply dotless_str_int].
Qed.

Lemma role_name_prefix (role : string) (index : Z) :
  known_role role →
  get_layer_prefix (role +:+ "_" +:+ str_int index) = Some role.
Proof.
  intros H. apply get_layer_prefix_head; [done|].
  apply prefix_append. by eexists.
Qed.

Lemma next_index (scope : LayerNameScope) (layer_id old_layer_name : string) :
  sc_index (get_next_scope scope layer_id old_layer_name)
  = if decide (layer_id = sc_last_layer_id scope ∧
               old_layer_name = sc_last_old_layer_name scope)
    then sc_index scope else (sc_index scope + 1)%Z.
Proof.
  destruct (get_next_scope_spec scope layer_id old_layer_name)
    as [(? & ? & ->)|[Hne ->]].
  - by rewrite decide_True.
  - rewrite decide_False; [done|]. intros [? ?]. by destruct Hne.
Qed.

Lemma renamed_param (mgr mgr' : LayerReNamingManager)
    (layer_id old_name new_name : string) :
  manager_wf mgr →
  get_new_param_name mgr layer_id old_name = Ok (mgr', new_name) →
  ∃ role,
    let scope := get_next_scope (scope_for mgr role) layer_id
                                (first_component old_name) in
    known_role role ∧
    get_layer_prefix (first_component old_name) = Some role ∧
    role_scope mgr' role = Some scope ∧
    (∀ role', role' ≠ role → role_scope mgr' role' = role_scope mgr role') ∧
    manager_wf mgr' ∧
    new_name = String.concat "." ((role +:+ "_" +:+ str_int (sc_index scope))
                                    :: sub_path old_name) ∧
    first_component new_name = role +:+ "_" +:+ str_int (sc_index scope) ∧
    sub_path new_name = sub_path old_name.
Proof.
  intros Hwf H. pose proof (manager_wf_param_name _ _ _ _ _ Hwf H) as Hwf'.
  apply get_new_param_name_ok in H as (new_layer & Hlayer & ->).
  destruct (get_layer_prefix (first_component old_name)) as [role|] eqn:Hrole;
    [|by rewrite get_new_layer_name_spec, Hrole in Hlayer].
  destruct (role_scope_after _ _ _ _ _ _ Hlayer Hrole) as (Hsc & -> & Hother).
  destruct (proj2 (proj2 Hwf') _ _ Hsc) as [Hknown Hscwf].
  rewrite (role_scope_name _ _ Hknown Hscwf).
  exists role. cbv zeta.
  set (new_first := role +:+ "_" +:+ str_int (sc_index
         (get_next_scope (scope_for mgr role) layer_id (first_component old_name)))).
  assert (split "." (String.concat "." (new_first :: sub_path old_name))
          = new_first :: sub_path old_name) as Hsplit.
  { apply split_concat; [done|]. constructor; [by apply dotless_role_name|].
    unfold sub_path. pose proof (split_dotless old_name) as Hall.
    destruct (split "." old_name); [done|]. by apply Forall_cons in Hall as [_ ?]. }
  assert (first_component (String.concat "." (new_first :: sub_path old_name))
          = new_first) as Hfirst
    by (unfold first_component; by rewrite Hsplit).
  assert (sub_path (String.concat "." (new_first :: sub_path old_name))
          = sub_path old_name) as Hpath
    by (unfold sub_path at 1; by rewrite Hsplit).
  do 4 (split; [done|]). split; [exact Hwf'|]. by repeat split.
Qed.

(** X10: [get_new_param_name] changes the first component of a tensor name
    and nothing else: the new name has the sub-path of the old one, and its
    first component is the role of the old first component followed by
    ["_"] and the counter of the role, so that it has the same role. *)
Theorem renamed_param_shape (mgr mgr' : LayerReNamingManager)
    (layer_id old_name new_name : string) :
  manager_wf mgr →
  get_new_param_name mgr layer_id old_name = Ok (mgr', new_name) →
  ∃ role index,
    get_layer_prefix (first_component old_name) = Some role ∧
    first_component new_name = role +:+ "_" +:+ str_int index ∧
    sub_path new_name = sub_path old_name ∧
    get_layer_prefix (first_component new_name) = Some role.
Proof.
  intros Hwf H.
  destruct (renamed_param _ _ _ _ _ Hwf H)
    as (role & Hknown & Hrole & _ & _ & _ & _ & Hfirst & Hsub).
  exists role. eexists. split; [done|]. split; [exact Hfirst|]. split; [done|].
  rewrite Hfirst. by apply role_name_prefix.
Qed.

Lemma renamed_param_shape_witness :
  ∃ mgr' role index,
    get_new_param_name new_manager "ernie.layers.0" "linear_7.w_0"
      = Ok (mgr', "linear_0.w_0") ∧
    get_layer_prefix (first_component "linear_7.w_0") = Some role ∧
    first_component "linear_0.w_0" = role +:+ "_" +:+ str_int index ∧
    sub_path "linear_0.w_0" = sub_path "linear_7.w_0" ∧
    get_layer_prefix (first_component "linear_0.w_0") = Some role.
Proof.
  assert (∃ mgr', get_new_param_name new_manager "ernie.layers.0" "linear_7.w_0"
                  = Ok (mgr', "linear_0.w_0")) as [mgr' H]
    by (vm_compute; eexists; reflexivity).
  destruct (renamed_param_shape new_manager mgr' "ernie.layers.0" "linear_7.w_0"
              "linear_0.w_0" manager_wf_new H) as (role & index & Hshape).
  by exists mgr', role, index.
Defined.

(** ** Renaming names that were renamed *)

Lemma managers_agree_new : managers_agree new_manager new_manager.
Proof. split; [apply manager_wf_new|]. split; [apply manager_wf_new|]. done. Qed.

Lemma managers_agree_step (mgr1 mgr2 mgr1' : LayerReNamingManager)
    (layer_id old_name new_name : string) :
  managers_agree mgr1 mgr2 →
  get_new_param_name mgr1 layer_id old_name = Ok (mgr1', new_name) →
  ∃ mgr2',
    get_new_param_name mgr2 layer_id new_name = Ok (mgr2', new_name) ∧
    managers_agree mgr1' mgr2'.
Proof.
  intros (Hwf1 & Hwf2 & Hagree) H1.
  destruct (renamed_param _ _ _ _ _ Hwf1 H1)
    as (role & Hknown & Hrole & Hsc1 & Hother1 & Hwf1' & Hnew & Hfirst & Hsub).
  cbv zeta in *.
  set (scope1 := get_next_scope (scope_for mgr1 role) layer_id
                                (first_component old_name)) in *.
  destruct (get_new_param_name_is_ok mgr2 layer_id new_name) as [[mgr2' new2] H2].
  { rewrite Hfirst. rewrite role_name_prefix by done. by eexists. }
  destruct (renamed_param _ _ _ _ _ Hwf2 H2)
    as (role2 & _ & Hrole2 & Hsc2 & Hother2 & Hwf2' & Hnew2 & _ & _).
  cbv zeta in *.
  rewrite Hfirst, role_name_prefix in Hrole2 by done. injection Hrole2 as <-.
  rewrite Hfirst, Hsub in Hnew2. rewrite Hfirst in Hsc2.
  set (scope2 := get_next_scope (scope_for mgr2 role) layer_id
                   (role +:+ "_" +:+ str_int (sc_index scope1))) in *.
  assert (first_component old_name ≠ "") as Hnonempty.
  { intros Hempty. rewrite Hempty in Hrole. done. }
  assert (sc_index scope2 = sc_index scope1) as Hindex.
  { unfold scope2. rewrite next_index.
    pose proof (next_index (scope_for mgr1 role) layer_id
                           (first_component old_name)) as Hindex1.
    fold scope1 in Hindex1.
    specialize (Hagree role). unfold scope_for in *.
    destruct (role_scope mgr1 role) as [s1|], (role_scope mgr2 role) as [s2|];
      simpl in Hagree; try done.
    - destruct Hagree as (Hi & Hid & Hlast).
      rewrite <- Hid, Hlast.
      destruct (decide (layer_id = sc_last_layer_id s1 ∧
                        first_component old_name = sc_last_old_layer_name s1))
        as [[? ?]|Hne1].
      + rewrite Hindex1. rewrite decide_True by done. by symmetry.
      + rewrite decide_False; [by rewrite Hindex1, Hi|].
        intros [? Heq]. apply append_inj_l in Heq.
        injection Heq as Heq. apply str_int_inj in Heq. lia.
    - simpl in *. rewrite decide_False in Hindex1 by (by intros [_ ?]).
      rewrite decide_False; [by rewrite Hindex1|].
      intros [_ Heq]. destruct role; [by apply dotless_role in Hknown|done]. }
  exists mgr2'. split.
  - rewrite H2. f_equal. f_equal. by rewrite Hnew2, Hindex, Hnew.
  - split; [done|]. split; [done|]. intros role'.
    destruct (decide (role' = role)) as [->|Hne].
    + rewrite Hsc1, Hsc2. fold scope1 scope2. simpl. split; [done|].
      unfold scope1, scope2.
      destruct (get_next_scope_last (scope_for mgr1 role) layer_id
                                    (first_component old_name)) as (-> & _).
      destruct (get_next_scope_last (scope_for mgr2 role) layer_id
                  (role +:+ "_" +:+ str_int (sc_index scope1)))
        as (-> & -> & _).
      done.
    + rewrite Hother1, Hother2 by done. apply Hagree.
Qed.

Lemma managers_agree_pass (pass : list (string * string)) :
  ∀ mgr1 mgr2 mgr1' names,
    managers_agree mgr1 mgr2 →
    rename_pass mgr1 pass = Ok (mgr1', names) →
    ∃ mgr2', rename_pass mgr2 (zip (map fst pass) names) = Ok (mgr2', names).
Proof.
  induction pass as [|[layer_id old_name] pass IH];
    intros mgr1 mgr2 mgr1' names Hagree Hpass; simpl in Hpass.
  - injection Hpass as <- <-. by eexists.
  - apply bind_ok in Hpass as ([m1 new_name] & Hstep & Hpass).
    apply bind_ok in Hpass as ([m1' names'] & Hrest & [= <- <-]). simpl in *.
    destruct (managers_agree_step _ _ _ _ _ _ Hagree Hstep) as (m2 & Hstep2 & Hagree').
    destruct (IH _ _ _ _ Hagree' Hrest) as (m2' & Hrest2).
    exists m2'. by rewrite Hstep2; simpl; rewrite Hrest2.
Qed.

(** X11: renaming is idempotent.  When a pass from a new manager gives new
    names, the pass from a new manager over the new names, presented under
    the same layers, gives every name back as it is. *)
Theorem rename_pass_idempotent (pass : list (string * string))
    (mgr : LayerReNamingManager) (names : list string) :
  rename_pass new_manager pass = Ok (mgr, names) →
  ∃ mgr', rename_pass new_manager (zip (map fst pass) names) = Ok (mgr', names).
Proof. apply managers_agree_pass, managers_agree_new. Qed.

Lemma rename_pass_idempotent_witness :
  ∃ mgr mgr',
    rename_pass new_manager example_pass
      = Ok (mgr, ["linear_0.w_0"; "linear_1.w_0"; "linear_2.b_0"]) ∧
    rename_pass new_manager
      (zip (map fst example_pass) ["linear_0.w_0"; "linear_1.w_0"; "linear_2.b_0"])
      = Ok (mgr', ["linear_0.w_0"; "linear_1.w_0"; "linear_2.b_0"]).
Proof.
  assert (∃ mgr, rename_pass new_manager example_pass
                 = Ok (mgr, ["linear_0.w_0"; "linear_1.w_0"; "linear_2.b_0"]))
    as [mgr H] by (vm_compute; eexists; reflexivity).
  destruct (rename_pass_idempotent example_pass mgr _ H) as [mgr' H'].
  by exists mgr, mgr'.
Defined.

(** ** What the stages of a context hold *)

Lemma elem_of_od_set_ne `{EqDecision K} {V : Type} (d : list (K * V)) (k : K) (v : V)
    (x : K * V) :
  x ∈ d → x.1 ≠ k → x ∈ od_set d k v.
Proof.
  induction d as [|[k' v'] d IH]; simpl; [by intros ?%elem_of_nil|].
  intros [->|Hx]%elem_of_cons Hne.
  - simpl in Hne. rewrite decide_False by done. by left.
  - case_decide; [subst; by right|]. right. by apply IH.
Qed.

Lemma elem_of_od_set_eq `{EqDecision K} {V : Type} (d : list (K * V)) (k : K) (v : V) :
  (k, v) ∈ od_set d k v.
Proof.
  induction d as [|[k' v'] d IH]; simpl; [by left|].
  case_decide; [by left|by right].
Qed.

Lemma fold_insert_range (segment : nat) (xs : list nat) :
  ∀ (m : gmap Z nat) (z : Z),
    fold_left (fun m i => <[Z.of_nat i := segment]> m) xs m !! z
    = if bool_decide (z ∈ map Z.of_nat xs) then Some segment else m !! z.
Proof.
  induction xs as [|x xs IH]; intros m z; cbn [fold_left map].
  - rewrite bool_decide_eq_false_2; [done|]. by intros ?%elem_of_nil.
  - rewrite IH. destruct (decide (z ∈ map Z.of_nat xs)) as [Hin|Hout].
    + rewrite !bool_decide_eq_true_2; [done|by right|done].
    + rewrite (bool_decide_eq_false_2 _ Hout).
      destruct (decide (z = Z.of_nat x)) as [->|Hne].
      * rewrite lookup_insert_eq. rewrite bool_decide_eq_true_2; [done|]. by left.
      * rewrite lookup_insert_ne by done. rewrite bool_decide_eq_false_2; [done|].
        by intros [?|?]%elem_of_cons.
Qed.

Lemma elem_of_range (a b j : nat) : j ∈ range a b ↔ a ≤ j < b.
Proof. unfold range. rewrite elem_of_seq. lia. Qed.

Section Holding.
Variables (param_names_by_layer : list (string * list (string * string)))
          (layer_index_to_name : gmap Z string).
Hypothesis names_inj : ∀ z1 z2 name,
  layer_index_to_name !! z1 = Some name → layer_index_to_name !! z2 = Some name →
  z1 = z2.
Hypothesis names_known : ∀ z name,
  layer_index_to_name !! z = Some name → is_Some (od_get param_names_by_layer name).

Lemma place_range (base : gmap Z nat) (i lo a b : nat) (f : filling) :
  filling_inv param_names_by_layer layer_index_to_name base i lo f →
  lo ≤ a → a ≤ b →
  (∀ j, a ≤ j < b → is_Some (layer_index_to_name !! Z.of_nat j)) →
  ∃ f', place_segment layer_index_to_name param_names_by_layer i f (a, b) = Ok f' ∧
        filling_inv param_names_by_layer layer_index_to_name base i b f'.
Proof.
  intros (Hready & Hholds & Hbase) Hlo Hab Hnames.
  unfold place_segment. cbn [fst snd].
  set (st := fl_stage f). set (idx := length (st_objects st)).
  set (M := st_layer_to_segment (add_segment st a b)).
  set (P := fun (j : nat) (t : filling) =>
    a ≤ j ≤ b ∧
    st_segments (fl_stage t) = od_set (st_segments st) a idx ∧
    st_layer_to_segment (fl_stage t) = M ∧
    (∃ L, st_objects (fl_stage t)
          = st_objects st ++ [{| seg_start_index := a; seg_end_index := b;
                                 seg_cur_index := j; seg_layers := L |}] ∧
          ∀ k name, a ≤ k < j → layer_index_to_name !! Z.of_nat k = Some name →
            ∃ ps, od_get param_names_by_layer name = Some ps ∧
                  od_get L name = Some (new_layer name ps)) ∧
    (∀ z, fl_layer_index_to_stage t !! z = Some i →
          (∃ k, z = Z.of_nat k ∧ a ≤ k < j) ∨
          fl_layer_index_to_stage f !! z = Some i) ∧
    (∀ z i', fl_layer_index_to_stage t !! z = Some i' → i' = i ∨ base !! z = Some i')).
  destruct (for_each_seq_total P
              (place_layer layer_index_to_name param_names_by_layer i) (b - a) a
              {| fl_stage := add_segment st a b;
                 fl_layer_index_to_stage := fl_layer_index_to_stage f;
                 fl_layer_name_to_stage := fl_layer_name_to_stage f |})
    as (f' & Hrun & HP).
  - unfold P. simpl. split; [lia|]. split; [done|]. split; [done|]. split.
    + exists []. split; [done|]. intros; lia.
    + split; [by right|apply Hbase].
  - intros j t Hj (Hjb & Hsegs & HM & (L & Hobjs & HL) & Hnew & Hbase').
    destruct (Hnames j) as [name Hname]; [lia|].
    destruct (names_known _ _ Hname) as [ps Hps].
    unfold place_layer. rewrite Hname, Hps.
    unfold add_layer. rewrite HM.
    assert (M !! Z.of_nat j = Some idx) as ->.
    { unfold M, add_segment. cbn [st_layer_to_segment].
      rewrite fold_insert_range. fold st idx.
      rewrite bool_decide_eq_true_2; [done|].
      apply list_elem_of_fmap. exists j. split; [done|]. apply elem_of_range. lia. }
    unfold list_get. rewrite Hobjs.
    rewrite list_lookup_middle by done. cbn [bind].
    unfold segment_add_layer. cbn [seg_cur_index seg_end_index].
    rewrite (proj2 (Nat.ltb_lt j b)) by lia. cbn [assert bind].
    rewrite list_set_lt by (rewrite length_app; simpl; fold idx; lia).
    cbn [bind]. eexists. split; [reflexivity|].
    unfold P. cbn [fl_stage fl_layer_index_to_stage st_segments st_layer_to_segment
                   st_objects seg_start_index seg_end_index seg_layers].
    split; [lia|]. split; [done|]. split; [done|]. split.
    + eexists. split.
      * rewrite insert_app_r_alt by (fold idx; lia).
        replace (idx - length (st_objects st)) with 0 by (fold idx; lia).
        reflexivity.
      * intros k name' Hk Hname'.
        destruct (decide (k = j)) as [->|Hne].
        -- rewrite Hname in Hname'. injection Hname' as <-.
           exists ps. split; [done|]. apply od_get_set_eq.
        -- destruct (HL k name') as (ps' & Hps' & Hget); [lia|done|].
           exists ps'. split; [done|].
           rewrite od_get_set_ne; [done|].
           intros <-. apply Hne.
           apply Nat2Z.inj. by apply (names_inj _ _ name).
    + split.
      * intros z Hz. destruct (decide (z = Z.of_nat j)) as [->|Hne].
        -- left. exists j. split; [done|lia].
        -- rewrite lookup_insert_ne in Hz by done.
           destruct (Hnew z Hz) as [(k & -> & ?)|?]; [|by right].
           left. exists k. split; [done|lia].
      * intros z i' Hz. destruct (decide (z = Z.of_nat j)) as [->|Hne].
        -- rewrite lookup_insert_eq in Hz. injection Hz as <-. by left.
        -- rewrite lookup_insert_ne in Hz by done. by apply Hbase'.
  - exists f'. unfold range. split; [exact Hrun|].
    replace (a + (b - a)) with b in HP by lia.
    destruct HP as (_ & Hsegs & _ & (L & Hobjs & HL) & Hnew & Hbase').
    split; [|split; [|exact Hbase']].
    + unfold stage_ready. rewrite Hsegs, Hobjs. apply Forall_forall.
      intros item [Hitem| ->]%elem_of_od_set.
      * unfold stage_ready in Hready. rewrite Forall_forall in Hready.
        destruct (Hready item Hitem) as (segment & Hseg & Hfull).
        exists segment. split; [|done]. by apply lookup_app_l_Some.
      * eexists. split; [by apply list_lookup_middle|done].
    + intros z Hz. destruct (Hnew z Hz) as [(k & -> & Hk)|Hold].
      * destruct (Hnames k Hk) as [name Hname].
        destruct (HL k name Hk Hname) as (ps & Hps & Hget).
        exists k, name. split; [done|]. split; [done|].
        exists (a, idx), {| seg_start_index := a; seg_end_index := b;
                            seg_cur_index := b; seg_layers := L |}, ps.
        rewrite Hsegs, Hobjs. cbn [fst snd seg_end_index seg_layers].
        split; [apply elem_of_od_set_eq|].
        split; [by apply list_lookup_middle|]. done.
      * destruct (Hholds z Hold) as (j & name & -> & Hname & Hheld).
        exists j, name. split; [done|]. split; [done|].
        destruct Hheld as (item & segment & ps & Hitem & Hseg & Hj & Hend & Hps & Hget).
        exists item, segment, ps. rewrite Hsegs, Hobjs.
        split; [apply elem_of_od_set_ne; [done|lia]|].
        split; [by apply lookup_app_l_Some|].
        split; [done|]. split; [lia|done].
Qed.

Lemma place_ranges (base : gmap Z nat) (i : nat) (ranges : list (nat * nat)) :
  ∀ (lo : nat) (f : filling),
    filling_inv param_names_by_layer layer_index_to_name base i lo f →
    Forall (fun r => lo ≤ r.1) ranges →
    ascending_ranges ranges →
    (∀ r j, r ∈ ranges → r.1 ≤ j < r.2 →
            is_Some (layer_index_to_name !! Z.of_nat j)) →
    ∃ f' bound,
      for_each (place_segment layer_index_to_name param_names_by_layer i) ranges f
        = Ok f' ∧
      filling_inv param_names_by_layer layer_index_to_name base i bound f'.
Proof.
  induction ranges as [|[a b] ranges IH]; intros lo f Hinv Hlo [Hle Hsorted] Hnames.
  - by exists f, lo.
  - apply Forall_cons in Hlo as [Ha Hlo], Hle as [Hab Hle].
    apply StronglySorted_inv in Hsorted as [Hsorted Hnext]. simpl in *.
    destruct (place_range base i lo a b f Hinv Ha Hab) as (f1 & Hrun1 & Hinv1).
    { intros j Hj. apply (Hnames (a, b)); [by left|done]. }
    destruct (IH b f1 Hinv1 Hnext) as (f' & bound & Hrun & Hinv').
    { by split. }
    { intros r j Hr Hj. apply (Hnames r); [by right|done]. }
    exists f', bound. by rewrite Hrun1.
Qed.

Lemma place_stage_holds (s : list PipeLineStage * gmap Z nat * gmap string nat)
    (ranges : list (nat * nat)) :
  stages_inv param_names_by_layer layer_index_to_name s →
  ascending_ranges ranges →
  (∀ r j, r ∈ ranges → r.1 ≤ j < r.2 →
          is_Some (layer_index_to_name !! Z.of_nat j)) →
  ∃ s', place_stage layer_index_to_name param_names_by_layer s
                    (length s.1.1, ranges) = Ok s' ∧
        stages_inv param_names_by_layer layer_index_to_name s' ∧
        length s'.1.1 = length s.1.1 + 1.
Proof.
  destruct s as [[stages i2s] n2s]. intros (Hready & Hbelow & Hheld) Hasc Hnames.
  simpl in *. set (i := length stages).
  destruct (place_ranges i2s i ranges 0
              {| fl_stage := new_stage; fl_layer_index_to_stage := i2s;
                 fl_layer_name_to_stage := n2s |})
    as (f' & bound & Hrun & Hready' & Hheld' & Hbase); try done.
  - split; [constructor|]. split; [|by right].
    simpl. intros z Hz. apply Hbelow in Hz. unfold i in Hz. lia.
  - apply Forall_forall. intros; lia.
  - rewrite Hrun. cbn [bind]. eexists. split; [reflexivity|]. simpl.
    split; [|by rewrite length_app; simpl; lia]. split; [|split].
    + apply Forall_app. split; [done|]. by repeat constructor.
    + intros z i' Hz. cbn [fst snd] in *. rewrite length_app. simpl.
      destruct (Hbase z i' Hz) as [->|Hold]; [fold i; lia|].
      apply Hbelow in Hold. lia.
    + intros z i' Hz. cbn [fst snd] in *.
      destruct (decide (i' = i)) as [->|Hne].
      * destruct (Hheld' z Hz) as (j & name & -> & Hname & Hholds).
        exists (fl_stage f'), j, name, bound.
        split; [by apply list_lookup_middle|done].
      * destruct (Hbase z i' Hz) as [?|Hold]; [done|].
        destruct (Hheld z i' Hold) as (stage & j & name & bound' & Hst & ? & ? & ?).
        exists stage, j, name, bound'. split; [|done]. by apply lookup_app_l_Some.
Qed.

Lemma place_stages_hold (stage_segments : list (list (nat * nat))) :
  ∀ s : list PipeLineStage * gmap Z nat * gmap string nat,
    stages_inv param_names_by_layer layer_index_to_name s →
    Forall ascending_ranges stage_segments →
    (∀ ranges r j, ranges ∈ stage_segments → r ∈ ranges → r.1 ≤ j < r.2 →
                   is_Some (layer_index_to_name !! Z.of_nat j)) →
    ∃ s', for_each (place_stage layer_index_to_name param_names_by_layer)
                   (enumerate_from (length s.1.1) stage_segments) s = Ok s' ∧
          stages_inv param_names_by_layer layer_index_to_name s' ∧
          length s'.1.1 = length s.1.1 + length stage_segments.
Proof.
  induction stage_segments as [|ranges stage_segments IH];
    intros s Hinv Hasc Hnames; simpl.
  - exists s. split; [done|]. split; [done|lia].
  - apply Forall_cons in Hasc as [Hasc1 Hasc].
    destruct (place_stage_holds s ranges Hinv Hasc1) as (s1 & -> & Hinv1 & Hlen1).
    { intros r j Hr Hj. apply (Hnames ranges r); [by left|done..]. }
    cbn [bind]. replace (S (length s.1.1)) with (length s1.1.1) by lia.
    destruct (IH s1 Hinv1 Hasc) as (s' & Hrun & Hinv' & Hlen').
    { intros rs r j Hrs Hr Hj. apply (Hnames rs r); [by right|done..]. }
    exists s'. split; [done|]. split; [done|lia].
Qed.
End Holding.

(** The ranges that the uniform policy deals to a stage come one after the
    other. *)
Lemma sorted_filter_seq (P : nat → Prop) `{∀ x, Decision (P x)} (n : nat) :
  ∀ a, StronglySorted lt (filter P (seq a n)) ∧
       Forall (fun i => a ≤ i < a + n) (filter P (seq a n)).
Proof.
  induction n as [|n IH]; intros a; simpl.
  - split; constructor.
  - destruct (IH (S a)) as [Hsorted Hall].
    assert (Forall (fun i => a ≤ i < a + S n) (filter P (seq (S a) n))) as Hall'.
    { eapply Forall_impl; [exact Hall|]. simpl. intros; lia. }
    rewrite filter_cons. case_decide.
    + split.
      * apply StronglySorted_cons. split; [|done].
        eapply Forall_impl; [exact Hall|]. simpl. intros; lia.
      * constructor; [lia|done].
    + done.
Qed.

Lemma ascending_nth_ranges (result : list nat) (bound : nat) (indices : list nat) :
  StronglySorted lt indices →
  Forall (fun i => i < bound) indices →
  (∀ i i', i ≤ i' → i' ≤ bound → nth i result 0 ≤ nth i' result 0) →
  ascending_ranges (map (nth_range result) indices).
Proof.
  intros Hsorted Hall Hmono. induction indices as [|i indices IH]; simpl.
  - split; constructor.
  - apply StronglySorted_cons in Hsorted as [Hlt Hsorted].
    apply Forall_cons in Hall as [Hi Hall].
    destruct (IH Hsorted Hall) as [Hle Hasc]. split.
    + constructor; [|done]. simpl. apply Hmono; lia.
    + apply StronglySorted_cons. split; [|done].
      apply Forall_fmap, Forall_forall. intros i' Hi'. simpl.
      rewrite Forall_forall in Hlt, Hall.
      specialize (Hlt i' Hi'). specialize (Hall i' Hi').
      apply Hmono; lia.
Qed.

Lemma plan_uniform_ascending (layer_num pp_degree vpp_degree : nat)
    (segs : list (list (nat * nat))) :
  plan_segments layer_num pp_degree vpp_degree "uniform" = Ok segs →
  Forall ascending_ranges segs ∧
  ∀ ranges r j, ranges ∈ segs → r ∈ ranges → r.1 ≤ j < r.2 → j < layer_num.
Proof.
  unfold plan_segments. simpl. intros Hplan.
  destruct (decide (pp_degree * vpp_degree = 0)) as [Hzero|Hpos].
  { unfold segment_uniform in Hplan. by rewrite Hzero in Hplan. }
  assert (1 ≤ pp_degree) as Hpp by nia.
  assert (1 ≤ pp_degree * vpp_degree) as Hs by lia.
  rewrite segment_uniform_closed in Hplan by done. simpl in Hplan.
  set (b := map _ _) in Hplan.
  assert (pp_degree * vpp_degree < length b) as Hlen
    by (unfold b; rewrite length_map, length_seq; lia).
  destruct (deal_segments_closed pp_degree _ b Hpp Hlen) as (segs' & Hrun & Hcl & _).
  rewrite Hrun in Hplan. injection Hplan as <-. rewrite Hcl.
  assert (∀ i i', i ≤ i' → i' ≤ pp_degree * vpp_degree →
                  nth i b 0 ≤ nth i' b 0) as Hmono.
  { intros i i' Hi Hi'. unfold b. rewrite !nth_uniform_bound by lia.
    by apply uniform_bound_mono. }
  split.
  - apply Forall_fmap, Forall_forall. intros k _. simpl.
    unfold dealt_to.
    destruct (sorted_filter_seq (fun i => i mod pp_degree = k)
                                (pp_degree * vpp_degree) 0) as [Hsorted Hall].
    apply (ascending_nth_ranges b (pp_degree * vpp_degree)); [done| |done].
    eapply Forall_impl; [exact Hall|]. simpl. intros; lia.
  - intros ranges r j (k & -> & _)%list_elem_of_fmap
           (i & -> & Hi)%list_elem_of_fmap [_ Hj].
    unfold dealt_to in Hi. apply list_elem_of_filter in Hi as [_ Hi].
    apply elem_of_seq in Hi. simpl in Hj.
    assert (nth (i + 1) b 0 ≤ layer_num); [|lia].
    unfold b. rewrite nth_uniform_bound by lia.
    apply uniform_bound_le; lia.
Qed.

Lemma plan_by_layer_ascending (layer_num pp_degree vpp_degree : nat)
    (segment_method : string) (segs : list (list (nat * nat))) :
  segment_method ≠ "uniform" →
  3 ≤ layer_num →
  1 ≤ (layer_num - 3) / (pp_degree * vpp_degree) →
  (layer_num - 3) / ((layer_num - 3) / (pp_degree * vpp_degree))
    = pp_degree * vpp_degree →
  plan_segments layer_num pp_degree vpp_degree segment_method = Ok segs →
  Forall ascending_ranges segs ∧
  ∀ ranges r j, ranges ∈ segs → r ∈ ranges → r.1 ≤ j < r.2 → j < layer_num.
Proof.
  intros Hm HL Hp Hcuts. unfold plan_segments.
  set (s := pp_degree * vpp_degree) in *.
  assert (1 ≤ s) as Hs.
  { destruct s; [|lia]. by rewrite Nat.div_0_r in Hp. }
  assert (1 ≤ pp_degree) as Hpp by (unfold s in Hs; nia).
  apply String.eqb_neq in Hm. rewrite Hm.
  assert (by_layer_cuts layer_num s = s) as Hc.
  { replace layer_num with (layer_num - 3 + 3) by lia.
    by rewrite by_layer_cuts_count. }
  rewrite segment_by_layer_closed by done.
  rewrite decide_True by lia. simpl.
  destruct (by_layer_bounds_shape layer_num s Hs ltac:(lia))
    as (Hlen & H0 & Hlast & Hstep & _).
  set (b := by_layer_bounds layer_num s) in *.
  destruct (deal_segments_closed pp_degree s b Hpp ltac:(lia))
    as (segs' & Hrun & Hcl & _).
  rewrite Hrun. intros [= <-]. rewrite Hcl.
  pose proof (monotone_steps (fun i => nth i b 0) s (Hstep ltac:(lia))) as Hmono.
  simpl in Hmono. split.
  - apply Forall_fmap, Forall_forall. intros k _. simpl.
    unfold dealt_to.
    destruct (sorted_filter_seq (fun i => i mod pp_degree = k) s 0)
      as [Hsorted Hall].
    apply (ascending_nth_ranges b s); [done| |done].
    eapply Forall_impl; [exact Hall|]. simpl. intros; lia.
  - intros ranges r j (k & -> & _)%list_elem_of_fmap
           (i & -> & Hi)%list_elem_of_fmap [_ Hj].
    unfold dealt_to in Hi. apply list_elem_of_filter in Hi as [_ Hi].
    apply elem_of_seq in Hi. simpl in Hj.
    assert (nth (i + 1) b 0 ≤ layer_num); [|lia].
    rewrite <- Hlast. apply Hmono; lia.
Qed.

Lemma plan_ascending (layer_num pp_degree vpp_degree : nat)
    (segment_method : string) (segs : list (list (nat * nat))) :
  policy_fits layer_num (pp_degree * vpp_degree) segment_method →
  plan_segments layer_num pp_degree vpp_degree segment_method = Ok segs →
  Forall ascending_ranges segs ∧
  ∀ ranges r j, ranges ∈ segs → r ∈ ranges → r.1 ≤ j < r.2 → j < layer_num.
Proof.
  intros Hfits Hplan.
  destruct (decide (segment_method = "uniform")) as [->|Hne].
  - by apply (plan_uniform_ascending _ pp_degree vpp_degree).
  - destruct Hfits as [?|(HL & Hp & Hc)]; [done|].
    by apply (plan_by_layer_ascending _ pp_degree vpp_degree segment_method).
Qed.

Lemma plan_fits (layer_num pp_degree vpp_degree : nat) (segment_method : string) :
  1 ≤ pp_degree → 1 ≤ vpp_degree →
  policy_fits layer_num (pp_degree * vpp_degree) segment_method →
  ∃ segs, plan_segments layer_num pp_degree vpp_degree segment_method = Ok segs ∧
          length segs = pp_degree.
Proof.
  intros Hpp Hvpp Hfits.
  destruct (decide (segment_method = "uniform")) as [->|Hne].
  - destruct (plan_uniform_partition layer_num pp_degree vpp_degree Hpp Hvpp)
      as (segs & ? & ? & _). by exists segs.
  - destruct Hfits as [?|(HL & Hp & Hc)]; [done|].
    destruct (plan_by_layer_partition layer_num pp_degree vpp_degree segment_method
                Hpp Hvpp Hne HL Hp Hc) as (segs & ? & ? & _). by exists segs.
Qed.

(** The renaming manager and the table of a stage are untouched until
    [build_name_mapping]. *)
Lemma add_layer_fresh (stage stage' : PipeLineStage) (layer_index : Z)
    (name : string) (param_names : list (string * string)) :
  add_layer stage layer_index name param_names = Ok stage' →
  st_rename_mgr stage' = st_rename_mgr stage ∧
  st_param_to_tname stage' = st_param_to_tname stage.
Proof.
  unfold add_layer.
  destruct (st_layer_to_segment stage !! layer_index) as [segment|]; [|done].
  intros (object & _ & Hadd)%bind_ok.
  apply bind_ok in Hadd as (object' & _ & Hadd).
  by apply bind_ok in Hadd as (objects & _ & [= <-]).
Qed.

Lemma place_stages_fresh (layer_index_to_name : gmap Z string)
    (param_names_by_layer : list (string * list (string * string)))
    (items : list (nat * list (nat * nat)))
    (s s' : list PipeLineStage * gmap Z nat * gmap string nat) :
  for_each (place_stage layer_index_to_name param_names_by_layer) items s = Ok s' →
  Forall (fun stage => st_rename_mgr stage = new_manager ∧
                       st_param_to_tname stage = ∅) s.1.1 →
  Forall (fun stage => st_rename_mgr stage = new_manager ∧
                       st_param_to_tname stage = ∅) s'.1.1.
Proof.
  intros Hrun Hall.
  apply (for_each_invariant
           (fun s => Forall (fun stage => st_rename_mgr stage = new_manager ∧
                                          st_param_to_tname stage = ∅) s.1.1)
           _ _ _ _ Hall) with (2 := Hrun).
  clear. intros [[stages i2s] n2s] [i ranges] t' _ Hall. unfold place_stage.
  intros (f & Hrun & [= <-])%bind_ok. simpl in *.
  apply Forall_app. split; [done|]. constructor; [|constructor].
  apply (for_each_invariant
           (fun f => st_rename_mgr (fl_stage f) = new_manager ∧
                     st_param_to_tname (fl_stage f) = ∅) _ _ _ _)
    with (3 := Hrun); [done|].
  clear. intros f seg f' _ Hfresh. unfold place_segment. intros Hrun.
  apply (for_each_invariant
           (fun f => st_rename_mgr (fl_stage f) = new_manager ∧
                     st_param_to_tname (fl_stage f) = ∅) _ _ _ _)
    with (3 := Hrun); [done|].
  clear. intros f j f' _ [Hmgr Htable].
  intros (name & ps & stage' & _ & _ & Hadd & ->)%place_layer_ok. simpl.
  apply add_layer_fresh in Hadd as [-> ->]. done.
Qed.

(** The parameters that a stage presents are parameters of the catalogue. *)
Lemma layer_params_subset (name : string) (param_names : list (string * string))
    (p : string * string) :
  p ∈ layer_params (new_layer name param_names) → p ∈ param_names.
Proof.
  unfold new_layer. simpl.
  rewrite <- (sorted_perm (fun x y => String.leb x.2 y.2) param_names) at 2.
  generalize (sorted (fun x y : string * string => String.leb x.2 y.2) param_names).
  intros l.
  assert (∀ d, p ∈ fold_left (fun params (kv : string * string) =>
                                od_set params kv.1 kv.2) l d → p ∈ d ∨ p ∈ l) as H.
  { induction l as [|[k v] l IH]; intros d; simpl; [by left|].
    intros [[Hd| ->]%elem_of_od_set|Hl]%IH.
    - by left.
    - right. by left.
    - right. by right. }
  intros [?%elem_of_nil|?]%H; done.
Qed.

Lemma presented_from (param_names_by_layer : list (string * list (string * string)))
    (stage : PipeLineStage) (x : string * string * string) :
  stage_from param_names_by_layer stage → x ∈ presented stage →
  ∃ param_names,
    od_get param_names_by_layer x.1.1 = Some param_names ∧
    (x.1.2, x.2) ∈ param_names.
Proof.
  unfold stage_from, presented. rewrite Forall_forall. intros Hfrom Hx.
  apply list_elem_of_In, in_concat in Hx as (xs & Hxs & Hx).
  apply list_elem_of_In in Hxs, Hx.
  apply list_elem_of_fmap in Hxs as (item & -> & _).
  destruct (st_objects stage !! item.2) as [segment|] eqn:Hseg;
    [|by apply elem_of_nil in Hx].
  specialize (Hfrom segment (list_elem_of_lookup_2 _ _ _ Hseg)).
  rewrite Forall_forall in Hfrom.
  unfold presented_by_segment in Hx.
  apply list_elem_of_In, in_concat in Hx as (ys & Hys & Hx).
  apply list_elem_of_In in Hys, Hx.
  apply list_elem_of_fmap in Hys as (entry & -> & Hentry).
  destruct (Hfrom entry Hentry) as (ps & Hps & Hlayer).
  unfold presented_by_layer in Hx.
  apply list_elem_of_fmap in Hx as (p & -> & Hp). simpl.
  exists ps. split; [done|].
  rewrite Hlayer in Hp. apply layer_params_subset in Hp. by destruct p.
Qed.

Lemma build_all_total (stages : list PipeLineStage) :
  Forall (fun stage => is_ok (build_name_mapping stage)) stages →
  is_ok (build_all stages).
Proof.
  induction 1 as [|stage stages [stage' Hstage] _ [stages' IH]]; simpl.
  - by eexists.
  - rewrite Hstage, IH. by eexists.
Qed.

Lemma ascending_placement (pp_degree vpp_degree : nat) (segment_method : string)
    (param_names_by_layer : list (string * list (string * string)))
    (n : Z) (segs : list (list (nat * nat))) :
  policy_fits (Z.to_nat (n + 3)) (pp_degree * vpp_degree) segment_method →
  plan_segments (Z.to_nat (n + 3)) pp_degree vpp_degree segment_method = Ok segs →
  (∀ j, j < Z.to_nat (n + 3) →
        is_Some (index_to_name_of n (map fst param_names_by_layer) !! Z.of_nat j)) →
  ∃ s,
    for_each (place_stage (index_to_name_of n (map fst param_names_by_layer))
                          param_names_by_layer)
             (enumerate segs) ([], ∅, ∅) = Ok s ∧
    stages_inv param_names_by_layer
               (index_to_name_of n (map fst param_names_by_layer)) s ∧
    length s.1.1 = length segs.
Proof.
  intros Hfits Hplan Hcover.
  destruct (plan_ascending _ _ _ _ _ Hfits Hplan) as [Hasc Hbelow].
  assert (∀ z name, index_to_name_of n (map fst param_names_by_layer) !! z = Some name →
                    name ∈ map fst param_names_by_layer ∧ ordinal n name = z)
    as Hinv.
  { intros z name Hz. unfold index_to_name_of in Hz.
    apply fold_index_to_name_inv in Hz as [?|Hz]; [done|].
    by rewrite lookup_empty in Hz. }
  destruct (place_stages_hold param_names_by_layer
              (index_to_name_of n (map fst param_names_by_layer))) with
    (stage_segments := segs)
    (s := ([], ∅, ∅) : list PipeLineStage * gmap Z nat * gmap string nat)
    as (s & Hrun & Hstages & Hlen).
  - intros z1 z2 name [_ <-]%Hinv [_ <-]%Hinv. done.
  - intros z name [Hin _]%Hinv.
    destruct (od_get param_names_by_layer name) eqn:Hget; [by eexists|].
    by apply od_get_None in Hget.
  - split; [constructor|]. split; simpl.
    + intros z i Hz. by rewrite lookup_empty in Hz.
    + intros z i Hz. by rewrite lookup_empty in Hz.
  - done.
  - intros ranges r j Hranges Hr Hj. apply Hcover. by eapply Hbelow.
  - exists s. by split.
Qed.

Lemma rename_pass_shape (pass : list (string * string)) :
  ∀ mgr mgr' names,
    manager_wf mgr → rename_pass mgr pass = Ok (mgr', names) →
    ∀ i layer_id old_name new_name,
      pass !! i = Some (layer_id, old_name) → names !! i = Some new_name →
      sub_path new_name = sub_path old_name ∧
      is_Some (get_layer_prefix (first_component old_name)) ∧
      get_layer_prefix (first_component new_name)
        = get_layer_prefix (first_component old_name).
Proof.
  induction pass as [|[id old] pass IH]; intros mgr mgr' names Hwf Hpass;
    simpl in Hpass; [by intros [|?]|].
  apply bind_ok in Hpass as ([m1 new1] & Hstep & Hpass).
  apply bind_ok in Hpass as ([m1' names'] & Hrest & [= <- <-]). simpl in *.
  intros [|i] layer_id old_name new_name; simpl.
  - intros [= <- <-] [= <-].
    destruct (renamed_param _ _ _ _ _ Hwf Hstep)
      as (role & Hknown & Hrole & _ & _ & _ & _ & Hfirst & Hsub).
    split; [done|]. split; [by eexists|].
    rewrite Hrole, Hfirst. by apply role_name_prefix.
  - apply (IH m1 m1' names'); [|done].
    by eapply manager_wf_param_name.
Qed.

(** X12: every parameter of the catalogue can be mapped.  When the policy
    cuts the layers into ranges that come one after the other (the uniform
    policy always does), the catalogue groups each raw name under the layer
    that [extract_layer_name] finds in it, once per layer, and the context
    is built, [map_name] gives a new name for every pair of raw name and
    tensor name of the catalogue; the new name has the sub-path and the role
    of the tensor name. *)
Theorem catalogue_mapped (_transformer_layer_num : option Z)
    (pp_degree vpp_degree : nat) (segment_method : string)
    (param_names_by_layer : list (string * list (string * string)))
    (ctx : PipeLineSegmentContext) :
  policy_fits (length param_names_by_layer) (pp_degree * vpp_degree) segment_method →
  NoDup (map fst param_names_by_layer) →
  (∀ layer_name param_names,
     (layer_name, param_names) ∈ param_names_by_layer →
     NoDup (map fst param_names) ∧
     Forall (fun p => extract_layer_name p.1 = Some layer_name) param_names) →
  new_context _transformer_layer_num pp_degree vpp_degree segment_method
              param_names_by_layer = Ok ctx →
  ∀ layer_name param_names raw_name tensor_name,
    (layer_name, param_names) ∈ param_names_by_layer →
    (raw_name, tensor_name) ∈ param_names →
    ∃ new_name,
      map_name ctx raw_name tensor_name = Ok new_name ∧
      sub_path new_name = sub_path tensor_name ∧
      is_Some (get_layer_prefix (first_component tensor_name)) ∧
      get_layer_prefix (first_component new_name)
        = get_layer_prefix (first_component tensor_name).
Proof.
  intros Hfits Hnd Hgrouped Hctx layer ps raw t Hlayer Hraw.
  destruct (new_context_owned _ _ _ _ _ _ Hnd Hctx)
    as (n & Hn & _ & _ & _ & _ & _ & Hkeys & _).
  apply new_context_ok in Hctx
    as (n' & segs & s & stages & Hn' & _ & Hplan & Hs & Hbuild & ->).
  rewrite Hn in Hn'. injection Hn' as <-. simpl in Hkeys.
  assert (Z.to_nat (n + 3) = length param_names_by_layer) as Hnum.
  { apply transformer_layer_num_ok in Hn. lia. }
  destruct (ascending_placement pp_degree vpp_degree segment_method
              param_names_by_layer n segs) as
    (s0 & Hs0 & (_ & _ & Hheld) & _); [by rewrite Hnum|done| |].
  { intros j Hj.
    destruct (plan_segments_cover _ _ _ _ _ Hplan) as (_ & _ & Hcover).
    by destruct (place_stages_owned _ _ _ _ Hs) as (_ & Hin & _);
      destruct (Hin j (Hcover j Hj)). }
  rewrite Hs in Hs0. injection Hs0 as <-.
  pose proof (od_get_NoDup _ _ _ Hnd Hlayer) as Hps.
  destruct (Hgrouped _ _ Hlayer) as [Hndps Hclass].
  rewrite Forall_forall in Hclass. pose proof (Hclass _ Hraw) as Hextract.
  simpl in Hextract.
  assert (layer ∈ map fst param_names_by_layer) as Hin
    by (apply list_elem_of_fmap; by exists (layer, ps)).
  destruct (Hkeys _ Hin) as (_ & _ & Hindex & Hname & i & Hstage & _).
  destruct (Hheld _ _ Hstage) as (stage & j & name & bound & Hst & Hj & Hname' & Hholds).
  rewrite Hname in Hname'. injection Hname' as <-.
  apply build_all_ok in Hbuild.
  destruct (Forall2_lookup_l _ _ _ _ _ Hbuild Hst) as (stage' & Hst' & Hnamed).
  apply build_name_mapping_ok in Hnamed as (_ & mgr & names & Hpass & ->).
  pose proof (place_stages_fresh _ _ _ _ _ Hs ltac:(constructor)) as Hfresh.
  rewrite Forall_forall in Hfresh.
  destruct (Hfresh stage (list_elem_of_lookup_2 _ _ _ Hst)) as [Hmgr Htable].
  pose proof (stage_from_place_stages _ _ _ _ Hs) as Hfrom.
  rewrite Forall_forall in Hfrom.
  specialize (Hfrom stage (list_elem_of_lookup_2 _ _ _ Hst)).
  destruct Hholds as (item & segment & ps' & Hitem & Hseg & _ & _ & Hps' & Hget).
  rewrite Hps in Hps'. injection Hps' as <-.
  assert ((layer, raw, t) ∈ presented stage) as Hpresented.
  { apply (presented_segment_in stage item segment); [done..|].
    unfold presented_by_segment.
    apply list_elem_of_In, in_concat.
    exists (presented_by_layer (new_layer layer ps)). split.
    - apply list_elem_of_In, list_elem_of_fmap.
      exists (layer, new_layer layer ps). split; [done|].
      by apply od_get_Some_elem.
    - apply list_elem_of_In.
      rewrite (proj1 (presented_new_layer layer ps Hndps)).
      apply list_elem_of_fmap. exists (raw, t). split; [done|].
      by rewrite sorted_perm. }
  assert (length names = length (presented stage)) as Hlen.
  { apply rename_pass_length in Hpass. by rewrite length_map in Hpass. }
  destruct (record_names_hit (presented stage) names (st_param_to_tname stage) raw Hlen)
    as (idx & layer' & t' & new_name & Hidx & Hnew & Hrecord).
  { apply list_elem_of_fmap. by exists (layer, raw, t). }
  destruct (presented_from param_names_by_layer stage (layer', raw, t') Hfrom)
    as (ps'' & Hps'' & Hraw'').
  { by eapply list_elem_of_lookup_2. }
  simpl in Hps'', Hraw''.
  pose proof (od_get_Some_elem _ _ _ Hps'') as Hlayer''.
  destruct (Hgrouped _ _ Hlayer'') as [_ Hclass''].
  rewrite Forall_forall in Hclass''. specialize (Hclass'' _ Hraw''). simpl in Hclass''.
  rewrite Hextract in Hclass''. injection Hclass'' as <-.
  rewrite Hps in Hps''. injection Hps'' as <-.
  pose proof (NoDup_fst_functional _ _ _ _ Hndps Hraw Hraw'') as <-.
  exists new_name. split.
  - unfold map_name, lookup_stage. rewrite Hextract. simpl.
    rewrite Hindex. simpl. rewrite Hstage. simpl.
    unfold list_get. rewrite Hst'. simpl.
    unfold stage_map_name. simpl. rewrite Hrecord.
    by rewrite String.eqb_refl.
  - rewrite Hmgr in Hpass.
    apply (rename_pass_shape _ _ _ _ manager_wf_new Hpass idx layer); [|done].
    by rewrite list_lookup_fmap, Hidx.
Qed.

Lemma catalogue_mapped_witness :
  ∃ ctx new_name,
    new_context None 2 1 "uniform" example_catalogue = Ok ctx ∧
    map_name ctx "ernie.layers.1.self_attn.q_proj.bias" "linear_1.b_0" = Ok new_name ∧
    sub_path new_name = sub_path "linear_1.b_0".
Proof.
  assert (NoDup (map fst example_catalogue)) as Hnd
    by (apply (bool_decide_unpack _); by vm_compute).
  assert (∀ layer_name param_names,
            (layer_name, param_names) ∈ example_catalogue →
            NoDup (map fst param_names) ∧
            Forall (fun p => extract_layer_name p.1 = Some layer_name) param_names)
    as Hgrouped.
  { intros layer_name param_names Hin. unfold example_catalogue in Hin.
    repeat (apply elem_of_cons in Hin as [[= -> ->]|Hin];
            [apply (bool_decide_unpack _); by vm_compute|]).
    by apply elem_of_nil in Hin. }
  assert (("ernie.layers.1",
           [ ("ernie.layers.1.self_attn.q_proj.weight", "linear_1.w_0");
             ("ernie.layers.1.self_attn.q_proj.bias", "linear_1.b_0");
             ("ernie.layers.1.input_layernorm.weight", "layer_norm_1.w_0") ])
          ∈ example_catalogue) as Hlayer
    by (apply (bool_decide_unpack _); by vm_compute).
  assert (("ernie.layers.1.self_attn.q_proj.bias", "linear_1.b_0")
          ∈ [ ("ernie.layers.1.self_attn.q_proj.weight", "linear_1.w_0");
              ("ernie.layers.1.self_attn.q_proj.bias", "linear_1.b_0");
              ("ernie.layers.1.input_layernorm.weight", "layer_norm_1.w_0") ])
    as Hparam by (apply (bool_decide_unpack _); by vm_compute).
  assert (∃ ctx, new_context None 2 1 "uniform" example_catalogue = Ok ctx)
    as [ctx E] by (vm_compute; eexists; reflexivity).
  destruct (catalogue_mapped None 2 1 "uniform" example_catalogue ctx
              (or_introl eq_refl) Hnd Hgrouped E _ _ _ _ Hlayer Hparam)
    as (new_name & Hmap & Hsub & _).
  exists ctx, new_name. split; [exact E|]. split; [exact Hmap|exact Hsub].
Defined.

Lemma length_layer_names (N : nat) : length (layer_names N) = N + 3.
Proof.
  unfold layer_names. simpl. rewrite length_app, length_map, length_seq. simpl. lia.
Qed.

Lemma layer_names_cover (N j : nat) :
  j < N + 3 → ∃ k, k ∈ layer_names N ∧ ordinal (Z.of_nat N) k = Z.of_nat j.
Proof.
  intros Hj. unfold layer_names.
  destruct (decide (j = 0)) as [->|H0].
  { exists "ernie.embed_tokens". split; [by left|done]. }
  destruct (decide (j ≤ N)) as [Hblock|Hlast].
  { exists (block_name (j - 1)). split.
    - right. apply elem_of_app. left. apply list_elem_of_fmap.
      exists (j - 1). split; [done|]. apply elem_of_seq. lia.
    - unfold ordinal. rewrite index_layer_block. lia. }
  destruct (decide (j = N + 1)) as [->|H1].
  { exists "ernie.norm". split.
    - right. apply elem_of_app. right. by left.
    - unfold ordinal, index_layer. simpl. lia. }
  exists "lm_head". split.
  - right. apply elem_of_app. right. right. by left.
  - unfold ordinal, index_layer. simpl. lia.
Qed.

(** X13: for a model of the expected shape the construction of the context
    succeeds.  When the layers of the catalogue are the embedding, [N]
    transformer blocks, the norm and the head, the declared count is unset
    or [N], both degrees are positive, the policy cuts the layers into
    ranges that come one after the other (the uniform policy always does),
    and the first component of every tensor name starts with a role of
    [prefix_to_template], the context is built, with [pp_degree] stages. *)
Theorem context_total (N : nat) (_transformer_layer_num : option Z)
    (pp_degree vpp_degree : nat) (segment_method : string)
    (param_names_by_layer : list (string * list (string * string))) :
  policy_fits (N + 3) (pp_degree * vpp_degree) segment_method →
  NoDup (map fst param_names_by_layer) →
  map fst param_names_by_layer ≡ₚ layer_names N →
  _transformer_layer_num = None ∨ _transformer_layer_num = Some (Z.of_nat N) →
  1 ≤ pp_degree → 1 ≤ vpp_degree →
  Forall (fun layer =>
            Forall (fun p => is_Some (get_layer_prefix (first_component p.2))) layer.2)
         param_names_by_layer →
  ∃ ctx,
    new_context _transformer_layer_num pp_degree vpp_degree segment_method
                param_names_by_layer = Ok ctx ∧
    length (ctx_stages ctx) = pp_degree.
Proof.
  intros Hfits Hnd Hperm Htln Hpp Hvpp Hvalid.
  set (keys := map fst param_names_by_layer) in *.
  set (n := Z.of_nat N).
  assert (length param_names_by_layer = N + 3) as Hlen.
  { rewrite <- (length_map fst). fold keys. rewrite Hperm. apply length_layer_names. }
  assert (transformer_layer_num _transformer_layer_num param_names_by_layer = Ok n)
    as Hn.
  { unfold transformer_layer_num. rewrite Hlen.
    destruct Htln as [->| ->]; [f_equal; lia|].
    fold n. destruct (negb (n =? 0)%Z && (0 <? n)%Z); [|f_equal; lia].
    rewrite (proj2 (Z.eqb_eq _ _)) by lia. done. }
  assert (Forall (fun k => is_ok (index_layer k (Some n))) keys) as Hindex.
  { apply Forall_forall. intros k Hk. rewrite Hperm in Hk.
    by apply ordinal_layer_names in Hk as [? _]. }
  assert (Z.to_nat (n + 3) = N + 3) as Hnum by lia.
  destruct (plan_fits (Z.to_nat (n + 3)) pp_degree vpp_degree segment_method Hpp Hvpp)
    as (segs & Hplan & Hsegs); [by rewrite Hnum|].
  destruct (ascending_placement pp_degree vpp_degree segment_method
              param_names_by_layer n segs)
    as (s & Hs & (Hready & _ & _) & Hstages); [by rewrite Hnum|done| |].
  { intros j Hj. apply index_to_name_dom.
    destruct (layer_names_cover N j) as (k & Hk & Hord); [lia|].
    exists k. split; [|done]. fold keys. by rewrite Hperm. }
  pose proof (stage_from_place_stages _ _ _ _ Hs) as Hfrom.
  destruct (build_all_total s.1.1) as [stages Hbuild].
  { rewrite Forall_forall in Hready, Hfrom. apply Forall_forall. intros stage Hstage.
    apply build_name_mapping_total; [by apply Hready|].
    apply Forall_forall. intros x Hx.
    destruct (presented_from _ _ x (Hfrom _ Hstage) Hx) as (ps & Hps & Hp).
    apply od_get_Some_elem in Hps.
    rewrite Forall_forall in Hvalid. specialize (Hvalid _ Hps). simpl in Hvalid.
    rewrite Forall_forall in Hvalid. by apply (Hvalid _ Hp). }
  eexists. split.
  - apply new_context_ok. by exists n, segs, s, stages.
  - simpl. apply build_all_ok, Forall2_length in Hbuild. lia.
Qed.

Lemma context_total_witness :
  ∃ ctx, new_context None 3 2 "uniform" example_catalogue = Ok ctx ∧
         length (ctx_stages ctx) = 3.
Proof.
  apply (context_total 2); [by left| | |by left|lia|lia|].
  - apply (bool_decide_unpack _). by vm_compute.
  - apply (bool_decide_unpack _). by vm_compute.
  - apply (bool_decide_unpack _). by vm_compute.
Defined.

(** ** The parameters of a layer *)

Lemma od_get_split `{EqDecision K} {V : Type} (d : list (K * V)) (k : K) (v : V) :
  od_get d k = Some v →
  ∃ d1 d2, d = d1 ++ (k, v) :: d2 ∧ k ∉ map fst d1.
Proof.
  induction d as [|[k' v'] d IH]; simpl; [done|]. case_decide as Hk.
  - intros [= ->]. subst. exists [], d. split; [done|]. by intros ?%elem_of_nil.
  - intros (d1 & d2 & -> & Hout)%IH. exists ((k', v') :: d1), d2.
    split; [done|]. simpl. by intros [?|?]%elem_of_cons.
Qed.

Lemma fold_od_set_NoDup `{EqDecision K} {V : Type} (items : list (K * V)) :
  ∀ d : list (K * V),
    NoDup (map fst d) →
    NoDup (map fst (fold_left (fun d item => od_set d item.1 item.2) items d)).
Proof.
  induction items as [|item items IH]; intros d Hnd; simpl; [done|].
  by apply IH, od_set_NoDup.
Qed.

(** X14: a [PipeLinelayer] keeps one tensor name for every raw name of its
    list of pairs: the greatest, in the order of strings, of the tensor
    names that the list gives to the raw name. *)
Theorem layer_params_greatest (name : string) (param_names : list (string * string))
    (raw_name : string) :
  NoDup (map fst (layer_params (new_layer name param_names))) ∧
  match od_get (layer_params (new_layer name param_names)) raw_name with
  | Some tensor_name =>
      (raw_name, tensor_name) ∈ param_names ∧
      ∀ tensor_name', (raw_name, tensor_name') ∈ param_names →
                      String.leb tensor_name' tensor_name = true
  | None => raw_name ∉ map fst param_names
  end.
Proof.
  unfold new_layer. cbn [layer_params].
  set (le := fun x y : string * string => String.leb x.2 y.2).
  split; [apply fold_od_set_NoDup; constructor|].
  rewrite (od_get_fold_set (fun _ (v : string) => v)). cbn [od_get].
  assert (StronglySorted (fun x y => le x y = true) (sorted le param_names)) as Hsorted.
  { apply Sorted_StronglySorted.
    - intros x y z. apply string_leb_trans.
    - apply sorted_Sorted. intros x y. apply String.leb_total. }
  pose proof (sorted_perm le param_names) as Hperm.
  destruct (od_get (reverse (sorted le param_names)) raw_name) as [t|] eqn:Hget.
  - apply od_get_split in Hget as (d1 & d2 & Hrev & Hout).
    assert (sorted le param_names = reverse d2 ++ (raw_name, t) :: reverse d1) as Heq.
    { rewrite <- (reverse_involutive (sorted le param_names)), Hrev.
      rewrite reverse_app, reverse_cons, <- app_assoc. done. }
    rewrite Heq in Hsorted. split.
    + rewrite <- Hperm, Heq. apply elem_of_app. right. by left.
    + intros t' Hin. rewrite <- Hperm, Heq in Hin.
      apply elem_of_app in Hin as [Hin|[[= ->]|Hin]%elem_of_cons].
      * apply (StronglySorted_app_1_elem_of _ _ _ (raw_name, t') (raw_name, t))
          in Hsorted; [done|done|by left].
      * by destruct (String.leb_total t t).
      * exfalso. apply Hout. apply list_elem_of_fmap. exists (raw_name, t').
        split; [done|]. by apply elem_of_reverse.
  - apply od_get_None in Hget. rewrite <- Hperm. intros Hin. apply Hget.
    rewrite fmap_reverse. by apply elem_of_reverse.
Qed.

(** ** From the metadata to the catalogue *)

Lemma some_keys {V : Type} (d : list (option string * V)) :
  Forall (fun e => is_Some e.1) d →
  ∃ d' : list (string * V), d = map (fun e => (Some e.1, e.2)) d'.
Proof.
  induction 1 as [|[k v] d [k' Hk] _ [d' ->]].
  - by exists [].
  - simpl in Hk. subst. by exists ((k', v) :: d').
Qed.

(** X15: when the metadata has the name mappings of all ranks, every
    structure name belongs to a layer and no structure name is listed
    twice, [extract_param_names_groupby_layer] gives a catalogue as the
    segment context expects it: the keys are layer names, each once; the
    raw names of a group are distinct and belong to the layer of the group;
    and every item of the mappings is in the group of its layer. *)
Theorem grouped_catalogue (meta : Meta) (mp_rank : Z) (items : list (string * string)) :
  all_name_mappings meta mp_rank = Some items →
  Forall (fun kv => is_Some (extract_layer_name kv.1)) items →
  NoDup (map fst items) →
  ∃ param_names_by_layer : list (string * list (string * string)),
    extract_param_names_groupby_layer meta mp_rank
      = Ok (map (fun e => (Some e.1, e.2)) param_names_by_layer) ∧
    NoDup (map fst param_names_by_layer) ∧
    (∀ layer_name param_names,
       (layer_name, param_names) ∈ param_names_by_layer →
       NoDup (map fst param_names) ∧
       Forall (fun p => extract_layer_name p.1 = Some layer_name) param_names) ∧
    (∀ kv, kv ∈ items →
       ∃ layer_name param_names,
         (layer_name, param_names) ∈ param_names_by_layer ∧ kv ∈ param_names).
Proof.
  intros Hitems Hclass Hnd.
  assert (extract_param_names_groupby_layer meta mp_rank
          = Ok (fold_left group_param items [])) as Hrun.
  { unfold all_name_mappings in Hitems. unfold extract_param_names_groupby_layer.
    destruct (parallel_config meta) as [config|]; [|done]. simpl in Hitems.
    destruct (pc_pp_degree config) as [pp_degree|]; [|done]. simpl in Hitems.
    destruct (sharding_metas meta) as [metas|]; [|done]. simpl in Hitems.
    rewrite group_ranks.
    destruct (mapM _ (seq 0 (Z.to_nat pp_degree))) as [mappings|]; [|done].
    simpl in Hitems. by injection Hitems as <-. }
  set (cat := fold_left group_param items []) in *.
  assert (NoDup (map fst cat)) as Hkeys by (apply group_params_NoDup; constructor).
  assert (∀ layer, od_get cat layer
                   = match params_of_layer layer items with
                     | [] => None
                     | params => Some params
                     end) as Hget.
  { intros layer. unfold cat. rewrite group_params_get. simpl.
    by destruct (params_of_layer layer items). }
  destruct (some_keys cat) as [cat' Hcat'].
  { apply Forall_forall. intros [k ps] Hin. simpl.
    pose proof (od_get_NoDup _ _ _ Hkeys Hin) as Hk. rewrite Hget in Hk.
    destruct (params_of_layer k items) as [|kv params] eqn:Hparams; [done|].
    assert (kv ∈ params_of_layer k items) as Hkv by (rewrite Hparams; by left).
    apply list_elem_of_filter in Hkv as [<- Hkv].
    rewrite Forall_forall in Hclass. by apply Hclass. }
  exists cat'. rewrite Hrun, Hcat'. split; [done|].
  rewrite Hcat' in Hkeys, Hget.
  assert (∀ layer ps, (layer, ps) ∈ cat' →
                      ps = params_of_layer (Some layer) items) as Hgroup.
  { intros layer ps Hin.
    assert ((Some layer, ps) ∈ map (fun e : string * list (string * string) =>
                                      (Some e.1, e.2)) cat') as Hin'.
    { apply list_elem_of_fmap. by exists (layer, ps). }
    pose proof (od_get_NoDup _ _ _ Hkeys Hin') as Hk. rewrite Hget in Hk.
    destruct (params_of_layer (Some layer) items); [done|]. by injection Hk. }
  split; [|split].
  - rewrite <- list_fmap_compose in Hkeys.
    apply (NoDup_fmap_1 (fun e : string * list (string * string) => Some e.1)) in Hkeys
      as Hnd'.
    apply NoDup_fmap_2_strong; [|done].
    intros [k1 v1] [k2 v2] Hin1 Hin2. simpl. intros <-.
    by rewrite (Hgroup _ _ Hin1), (Hgroup _ _ Hin2).
  - intros layer ps Hin. rewrite (Hgroup _ _ Hin). unfold params_of_layer. split.
    + assert (map fst (filter (fun kv : string * string =>
                                 extract_layer_name kv.1 = Some layer) items)
              `sublist_of` map fst items) as Hsub
        by apply fmap_sublist, sublist_filter.
      by eapply sublist_NoDup.
    + apply Forall_forall. by intros kv [? _]%list_elem_of_filter.
  - intros kv Hkv. rewrite Forall_forall in Hclass.
    destruct (Hclass kv Hkv) as [layer Hlayer].
    specialize (Hget (Some layer)).
    assert (kv ∈ params_of_layer (Some layer) items) as Hin
      by (by apply list_elem_of_filter).
    destruct (params_of_layer (Some layer) items) as [|p ps] eqn:Hps;
      [by apply elem_of_nil in Hin|].
    apply od_get_Some_elem, list_elem_of_fmap in Hget as ([k v] & [= <- <-] & Hin').
    exists layer, (p :: ps). done.
Qed.

Lemma grouped_catalogue_witness :
  ∃ param_names_by_layer : list (string * list (string * string)),
    extract_param_names_groupby_layer example_meta 0
      = Ok (map (fun e => (Some e.1, e.2)) param_names_by_layer) ∧
    NoDup (map fst param_names_by_layer).
Proof.
  assert (∃ items, all_name_mappings example_meta 0 = Some items ∧
                   Forall (fun kv => is_Some (extract_layer_name kv.1)) items ∧
                   NoDup (map fst items)) as (items & Hitems & Hclass & Hnd).
  { eexists. split; [vm_compute; reflexivity|].
    split; apply (bool_decide_unpack _); by vm_compute. }
  destruct (grouped_catalogue example_meta 0 items Hitems Hclass Hnd)
    as (cat & Hrun & Hkeys & _).
  exists cat. split; [exact Hrun|exact Hkeys].
Defined.

(** ** More cuts than stages *)

(** X16: when the policy is not the uniform one and the transformer blocks
    make more parts of [part_size] than there are stages, the boundary list
    overflows: once the layers are indexed, the construction of the context
    stops with [IndexError]. *)
Theorem by_layer_overflow (_transformer_layer_num : option Z)
    (pp_degree vpp_degree : nat) (segment_method : string)
    (param_names_by_layer : list (string * list (string * string))) (n : nat) :
  segment_method ≠ "uniform" →
  transformer_layer_num _transformer_layer_num param_names_by_layer
    = Ok (Z.of_nat n) →
  is_ok (_index_layers _transformer_layer_num param_names_by_layer) →
  1 ≤ n / (pp_degree * vpp_degree) →
  pp_degree * vpp_degree < n / (n / (pp_degree * vpp_degree)) →
  new_context _transformer_layer_num pp_degree vpp_degree segment_method
              param_names_by_layer = Raise IndexError.
Proof.
  intros Hm Hn [maps Hmaps] Hpart Hcuts.
  unfold new_context. rewrite Hmaps. cbn [bind].
  unfold _segment. rewrite Hn. cbn [bind].
  unfold plan_segments. apply String.eqb_neq in Hm. rewrite Hm.
  set (s := pp_degree * vpp_degree) in *.
  assert (1 ≤ s) as Hs.
  { destruct s; [|lia]. by rewrite Nat.div_0_r in Hpart. }
  replace (Z.to_nat (Z.of_nat n + 3)) with (n + 3) by lia.
  rewrite segment_by_layer_closed by done.
  rewrite by_layer_cuts_count by done.
  by rewrite decide_False by lia.
Qed.

Lemma by_layer_overflow_witness :
  new_context None 3 1 "layer" (bare_catalogue 4) = Raise IndexError.
Proof.
  apply (by_layer_overflow None 3 1 "layer" (bare_catalogue 4) 4).
  - done.
  - reflexivity.
  - eexists. vm_compute. reflexivity.
  - vm_compute. lia.
  - vm_compute. lia.
Defined.

(** * Which names of a pass share a layer-name prefix *)

(** ** Tensor names between two names of one component *)

Lemma leb_between (p a b s : string) :
  String.leb (p +:+ a) s = true → String.leb s (p +:+ b) = true →
  ∃ s', s = p +:+ s'.
Proof.
  revert s. induction p as [|c p IH]; intros s; simpl.
  - intros _ _. by exists s.
  - destruct s as [|d s]; [done|]. unfold String.leb. simpl.
    unfold Ascii.compare.
    destruct (N.compare_spec (N_of_ascii c) (N_of_ascii d)) as [E|L|G];
      [| |done].
    + assert (c = d) as <-.
      { by rewrite <- (ascii_N_embedding c), E, ascii_N_embedding. }
      rewrite N.compare_refl. intros H1 H2.
      destruct (IH s H1 H2) as [s' ->]. by exists s'.
    + intros _.
      destruct (N.compare_spec (N_of_ascii d) (N_of_ascii c)) as [E'|L'|G'];
        [lia|lia|done].
Qed.

Lemma append_dot_assoc (c rest : string) :
  c +:+ String "." rest = (c +:+ ".") +:+ rest.
Proof. induction c as [|a c IH]; simpl; [done|]. by rewrite IH. Qed.

Lemma dotted_form (name : string) :
  dotted name → ∃ rest, name = first_component name +:+ String "." rest.
Proof.
  unfold dotted, sub_path, first_component.
  induction name as [|c name IH]; simpl; [done|].
  destruct (Ascii.eqb_spec c ".") as [->|Hne].
  - intros _. by exists name.
  - destruct (split "." name) as [|w ws] eqn:Hs; [done|]. simpl in *.
    intros [rest ->]%IH. by exists rest.
Qed.

Lemma first_component_dotless (name : string) : dotless (first_component name).
Proof.
  unfold first_component. pose proof (split_dotless name) as H.
  destruct (split "." name) as [|w ws]; [done|].
  by apply Forall_cons in H as [? _].
Qed.

Lemma first_component_append (c rest : string) :
  dotless c → first_component (c +:+ String "." rest) = c.
Proof. intros Hc. unfold first_component. by rewrite split_append_dot. Qed.

(** A name that the order of strings puts between two names with the
    sub-paths of one component [c] starts with [c.] too. *)
Lemma component_between (name1 name2 name : string) :
  dotted name1 → dotted name2 →
  first_component name1 = first_component name2 →
  String.leb name1 name = true → String.leb name name2 = true →
  first_component name = first_component name1.
Proof.
  intros [rest1 H1]%dotted_form [rest2 H2]%dotted_form Heq Hle1 Hle2.
  rewrite <- Heq in H2.
  pose proof (first_component_dotless name1) as Hc.
  set (c := first_component name1) in *.
  rewrite H1, append_dot_assoc in Hle1. rewrite H2, append_dot_assoc in Hle2.
  destruct (leb_between _ _ _ _ Hle1 Hle2) as [s' ->].
  rewrite <- append_dot_assoc. by apply first_component_append.
Qed.

(** ** The counters of the roles along a pass *)

(** One presentation: the counter of its role stays when the presentation
    repeats the last one made to the scope of the role, and advances by one
    otherwise; the scopes of the other roles are as they were. *)
Lemma presentation_step (mgr mgr' : LayerReNamingManager)
    (x : string * string) (new_name : string) :
  manager_wf mgr →
  get_new_param_name mgr x.1 x.2 = Ok (mgr', new_name) →
  ∃ role,
    known_role role ∧
    presented_role x = Some role ∧
    manager_wf mgr' ∧
    first_component new_name = role +:+ "_" +:+ str_int (index_of mgr' role) ∧
    index_of mgr' role
    = (if decide (presented_args x = last_of mgr role)
       then index_of mgr role else (index_of mgr role + 1)%Z) ∧
    last_of mgr' role = presented_args x ∧
    ∀ role', role' ≠ role →
      index_of mgr' role' = index_of mgr role' ∧
      last_of mgr' role' = last_of mgr role'.
Proof.
  intros Hwf Hstep.
  destruct (renamed_param _ _ _ _ _ Hwf Hstep)
    as (role & Hknown & Hrole & Hscope & Hother & Hwf' & _ & Hfirst & _).
  exists role. split; [done|]. split; [done|]. split; [done|].
  assert (scope_for mgr' role
          = get_next_scope (scope_for mgr role) x.1 (first_component x.2)) as Hfor.
  { unfold scope_for at 1. by rewrite Hscope. }
  unfold index_of, last_of, presented_args. rewrite Hfor.
  split; [done|]. split; [|split].
  - rewrite next_index.
    destruct (decide (x.1 = sc_last_layer_id (scope_for mgr role) ∧
                      first_component x.2
                      = sc_last_old_layer_name (scope_for mgr role)))
      as [[E1 E2]|Hne];
      case_decide as Hd; try done.
    + exfalso. apply Hd. by rewrite E1, E2.
    + exfalso. apply Hne. by injection Hd.
  - destruct (get_next_scope_last (scope_for mgr role) x.1 (first_component x.2))
      as (-> & -> & _). done.
  - intros role' Hne. specialize (Hother role' Hne).
    unfold scope_for. rewrite Hother.
    by destruct (role_scope mgr role').
Qed.

(** Along a pass the counter of a role does not go back, and the name at
    position [j] carries the counter that the pass started from exactly when
    every presentation of the role up to [j] repeats the one that the scope
    of the role had seen before the pass. *)
Lemma pass_index (pass : list (string * string)) :
  ∀ mgr mgr' names,
    manager_wf mgr → rename_pass mgr pass = Ok (mgr', names) →
    ∀ j x new_name role,
      pass !! j = Some x → names !! j = Some new_name →
      presented_role x = Some role →
      ∃ index,
        first_component new_name = role +:+ "_" +:+ str_int index ∧
        (index_of mgr role ≤ index)%Z ∧
        (index = index_of mgr role ↔
         ∀ k y, k ≤ j → pass !! k = Some y → presented_role y = Some role →
                presented_args y = last_of mgr role).
Proof.
  induction pass as [|[layer_id old_name] pass IH];
    intros mgr mgr' names Hwf Hpass j x new_name role Hx Hn Hrole; [done|].
  simpl in Hpass.
  apply bind_ok in Hpass
    as ([m1 n1] & Hstep & ([m2 ns] & Hrest & [= <- <-])%bind_ok).
  simpl in Hrest.
  destruct (presentation_step mgr m1 (layer_id, old_name) n1 Hwf Hstep)
    as (role0 & Hk0 & Hr0 & Hwf1 & Hf0 & Hi0 & Hl0 & Ho0).
  destruct j as [|j].
  - injection Hx as <-. injection Hn as <-.
    assert (role0 = role) as -> by congruence.
    exists (index_of m1 role). split; [done|]. rewrite Hi0.
    case_decide as Hd.
    + split; [done|]. split; [|done]. intros _ k y Hk Hy Hry.
      assert (k = 0) as -> by lia. by injection Hy as <-.
    + split; [lia|]. split; [lia|]. intros H. exfalso. apply Hd.
      by apply (H 0 (layer_id, old_name)); [lia|..].
  - simpl in Hx, Hn.
    destruct (IH m1 m2 ns Hwf1 Hrest j x new_name role Hx Hn Hrole)
      as (index & Hfirst & Hle & Hiff).
    exists index. split; [done|].
    destruct (decide (role0 = role)) as [->|Hne].
    + rewrite Hl0 in Hiff. rewrite Hi0 in Hle, Hiff.
      case_decide as Hd.
      * split; [done|]. rewrite Hiff. split.
        -- intros H [|k] y Hk Hy Hry.
           ++ by injection Hy as <-.
           ++ rewrite <- Hd. apply (H k y); [lia|done..].
        -- intros H k y Hk Hy Hry. rewrite Hd. apply (H (S k) y); [lia|done..].
      * split; [lia|]. split; [lia|]. intros H. exfalso. apply Hd.
        by apply (H 0 (layer_id, old_name)); [lia|..].
    + destruct (Ho0 role (not_eq_sym Hne)) as [Hi Hl].
      rewrite Hi, Hl in *. split; [done|]. rewrite Hiff. split.
      * intros H [|k] y Hk Hy Hry.
        -- injection Hy as <-. congruence.
        -- apply (H k y); [lia|done..].
      * intros H k y Hk Hy Hry. apply (H (S k) y); [lia|done..].
Qed.

(** Two names of a pass, adjacent or not: they receive the same layer-name
    prefix exactly when the later one repeats the layer and the first
    component of the earlier one and no presentation of their role between
    them differs from them. *)
Lemma pass_prefixes (pass : list (string * string)) :
  ∀ mgr mgr' names,
    manager_wf mgr → rename_pass mgr pass = Ok (mgr', names) →
    ∀ i j x y new_x new_y,
      i < j →
      pass !! i = Some x → pass !! j = Some y →
      names !! i = Some new_x → names !! j = Some new_y →
      first_component new_x = first_component new_y ↔
      presented_args y = presented_args x ∧
      ∀ k z, i < k < j → pass !! k = Some z →
             presented_role z = presented_role x →
             presented_args z = presented_args x.
Proof.
  induction pass as [|[layer_id old_name] pass IH];
    intros mgr mgr' names Hwf Hpass i j x y new_x new_y Hij Hx Hy Hnx Hny; [done|].
  simpl in Hpass.
  apply bind_ok in Hpass
    as ([m1 n1] & Hstep & ([m2 ns] & Hrest & [= <- <-])%bind_ok).
  simpl in Hrest.
  destruct (presentation_step mgr m1 (layer_id, old_name) n1 Hwf Hstep)
    as (role & Hk & Hr & Hwf1 & Hf & _ & Hl & _).
  destruct j as [|j]; [lia|]. simpl in Hy, Hny.
  destruct i as [|i].
  - injection Hx as <-. injection Hnx as <-.
    destruct y as [layer_id' old_name'].
    destruct (rename_pass_shape pass m1 m2 ns Hwf1 Hrest j _ _ _ Hy Hny)
      as (_ & [role' Hr'] & _).
    destruct (pass_index pass m1 m2 ns Hwf1 Hrest j _ new_y role' Hy Hny Hr')
      as (index & Hf' & Hle & Hiff).
    rewrite Hf, Hf'. split.
    + intros Heq.
      apply role_name_inj in Heq as [<- Hidx%str_int_inj];
        [|done|by eapply get_layer_prefix_known].
      symmetry in Hidx. rewrite Hiff, Hl in Hidx. split.
      * by apply (Hidx j (layer_id', old_name')).
      * intros [|k] z Hkj Hz Hrz; [lia|]. simpl in Hz.
        apply (Hidx k z); [lia|done|congruence].
    + intros [Hargs Hbetween].
      assert (role' = role) as ->.
      { unfold presented_role in *. injection Hargs as _ Hc. simpl in *.
        rewrite Hc in Hr'. congruence. }
      do 3 f_equal. symmetry. apply Hiff. intros k z Hkj Hz Hrz. rewrite Hl.
      destruct (decide (k = j)) as [->|Hne].
      * rewrite Hy in Hz. by injection Hz as <-.
      * apply (Hbetween (S k) z); [lia|done|congruence].
  - simpl in Hx, Hnx.
    rewrite (IH m1 m2 ns Hwf1 Hrest i j x y new_x new_y ltac:(lia) Hx Hy Hnx Hny).
    split; intros [Hargs Hbetween]; (split; [done|]).
    + intros [|k] z Hkj Hz Hrz; [lia|]. apply (Hbetween k z); [lia|done..].
    + intros k z Hkj Hz Hrz. apply (Hbetween (S k) z); [lia|done..].
Qed.

(** ** The renaming pass of a stage *)

(** The entry of a raw name in the table comes from the last presentation
    of the raw name. *)
Lemma record_names_last (params : list (string * string * string)) :
  ∀ (names : list string) (k : string) (v : string * string),
    length names = length params →
    record_names ∅ params names !! k = Some v →
    ∃ i layer,
      params !! i = Some (layer, k, v.1) ∧ names !! i = Some v.2 ∧
      ∀ i' x, i < i' → params !! i' = Some x → x.1.2 ≠ k.
Proof.
  induction params as [|x params IH] using rev_ind; intros names k v Hlen Hv.
  - by destruct names.
  - destruct names as [|n names _] using rev_ind;
      [rewrite length_app in Hlen; simpl in Hlen; lia|].
    rewrite !length_app in Hlen. simpl in Hlen.
    rewrite record_names_snoc in Hv by lia.
    destruct (decide (x.1.2 = k)) as [<-|Hne].
    + rewrite lookup_insert_eq in Hv. injection Hv as <-.
      exists (length params), x.1.1. destruct x as [[? ?] ?]. simpl.
      rewrite !lookup_app_r by lia.
      replace (length params - length names) with 0 by lia.
      rewrite Nat.sub_diag. do 2 (split; [done|]).
      intros i' y Hi' Hy. apply lookup_lt_Some in Hy.
      rewrite length_app in Hy. simpl in Hy. lia.
    + rewrite lookup_insert_ne in Hv by done.
      destruct (IH names k v ltac:(lia) Hv) as (i & l & Hp & Hn & Hlast).
      exists i, l.
      rewrite (lookup_app_l_Some _ _ _ _ Hp), (lookup_app_l_Some _ _ _ _ Hn).
      do 2 (split; [done|]).
      intros i' y Hi' Hy.
      destruct (decide (i' < length params)) as [Hlt|Hge].
      * rewrite lookup_app_l in Hy by done. by apply (Hlast i' y).
      * rewrite lookup_app_r in Hy by lia.
        destruct (i' - length params) as [|?]; [|done].
        by injection Hy as <-.
Qed.

(** A stage presents its parameters layer by layer. *)
Lemma presented_layers (stage : PipeLineStage) :
  presented stage = concat (map presented_by_layer (stage_layers stage)).
Proof.
  unfold presented, stage_layers.
  induction (st_segments stage) as [|item items IH]; [done|]. simpl.
  rewrite map_app, concat_app, <- IH. f_equal.
  destruct (st_objects stage !! item.2) as [segment|]; [|done].
  unfold presented_by_segment. by rewrite map_map.
Qed.

Lemma stage_layers_from (param_names_by_layer : list (string * list (string * string)))
    (stage : PipeLineStage) :
  stage_from param_names_by_layer stage →
  Forall (layer_from param_names_by_layer) (stage_layers stage).
Proof.
  unfold stage_from, stage_layers. rewrite !Forall_forall. intros Hfrom layer Hl.
  apply list_elem_of_In, in_concat in Hl as (xs & Hxs & Hl).
  apply list_elem_of_In in Hxs, Hl.
  apply list_elem_of_fmap in Hxs as (item & -> & _).
  destruct (st_objects stage !! item.2) as [segment|] eqn:Hseg;
    [|by apply elem_of_nil in Hl].
  specialize (Hfrom segment (list_elem_of_lookup_2 _ _ _ Hseg)).
  rewrite Forall_forall in Hfrom.
  apply list_elem_of_fmap in Hl as (entry & -> & Hentry). by apply Hfrom.
Qed.

(** The last element of a list with a property. *)
Lemma last_with {A : Type} (P : A → Prop) `{∀ x, Decision (P x)} (l : list A) :
  Exists P l →
  ∃ l1 x l2, l = l1 ++ x :: l2 ∧ P x ∧ Forall (fun y => ¬ P y) l2.
Proof.
  induction l as [|y l IH] using rev_ind; [by intros ?%Exists_nil|].
  intros [Hl|Hy%Exists_cons]%Exists_app.
  - destruct (decide (P y)) as [Hy|Hy].
    + exists l, y, []. by repeat split.
    + destruct (IH Hl) as (l1 & x & l2 & -> & Hx & Hl2).
      exists l1, x, (l2 ++ [y]). rewrite <- app_assoc. split; [done|].
      split; [done|]. apply Forall_app. split; [done|]. by repeat constructor.
  - destruct Hy as [Hy|Hnil%Exists_nil]; [|done].
    exists l, y, []. by repeat split.
Qed.

Lemma strongly_sorted_lookup {A : Type} (R : relation A) (l : list A)
    (i j : nat) (x y : A) :
  StronglySorted R l → i < j → l !! i = Some x → l !! j = Some y → R x y.
Proof.
  intros Hl. revert i j. induction Hl as [|a l Hl IH Ha]; intros i j Hij Hx Hy;
    [done|].
  destruct j as [|j]; [lia|]. simpl in Hy.
  destruct i as [|i].
  - injection Hx as <-. rewrite Forall_forall in Ha.
    apply Ha. by eapply list_elem_of_lookup_2.
  - simpl in Hx. apply (IH i j); [lia|done..].
Qed.

(** The place of a presentation in the last block of its layer. *)
Lemma in_block (l : string) (PA PB PC : list (string * string * string))
    (i : nat) (x : string * string * string) :
  (PA ++ PB ++ PC) !! i = Some x → x.1.1 = l →
  Forall (fun y => y.1.1 ≠ l) PC →
  (∃ y, y ∈ PB ∧ y.1.2 = x.1.2) →
  (∀ i' y, i < i' → (PA ++ PB ++ PC) !! i' = Some y → y.1.2 ≠ x.1.2) →
  length PA ≤ i < length PA + length PB.
Proof.
  intros Hx Hl HPC (y & Hy & Hraw) Hlast. split.
  - apply list_elem_of_lookup_1 in Hy as [q Hq].
    destruct (decide (length PA ≤ i)) as [|Hlt]; [done|]. exfalso.
    apply (Hlast (length PA + q) y); [lia| |done].
    rewrite lookup_app_r by lia.
    replace (length PA + q - length PA) with q by lia.
    by apply lookup_app_l_Some.
  - destruct (decide (i < length PA + length PB)) as [|Hge]; [done|]. exfalso.
    rewrite app_assoc, lookup_app_r in Hx by (rewrite length_app; lia).
    rewrite Forall_forall in HPC.
    by apply (HPC x (list_elem_of_lookup_2 _ _ _ Hx)).
Qed.

(** In the pass of a stage, between the last presentations of two raw names
    of one layer there are only parameters of that layer, with tensor names
    that the order of strings puts between the two. *)
Lemma last_block (param_names_by_layer : list (string * list (string * string)))
    (stage : PipeLineStage) (l : string) (param_names : list (string * string))
    (i j : nat) (r1 t1 r2 t2 : string) :
  stage_from param_names_by_layer stage →
  od_get param_names_by_layer l = Some param_names →
  NoDup (map fst param_names) →
  presented stage !! i = Some (l, r1, t1) →
  presented stage !! j = Some (l, r2, t2) →
  (∀ i' x, i < i' → presented stage !! i' = Some x → x.1.2 ≠ r1) →
  (∀ j' x, j < j' → presented stage !! j' = Some x → x.1.2 ≠ r2) →
  ∀ k z, i < k < j → presented stage !! k = Some z →
    z.1.1 = l ∧ String.leb t1 z.2 = true ∧ String.leb z.2 t2 = true.
Proof.
  intros Hfrom Hget Hnodup Hi Hj Hlast1 Hlast2 k z Hk Hz.
  assert (∀ r t, (l, r, t) ∈ presented stage → (r, t) ∈ param_names) as Hin.
  { intros r t Hx.
    destruct (presented_from _ _ _ Hfrom Hx) as (ps & Hps & Hp). simpl in *.
    congruence. }
  apply stage_layers_from in Hfrom.
  rewrite presented_layers in *.
  assert (Exists (fun layer => layer_name layer = l) (stage_layers stage)) as Hex.
  { apply list_elem_of_lookup_2, list_elem_of_In, in_concat in Hi
      as (xs & Hxs & Hx).
    apply list_elem_of_In in Hxs, Hx.
    apply list_elem_of_fmap in Hxs as (layer & -> & Hlayer).
    apply Exists_exists. exists layer. split; [done|].
    unfold presented_by_layer in Hx.
    by apply list_elem_of_fmap in Hx as (p & [= -> _ _] & _). }
  apply last_with in Hex as (L1s & layer & L2s & HLs & Hname & HL2s);
    [|intros ?; apply _].
  rewrite HLs in *. clear HLs.
  rewrite map_app, concat_app in *. simpl in Hi, Hj, Hz, Hlast1, Hlast2, Hin.
  apply Forall_app in Hfrom as [_ [(ps & Hps & Hlayer) _]%Forall_cons].
  rewrite Hname, Hget in Hps. injection Hps as <-.
  rewrite Hname in Hlayer. rewrite Hlayer in *. clear Hlayer layer Hname.
  destruct (presented_new_layer l param_names Hnodup) as [HPB _].
  rewrite HPB in *. clear HPB.
  set (S := sorted (fun x y : string * string => String.leb x.2 y.2) param_names) in *.
  set (PA := concat (map presented_by_layer L1s)) in *.
  set (PB := map (fun p : string * string => (l, p.1, p.2)) S) in *.
  set (PC := concat (map presented_by_layer L2s)) in *.
  assert (Forall (fun y : string * string * string => y.1.1 ≠ l) PC) as HPC.
  { apply Forall_forall. intros y Hy.
    apply list_elem_of_In, in_concat in Hy as (xs & Hxs & Hy).
    apply list_elem_of_In in Hxs, Hy.
    apply list_elem_of_fmap in Hxs as (layer & -> & Hlayer).
    rewrite Forall_forall in HL2s. specialize (HL2s layer Hlayer).
    unfold presented_by_layer in Hy.
    by apply list_elem_of_fmap in Hy as (p & -> & _). }
  assert (∀ r t, (l, r, t) ∈ PA ++ PB ++ PC → (l, r, t) ∈ PB) as HinB.
  { intros r t Hx%Hin. unfold PB. apply list_elem_of_fmap.
    exists (r, t). split; [done|]. unfold S. by rewrite sorted_perm. }
  assert (length PA ≤ i < length PA + length PB) as Hib.
  { apply (in_block l PA PB PC i (l, r1, t1)); [done..| |done].
    exists (l, r1, t1). split; [|done].
    apply HinB. by eapply list_elem_of_lookup_2. }
  assert (length PA ≤ j < length PA + length PB) as Hjb.
  { apply (in_block l PA PB PC j (l, r2, t2)); [done..| |done].
    exists (l, r2, t2). split; [|done].
    apply HinB. by eapply list_elem_of_lookup_2. }
  rewrite lookup_app_r, lookup_app_l in Hi, Hj, Hz by lia.
  unfold PB in Hi, Hj, Hz. rewrite list_lookup_fmap in Hi, Hj, Hz.
  destruct (S !! (i - length PA)) as [p1|] eqn:E1; [|done].
  destruct (S !! (j - length PA)) as [p2|] eqn:E2; [|done].
  destruct (S !! (k - length PA)) as [p|] eqn:E; [|done].
  injection Hi as _ <-. injection Hj as _ <-. injection Hz as <-.
  split; [done|]. simpl.
  pose proof (sorted_by_tensor_name param_names) as Hsorted. fold S in Hsorted.
  split.
  - apply (strongly_sorted_lookup _ _ (i - length PA) (k - length PA) _ _ Hsorted);
      [lia|by rewrite list_lookup_fmap, E1|by rewrite list_lookup_fmap, E].
  - apply (strongly_sorted_lookup _ _ (k - length PA) (j - length PA) _ _ Hsorted);
      [lia|by rewrite list_lookup_fmap, E|by rewrite list_lookup_fmap, E2].
Qed.

(** Two parameters of one layer whose tensor names have the same first
    component and a sub-path are named with the same prefix, wherever the
    layer puts them in its sorted list. *)
Lemma stage_pass_same (param_names_by_layer : list (string * list (string * string)))
    (stage : PipeLineStage) (mgr : LayerReNamingManager) (names : list string)
    (l : string) (param_names : list (string * string))
    (i j : nat) (r1 t1 r2 t2 new1 new2 : string) :
  manager_wf (st_rename_mgr stage) →
  stage_from param_names_by_layer stage →
  od_get param_names_by_layer l = Some param_names →
  NoDup (map fst param_names) →
  rename_pass (st_rename_mgr stage) (map renamer_input (presented stage))
    = Ok (mgr, names) →
  presented stage !! i = Some (l, r1, t1) →
  presented stage !! j = Some (l, r2, t2) →
  (∀ i' x, i < i' → presented stage !! i' = Some x → x.1.2 ≠ r1) →
  (∀ j' x, j < j' → presented stage !! j' = Some x → x.1.2 ≠ r2) →
  names !! i = Some new1 → names !! j = Some new2 →
  i < j →
  first_component t1 = first_component t2 → dotted t1 → dotted t2 →
  first_component new1 = first_component new2.
Proof.
  intros Hwf Hfrom Hget Hnodup Hpass Hi Hj Hlast1 Hlast2 Hn1 Hn2 Hij Hc Hd1 Hd2.
  apply (pass_prefixes _ _ _ _ Hwf Hpass i j (l, t1) (l, t2) new1 new2 Hij);
    [by rewrite list_lookup_fmap, Hi|by rewrite list_lookup_fmap, Hj|done..|].
  unfold presented_args. simpl. split; [by rewrite Hc|].
  intros k z Hk Hz _. rewrite list_lookup_fmap in Hz.
  destruct (presented stage !! k) as [[[l' r'] t']|] eqn:Hk'; [|done].
  injection Hz as <-. simpl.
  destruct (last_block _ _ _ _ _ _ _ _ _ _ Hfrom Hget Hnodup Hi Hj Hlast1 Hlast2
              k _ Hk Hk') as (Hl & Hle1 & Hle2).
  simpl in *. subst l'. f_equal. by apply (component_between t1 t2).
Qed.

(** C6, as stated, fails in the renaming pass of a stage: in the context
    built from [example_undotted_catalogue], whose raw names are listed once
    and under their layers, the embedding layer sorts its tensor names into
    [linear_1], [linear_1-x.w_0], [linear_1.w_0]; the first and the third
    have the same layer and the same first component [linear_1], and they
    are named [linear_0] and [linear_2.w_0], because the name between them
    has another first component. *)
Lemma occurrence_grouping_fails :
  grouped example_undotted_catalogue ∧
  (c <- new_context None 1 1 "uniform" example_undotted_catalogue ;;
   a <- map_name c "ernie.embed_tokens.a" "linear_1" ;;
   b <- map_name c "ernie.embed_tokens.c" "linear_1.w_0" ;;
   Ok (a, b)) = Ok ("linear_0", "linear_2.w_0") ∧
  extract_layer_name "ernie.embed_tokens.a"
    = extract_layer_name "ernie.embed_tokens.c" ∧
  first_component "linear_1" = first_component "linear_1.w_0" ∧
  first_component "linear_0" ≠ first_component "linear_2.w_0".
Proof.
  split; [|repeat split; try reflexivity; vm_compute; discriminate].
  intros l ps H.
  repeat (apply elem_of_cons in H as [[= -> ->]|H];
          [split; [apply (bool_decide_unpack _); by vm_compute
                  |repeat (constructor; [by vm_compute|]); constructor]|]).
  by apply elem_of_nil in H.
Qed.

(** C6, amended.  In a renaming pass that starts from a new renamer, two
    names, adjacent or not, receive the same layer-name prefix exactly when
    the later one has the layer and the first component of the earlier one
    and no name of their role presented between them differs from them in
    layer or first component; so two names that differ in layer or first
    component always receive distinct prefixes.  In a stage of a context
    built from a catalogue that lists every raw name once and under its
    layer, the recorded name of a parameter has the sub-path of its tensor
    name behind a prefix made of the role of the first component and a
    counter; two parameters of the same layer whose tensor names have the
    same first component and both a sub-path (weight and bias of one
    linear) have the same prefix, whatever else the layer holds; and two
    parameters of different layers, or with different first components,
    have distinct prefixes. *)
Theorem occurrence_grouping (_transformer_layer_num : option Z)
    (pp_degree vpp_degree : nat) (segment_method : string)
    (param_names_by_layer : list (string * list (string * string)))
    (ctx : PipeLineSegmentContext) :
  grouped param_names_by_layer →
  new_context _transformer_layer_num pp_degree vpp_degree segment_method
              param_names_by_layer = Ok ctx →
  (∀ pass mgr names i j x y new_x new_y,
     rename_pass new_manager pass = Ok (mgr, names) →
     i < j →
     pass !! i = Some x → pass !! j = Some y →
     names !! i = Some new_x → names !! j = Some new_y →
     (first_component new_x = first_component new_y ↔
      presented_args y = presented_args x ∧
      ∀ k z, i < k < j → pass !! k = Some z →
             presented_role z = presented_role x →
             presented_args z = presented_args x)) ∧
  ∀ stage, stage ∈ ctx_stages ctx →
    ∀ raw1 tensor1 new1 raw2 tensor2 new2,
      st_param_to_tname stage !! raw1 = Some (tensor1, new1) →
      st_param_to_tname stage !! raw2 = Some (tensor2, new2) →
      (∃ role index,
         get_layer_prefix (first_component tensor1) = Some role ∧
         first_component new1 = role +:+ "_" +:+ str_int index ∧
         sub_path new1 = sub_path tensor1) ∧
      (extract_layer_name raw1 = extract_layer_name raw2 →
       first_component tensor1 = first_component tensor2 →
       dotted tensor1 → dotted tensor2 →
       first_component new1 = first_component new2) ∧
      (extract_layer_name raw1 ≠ extract_layer_name raw2 ∨
       first_component tensor1 ≠ first_component tensor2 →
       first_component new1 ≠ first_component new2).
Proof.
  intros Hgrouped Hctx. split.
  { intros pass mgr names i j x y new_x new_y Hpass.
    by apply (pass_prefixes pass new_manager mgr names manager_wf_new Hpass). }
  intros stage Hstage raw1 tensor1 new1 raw2 tensor2 new2 H1 H2.
  apply new_context_ok in Hctx
    as (n & segs & s & stages & _ & _ & _ & Hplace & Hbuild & ->).
  simpl in Hstage. apply build_all_ok in Hbuild.
  apply list_elem_of_lookup_1 in Hstage as [q Hq].
  destruct (Forall2_lookup_r _ _ _ _ _ Hbuild Hq) as (stage0 & Hq0 & Hb).
  pose proof (place_stages_fresh _ _ _ _ _ Hplace (Forall_nil_2 _)) as Hfresh.
  rewrite Forall_forall in Hfresh.
  destruct (Hfresh stage0 (list_elem_of_lookup_2 _ _ _ Hq0)) as [Hmgr Hempty].
  pose proof (stage_from_place_stages _ _ _ _ Hplace) as Hfrom.
  rewrite Forall_forall in Hfrom.
  specialize (Hfrom stage0 (list_elem_of_lookup_2 _ _ _ Hq0)).
  apply build_name_mapping_ok in Hb as (_ & mgr & names & Hpass & ->).
  simpl in H1, H2. rewrite Hempty in H1, H2.
  pose proof (rename_pass_length _ _ _ _ Hpass) as Hlen.
  rewrite length_map in Hlen.
  apply record_names_last in H1 as (i & l1 & Hi & Hn1 & Hlast1); [|done].
  apply record_names_last in H2 as (j & l2 & Hj & Hn2 & Hlast2); [|done].
  simpl in Hi, Hj, Hn1, Hn2.
  assert (manager_wf (st_rename_mgr stage0)) as Hwf
    by (rewrite Hmgr; apply manager_wf_new).
  destruct (presented_from _ _ _ Hfrom (list_elem_of_lookup_2 _ _ _ Hi))
    as (ps1 & Hget1 & Hin1).
  destruct (presented_from _ _ _ Hfrom (list_elem_of_lookup_2 _ _ _ Hj))
    as (ps2 & Hget2 & Hin2).
  simpl in Hget1, Hin1, Hget2, Hin2.
  destruct (Hgrouped l1 ps1 (od_get_Some_elem _ _ _ Hget1)) as [Hnd1 Hex1].
  destruct (Hgrouped l2 ps2 (od_get_Some_elem _ _ _ Hget2)) as [Hnd2 Hex2].
  rewrite Forall_forall in Hex1, Hex2.
  specialize (Hex1 _ Hin1). specialize (Hex2 _ Hin2). simpl in Hex1, Hex2.
  assert (map renamer_input (presented stage0) !! i = Some (l1, tensor1)) as Hpi
    by (by rewrite list_lookup_fmap, Hi).
  assert (map renamer_input (presented stage0) !! j = Some (l2, tensor2)) as Hpj
    by (by rewrite list_lookup_fmap, Hj).
  split; [|split].
  - destruct (rename_pass_shape _ _ _ _ Hwf Hpass i _ _ _ Hpi Hn1)
      as (Hsub & [role Hrole] & _).
    destruct (pass_index _ _ _ _ Hwf Hpass i _ new1 role Hpi Hn1 Hrole)
      as (index & Hfirst & _).
    by exists role, index.
  - rewrite Hex1, Hex2. intros [= <-] Hc Hd1 Hd2.
    rewrite Hget1 in Hget2. injection Hget2 as <-.
    destruct (lt_eq_lt_dec i j) as [[Hlt| ->]|Hgt].
    + by apply (stage_pass_same param_names_by_layer stage0 mgr names l1 ps1 i j
                  raw1 tensor1 raw2 tensor2).
    + congruence.
    + symmetry.
      by apply (stage_pass_same param_names_by_layer stage0 mgr names l1 ps1 j i
                  raw2 tensor2 raw1 tensor1).
  - rewrite Hex1, Hex2. intros Hdiff.
    assert (presented_args (l2, tensor2) ≠ presented_args (l1, tensor1)) as Hargs.
    { unfold presented_args. simpl. intros [= -> Hc]. destruct Hdiff; congruence. }
    destruct (lt_eq_lt_dec i j) as [[Hlt| ->]|Hgt].
    + intros Heq.
      apply (pass_prefixes _ _ _ _ Hwf Hpass i j _ _ _ _ Hlt Hpi Hpj Hn1 Hn2)
        in Heq as [Heq _]. done.
    + rewrite Hpi in Hpj. injection Hpj as <- <-. done.
    + intros Heq. symmetry in Heq.
      apply (pass_prefixes _ _ _ _ Hwf Hpass j i _ _ _ _ Hgt Hpj Hpi Hn2 Hn1)
        in Heq as [Heq _]. by symmetry in Heq.
Qed.

Lemma occurrence_grouping_witness :
  grouped example_catalogue ∧
  ∃ ctx stage new1 new2 new3,
    new_context None 1 1 "uniform" example_catalogue = Ok ctx ∧
    ctx_stages ctx !! 0 = Some stage ∧
    st_param_to_tname stage !! "ernie.layers.1.self_attn.q_proj.weight"
      = Some ("linear_1.w_0", new1) ∧
    st_param_to_tname stage !! "ernie.layers.1.self_attn.q_proj.bias"
      = Some ("linear_1.b_0", new2) ∧
    st_param_to_tname stage !! "ernie.layers.0.self_attn.q_proj.weight"
      = Some ("linear_0.w_0", new3) ∧
    first_component new1 = first_component new2 ∧
    first_component new1 ≠ first_component new3.
Proof.
  assert (grouped example_catalogue) as Hgrouped.
  { intros l ps H.
    repeat (apply elem_of_cons in H as [[= -> ->]|H];
            [split; [apply (bool_decide_unpack _); by vm_compute
                    |repeat (constructor; [by vm_compute|]); constructor]|]).
    by apply elem_of_nil in H. }
  assert (dotted "linear_1.w_0") as Hd1 by (by vm_compute).
  assert (dotted "linear_1.b_0") as Hd2 by (by vm_compute).
  assert (extract_layer_name "ernie.layers.1.self_attn.q_proj.weight"
          = extract_layer_name "ernie.layers.1.self_attn.q_proj.bias") as Hsame
    by reflexivity.
  assert (first_component "linear_1.w_0" = first_component "linear_1.b_0") as Hc
    by reflexivity.
  assert (extract_layer_name "ernie.layers.1.self_attn.q_proj.weight"
          ≠ extract_layer_name "ernie.layers.0.self_attn.q_proj.weight") as Hdiff
    by (by vm_compute).
  split; [exact Hgrouped|].
  assert (∃ ctx stage new1 new2 new3,
            new_context None 1 1 "uniform" example_catalogue = Ok ctx ∧
            ctx_stages ctx !! 0 = Some stage ∧
            st_param_to_tname stage !! "ernie.layers.1.self_attn.q_proj.weight"
              = Some ("linear_1.w_0", new1) ∧
            st_param_to_tname stage !! "ernie.layers.1.self_attn.q_proj.bias"
              = Some ("linear_1.b_0", new2) ∧
            st_param_to_tname stage !! "ernie.layers.0.self_attn.q_proj.weight"
              = Some ("linear_0.w_0", new3))
    as (ctx & stage & new1 & new2 & new3 & E & Hs & H1 & H2 & H3).
  { do 5 eexists. split; [vm_compute; reflexivity|].
    split; [vm_compute; reflexivity|].
    repeat split; vm_compute; reflexivity. }
  exists ctx, stage, new1, new2, new3.
  do 5 (split; [assumption|]).
  destruct (occurrence_grouping None 1 1 "uniform" example_catalogue ctx
              Hgrouped E) as [_ Hstage].
  split.
  - exact (proj1 (proj2 (Hstage stage (list_elem_of_lookup_2 _ _ _ Hs)
                           _ _ _ _ _ _ H1 H2)) Hsame Hc Hd1 Hd2).
  - exact (proj2 (proj2 (Hstage stage (list_elem_of_lookup_2 _ _ _ Hs)
                           _ _ _ _ _ _ H1 H3)) (or_introl Hdiff)).
Defined.
